(** * EPA FLIGHT mirror API: the request handlers of [lambda_function.py]

    The handlers read a JSON body, acquire local copies of the Parquet
    tables through a process-wide cache, build one SQL query per request and
    shape the rows the engine returns.  This development embeds

    - the Python values the handlers branch on (truthiness, [str], [int],
      [round]),
    - the cache [get_local_parquet] as a function on an explicit world
      (cache dictionary, files under /tmp, log of remote calls), and as a
      program of atomic steps for interleaved callers,
    - each query as a relational plan that mirrors the SQL text clause by
      clause, with an interpreter for the fragment of SQL the handlers use,
    - the response shaping of the handlers the properties below are about.

    Numbers the engine computes as DOUBLE are exact rationals here. *)

From Stdlib Require Import ZArith QArith Qround Lqa String Ascii List Bool Lia.
From Stdlib Require Import Sorting.Sorted.
From stdpp Require Import gmap strings list pretty.

Local Open Scope string_scope.
Local Open Scope Z_scope.
Local Open Scope list_scope.

(** ** Python values *)

(** A value of the decoded JSON body: null, a boolean, an integer or a
    string. *)
Inductive pyval :=
| PNone
| PBool (b : bool)
| PInt (n : Z)
| PStr (s : string).

Definition pyval_eqb (a b : pyval) : bool :=
  match a, b with
  | PNone, PNone => true
  | PBool x, PBool y => Bool.eqb x y
  | PInt x, PInt y => Z.eqb x y
  | PBool x, PInt y | PInt y, PBool x => Z.eqb (if x then 1 else 0) y
  | PStr x, PStr y => String.eqb x y
  | _, _ => false
  end.

(** [if v:] *)
Definition truthy (v : pyval) : bool :=
  match v with
  | PNone => false
  | PBool b => b
  | PInt n => negb (Z.eqb n 0)
  | PStr s => negb (String.eqb s "")
  end.

(** [str(v)], which is what an f-string interpolates. *)
Definition py_str (v : pyval) : string :=
  match v with
  | PNone => "None"
  | PBool true => "True"
  | PBool false => "False"
  | PInt n => pretty n
  | PStr s => s
  end.

Definition is_space (c : ascii) : bool :=
  let n := nat_of_ascii c in
  Nat.eqb n 32 || (Nat.leb 9 n && Nat.leb n 13) || (Nat.leb 28 n && Nat.leb n 31).

Definition digit_of (c : ascii) : option Z :=
  let n := Z.of_nat (nat_of_ascii c) in
  if (48 <=? n) && (n <=? 57) then Some (n - 48) else None.

Fixpoint lstrip (s : string) : string :=
  match s with
  | String c s' => if is_space c then lstrip s' else s
  | EmptyString => s
  end.

Definition str_rev (s : string) : string :=
  string_of_list_ascii (rev (list_ascii_of_string s)).

Definition strip (s : string) : string :=
  str_rev (lstrip (str_rev (lstrip s))).

(** Digits with single underscores between them, as [int] accepts. *)
Fixpoint parse_digits (after_digit : bool) (acc : Z) (s : string) : option Z :=
  match s with
  | EmptyString => if after_digit then Some acc else None
  | String c s' =>
      if Ascii.eqb c "_"
      then if after_digit then parse_digits false acc s' else None
      else match digit_of c with
           | Some d => parse_digits true (acc * 10 + d) s'
           | None => None
           end
  end.

(** [int(s)] on ASCII text ([ascii_only]); [None] stands for ValueError.
    (Of the text beyond ASCII, [int] also reads the digits and strips the
    spaces of other scripts.) *)
Definition py_int_str (s : string) : option Z :=
  match strip s with
  | String "+" r => parse_digits false 0 r
  | String "-" r => Z.opp <$> parse_digits false 0 r
  | t => parse_digits false 0 t
  end.


(** [round(x)] of a float with no digits argument: nearest integer, ties
    to the even one. *)
Definition py_round (x : Q) : Z :=
  let f := Qfloor x in
  match Qcompare (x - inject_Z f) (1 # 2) with
  | Lt => f
  | Gt => f + 1
  | Eq => if Z.even f then f else f + 1
  end.

(** [s.endswith(suf)]: [suf] is [s] or the end of its tail. *)
Fixpoint endswith (s suf : string) : bool :=
  String.eqb s suf
  || match s with
     | EmptyString => false
     | String _ s' => endswith s' suf
     end.

(** [pat in s] *)
Fixpoint str_contains (pat s : string) : bool :=
  String.prefix pat s
  || match s with
     | EmptyString => false
     | String _ s' => str_contains pat s'
     end.

(** ** Unit conversion *)

Definition MMT_DIVISOR : Q := 1000000.

(** [round(x / MMT_DIVISOR)] *)
Definition toMMT (x : Q) : Z := py_round (x / MMT_DIVISOR).

(** ** Responses *)

(** A caught exception: one whose text the model knows, an error raised by
    the query engine, or a ValueError / TypeError of a conversion. *)
Inductive exn :=
| Exception (msg : string)
| EngineError
| ValueError
| TypeError.

(** The text of a message: a literal, or [str(e)] of a caught exception. *)
Inductive msgtext :=
| Text (s : string)
| StrOf (e : exn).

Record message := { text : msgtext; type : Z }.

(** A cell of a returned tuple, and of a CSV line. *)
Inductive sqlval :=
| VNull
| VStr (s : string)
| VInt (n : Z)
| VDbl (q : Q).

(** A value written by the response shaping. *)
Inductive cell :=
| CNone
| CStr (s : string)
| CInt (n : Z)
| CNum (q : Q).

(** A row of the list-facilities table.  [lr_facility] holds the name and
    the id that the handler formats as [name [id]]; the emissions figure is
    the integer that the handler prints with thousands separators. *)
Record list_row := {
  lr_facility : cell * cell;
  lr_city : cell;
  lr_state : cell;
  lr_totalReportedEmissions : Z
}.

Record facility_dto := {
  facilityId : cell;
  facilityName : cell;
  dto_address1 : cell;
  dto_address2 : cell;
  dto_city : cell;
  dto_state : cell;
  dto_county : cell;
  dto_zip : cell;
  dto_latitude : cell;
  dto_longitude : cell;
  parentCompany : cell
}.

Record gas_emission := { ge_type : cell; ge_quantity : Z }.

(** The ['result'] member of the JSON envelope. *)
Inductive payload :=
| ListFacilities (rows : list list_row) (year : pyval)
| FacilityHover (facilityTipDto : facility_dto) (emissions : list gas_emission)
| DownloadUrl (url filename : string).

Inductive body :=
| JsonBody (result : option payload) (messages : list message)
| CsvBody (filename : string) (lines : list (list cell)).

Record response := { statusCode : Z; resp_body : body }.

(** [cors_response(status, {'messages': [{'text': t, 'type': status}]})] *)
Definition error_response (status : Z) (t : msgtext) : response :=
  {| statusCode := status;
     resp_body := JsonBody None [ {| text := t; type := status |} ] |}.

(** [cors_response(200, {'result': r, 'messages': []})] *)
Definition ok_response (r : payload) : response :=
  {| statusCode := 200; resp_body := JsonBody (Some r) [] |}.

(** ** The remote store *)

Inductive s3_call :=
| DownloadFile (bucket key path : string)
| HeadObject (bucket key : string)
| GeneratePresignedUrl (bucket key : string).

(** What the store answers: [inr msg] stands for a raised exception whose
    text is [msg]. *)
Record s3_client := {
  download_file : string -> string -> string -> unit + string;
  head_object : string -> string -> unit + string;
  generate_presigned_url : string -> string -> string + string
}.

Section Configured.

(** [S3_BUCKET] and [S3_PREFIX] are read from the environment. *)
Variables S3_BUCKET S3_PREFIX : string.

(** *** [handle_data_download] *)

Definition handle_data_download (s3 : s3_client) (filename : string)
  : response * list s3_call :=
  if negb (endswith filename ".csv")
     || str_contains "/" filename
     || str_contains ".." filename
  then (error_response 400 (Text "Invalid filename"), [])
  else
    let s3_key := "epa_ghg_tables_csvs/" +:+ filename in
    match head_object s3 S3_BUCKET s3_key with
    | inr _ =>
        (error_response 404 (Text "File not found"), [HeadObject S3_BUCKET s3_key])
    | inl _ =>
        let calls := [HeadObject S3_BUCKET s3_key;
                      GeneratePresignedUrl S3_BUCKET s3_key] in
        match generate_presigned_url s3 S3_BUCKET s3_key with
        | inl presigned_url => (ok_response (DownloadUrl presigned_url filename), calls)
        | inr e => (error_response 500 (StrOf (Exception e)), calls)
        end
    end.

(** *** [get_local_parquet] *)

(** The state the cache lives in: the module-level dictionary
    [file_cache], the paths that exist under /tmp, and the calls made to
    the store so far. *)
Record world := {
  file_cache : gmap string string;
  local_files : gset string;
  s3_log : list s3_call
}.

Definition s3_key_of (table_name : string) : string :=
  S3_PREFIX +:+ "/ghg." +:+ table_name +:+ ".parquet".

Definition local_path_of (table_name : string) : string :=
  "/tmp/ghg." +:+ table_name +:+ ".parquet".

(** One call.  [inl path] is the returned path, [inr msg] the raised
    exception.  A download that fails leaves no file at [local_path]. *)
Definition get_local_parquet (s3 : s3_client) (w : world) (table_name : string)
  : (string + string) * world :=
  let s3_key := s3_key_of table_name in
  let local_path := local_path_of table_name in
  match file_cache w !! table_name with
  | Some p => (inl p, w)
  | None =>
      if decide (local_path ∈ local_files w)
      then (inl local_path,
            {| file_cache := <[table_name := local_path]> (file_cache w);
               local_files := local_files w;
               s3_log := s3_log w |})
      else
        let log := s3_log w ++ [DownloadFile S3_BUCKET s3_key local_path] in
        match download_file s3 S3_BUCKET s3_key local_path with
        | inl _ =>
            (inl local_path,
             {| file_cache := <[table_name := local_path]> (file_cache w);
                local_files := {[local_path]} ∪ local_files w;
                s3_log := log |})
        | inr e =>
            (inr ("Failed to download " +:+ s3_key +:+ ": " +:+ e),
             {| file_cache := file_cache w;
                local_files := local_files w;
                s3_log := log |})
        end
  end.

(** A series of calls made one after the other, each against what the
    store answers at that time. *)
Fixpoint get_local_parquet_seq (w : world) (calls : list (s3_client * string))
  : list (string + string) * world :=
  match calls with
  | [] => ([], w)
  | (s3, table_name) :: rest =>
      let '(r, w1) := get_local_parquet s3 w table_name in
      let '(rs, w2) := get_local_parquet_seq w1 rest in
      (r :: rs, w2)
  end.

(** *** [get_local_parquet], statement by statement

    The same function cut at its reads and writes of shared state, so that
    calls of several callers can be interleaved.  The function takes no
    lock. *)
Inductive pc :=
| AtCacheLookup          (* if table_name in file_cache *)
| AtExistsCheck          (* if os.path.exists(local_path) *)
| AtRecordExisting       (* file_cache[table_name] = local_path; return *)
| AtDownload             (* s3_client.download_file(...) *)
| AtRecordDownloaded     (* file_cache[table_name] = local_path; return *)
| Returned (r : string + string).

Record caller := { c_table : string; c_pc : pc }.

Definition at_pc (c : caller) (p : pc) : caller :=
  {| c_table := c_table c; c_pc := p |}.

Definition step (s3 : s3_client) (w : world) (c : caller) : caller * world :=
  let table_name := c_table c in
  let s3_key := s3_key_of table_name in
  let local_path := local_path_of table_name in
  match c_pc c with
  | AtCacheLookup =>
      match file_cache w !! table_name with
      | Some p => (at_pc c (Returned (inl p)), w)
      | None => (at_pc c AtExistsCheck, w)
      end
  | AtExistsCheck =>
      if decide (local_path ∈ local_files w)
      then (at_pc c AtRecordExisting, w)
      else (at_pc c AtDownload, w)
  | AtRecordExisting =>
      (at_pc c (Returned (inl local_path)),
       {| file_cache := <[table_name := local_path]> (file_cache w);
          local_files := local_files w;
          s3_log := s3_log w |})
  | AtDownload =>
      let log := s3_log w ++ [DownloadFile S3_BUCKET s3_key local_path] in
      match download_file s3 S3_BUCKET s3_key local_path with
      | inl _ =>
          (at_pc c AtRecordDownloaded,
           {| file_cache := file_cache w;
              local_files := {[local_path]} ∪ local_files w;
              s3_log := log |})
      | inr e =>
          (at_pc c (Returned (inr ("Failed to download " +:+ s3_key +:+ ": " +:+ e))),
           {| file_cache := file_cache w;
              local_files := local_files w;
              s3_log := log |})
      end
  | AtRecordDownloaded =>
      (at_pc c (Returned (inl local_path)),
       {| file_cache := <[table_name := local_path]> (file_cache w);
          local_files := local_files w;
          s3_log := s3_log w |})
  | Returned r => (c, w)
  end.

(** Runs the callers in the order a schedule names them: each entry lets
    the caller of that index take one step. *)
Fixpoint run_schedule (s3 : s3_client) (w : world) (cs : list caller)
    (schedule : list nat) : list caller * world :=
  match schedule with
  | [] => (cs, w)
  | i :: rest =>
      match cs !! i with
      | Some c =>
          let '(c', w') := step s3 w c in
          run_schedule s3 w' (<[i := c']> cs) rest
      | None => run_schedule s3 w cs rest
      end
  end.

(** The number of remote fetches of a key in a log. *)
Definition fetches_of (key : string) (log : list s3_call) : nat :=
  length (List.filter
            (fun c => match c with
                      | DownloadFile _ k _ => String.eqb k key
                      | _ => false
                      end) log).

End Configured.

(** ** Tables

    The handlers treat every column as text: they compare with quoted
    literals and cast before they add.  A row keeps a text column as
    [option string] ([None] is NULL).  A column that is only ever read
    through CAST keeps the number the cast yields; a coordinate, which is
    also compared with the empty string, is either blank or a number. *)

Inductive numtext :=
| Blank
| Num (q : Q).

(** RLPS_GHG_EMITTER_FACILITIES *)
Record fac_row := {
  facility_id : option string;
  facility_name : option string;
  address1 : option string;
  address2 : option string;
  city : option string;
  state : option string;
  county : option string;
  zip_code : option string;
  latitude : option numtext;
  longitude : option numtext;
  parent_company : option string;
  year : option string
}.

(** RLPS_GHG_EMITTER_SECTOR *)
Record sec_row := {
  sec_facility_id : option string;
  sec_year : option string;
  sector_name : option string;
  sector_type : option string;
  gas_name : option string;
  co2e_emission : option Q
}.

(** PUB_DIM_SECTOR *)
Record dim_row := {
  sector_id : option Z;
  dim_sector_name : option string
}.

(** RLPS_FAC_YEAR_AGG *)
Record agg_row := {
  pgm_sys_id : option string;
  agg_year : option string;
  total_emission : option Q
}.

(** The contents of the local Parquet files. *)
Record database := {
  FACILITIES : list fac_row;
  SECTOR : list sec_row;
  DIM_SECTOR : list dim_row;
  FAC_YEAR_AGG : list agg_row
}.

Inductive table := T_FACILITIES | T_SECTOR | T_DIM_SECTOR | T_FAC_YEAR_AGG.

(** Columns, named by the alias the queries give their table: [f] the
    facilities, [s] (or [e]) the sector facts, [d] the sector dimension,
    [a] the yearly aggregate. *)
Inductive column :=
| F_facility_id | F_facility_name | F_address1 | F_address2 | F_city
| F_state | F_county | F_zip | F_latitude | F_longitude | F_parent_company
| F_year
| S_facility_id | S_year | S_sector_name | S_sector_type | S_gas_name
| S_co2e_emission
| D_sector_id | D_sector_name
| A_pgm_sys_id | A_year | A_total_emission.

#[global] Instance column_eq_dec : EqDecision column.
Proof. solve_decision. Defined.

(** ** The SQL fragment *)

Inductive expr :=
| Col (c : column)
| Lit (s : string)                (* 'text' *)
| LitInt (n : Z)
| CastDouble (e : expr)           (* CAST(e AS DOUBLE) *)
| CastInteger (e : expr)          (* CAST(e AS INTEGER) *)
| Coalesce (e d : expr)
| Sum (e : expr)
| CountDistinct (e : expr)
| Max (e : expr).

Inductive pred :=
| PEq (a b : expr)
| PNe (a b : expr)
| PGt (a b : expr)
| PIsNotNull (a : expr)
| PTrue.                          (* 1=1 *)

Inductive join_kind := LeftJoin | InnerJoin.

Record join := {
  j_kind : join_kind;
  j_table : table;
  j_on : list pred                (* conjuncts *)
}.

Record order_item := { o_expr : expr; o_desc : bool }.

(** One query.  [where_] and [having] are lists of conjuncts;
    [group_by = None] is a query without GROUP BY. *)
Record plan := {
  distinct : bool;
  select : list expr;
  from : table;
  joins : list join;
  where_ : list pred;
  group_by : option (list expr);
  having : list pred;
  order_by : list order_item;
  limit : option Z;
  offset : option Z
}.

(** ** The engine *)

(** A row of the join: one slot per table, empty where a LEFT JOIN found
    no partner (its columns then read NULL). *)
Record env := {
  ef : option fac_row;
  es : option sec_row;
  ed : option dim_row;
  ea : option agg_row
}.

Definition empty_env : env := {| ef := None; es := None; ed := None; ea := None |}.

Definition txt (o : option string) : sqlval :=
  match o with Some s => VStr s | None => VNull end.

(** A coordinate column holds text.  The text of a number is kept by the
    number it reads as, so that the cast of the column is that number; a
    tuple that returns the column uncast carries this text, which the
    handlers test for emptiness as text (see [coordinate_or_none]). *)
Definition coord (o : option numtext) : sqlval :=
  match o with
  | Some Blank => VStr ""
  | Some (Num q) => VDbl q
  | None => VNull
  end.

Definition dbl (o : option Q) : sqlval :=
  match o with Some q => VDbl q | None => VNull end.

Definition int (o : option Z) : sqlval :=
  match o with Some n => VInt n | None => VNull end.

Definition of_slot {A} (o : option A) (f : A -> sqlval) : sqlval :=
  match o with Some r => f r | None => VNull end.

Definition col_val (r : env) (c : column) : sqlval :=
  match c with
  | F_facility_id => of_slot (ef r) (fun x => txt (facility_id x))
  | F_facility_name => of_slot (ef r) (fun x => txt (facility_name x))
  | F_address1 => of_slot (ef r) (fun x => txt (address1 x))
  | F_address2 => of_slot (ef r) (fun x => txt (address2 x))
  | F_city => of_slot (ef r) (fun x => txt (city x))
  | F_state => of_slot (ef r) (fun x => txt (state x))
  | F_county => of_slot (ef r) (fun x => txt (county x))
  | F_zip => of_slot (ef r) (fun x => txt (zip_code x))
  | F_latitude => of_slot (ef r) (fun x => coord (latitude x))
  | F_longitude => of_slot (ef r) (fun x => coord (longitude x))
  | F_parent_company => of_slot (ef r) (fun x => txt (parent_company x))
  | F_year => of_slot (ef r) (fun x => txt (year x))
  | S_facility_id => of_slot (es r) (fun x => txt (sec_facility_id x))
  | S_year => of_slot (es r) (fun x => txt (sec_year x))
  | S_sector_name => of_slot (es r) (fun x => txt (sector_name x))
  | S_sector_type => of_slot (es r) (fun x => txt (sector_type x))
  | S_gas_name => of_slot (es r) (fun x => txt (gas_name x))
  | S_co2e_emission => of_slot (es r) (fun x => dbl (co2e_emission x))
  | D_sector_id => of_slot (ed r) (fun x => int (sector_id x))
  | D_sector_name => of_slot (ed r) (fun x => txt (dim_sector_name x))
  | A_pgm_sys_id => of_slot (ea r) (fun x => txt (pgm_sys_id x))
  | A_year => of_slot (ea r) (fun x => txt (agg_year x))
  | A_total_emission => of_slot (ea r) (fun x => dbl (total_emission x))
  end.

(** The rows of a table, each put into its slot of [r]. *)
Definition table_rows (db : database) (t : table) (r : env) : list env :=
  match t with
  | T_FACILITIES =>
      List.map (fun x => {| ef := Some x; es := es r; ed := ed r; ea := ea r |})
               (FACILITIES db)
  | T_SECTOR =>
      List.map (fun x => {| ef := ef r; es := Some x; ed := ed r; ea := ea r |})
               (SECTOR db)
  | T_DIM_SECTOR =>
      List.map (fun x => {| ef := ef r; es := es r; ed := Some x; ea := ea r |})
               (DIM_SECTOR db)
  | T_FAC_YEAR_AGG =>
      List.map (fun x => {| ef := ef r; es := es r; ed := ed r; ea := Some x |})
               (FAC_YEAR_AGG db)
  end.

Definition as_Q (v : sqlval) : option Q :=
  match v with
  | VDbl q => Some q
  | VInt n => Some (inject_Z n)
  | _ => None
  end.

(** Equality of two values, neither of them NULL.  A number is never equal
    to a text. *)
Definition val_eqb (a b : sqlval) : bool :=
  match a, b with
  | VStr x, VStr y => String.eqb x y
  | VInt x, VInt y => Z.eqb x y
  | VDbl x, VDbl y => Qeq_bool x y
  | VInt x, VDbl y => Qeq_bool (inject_Z x) y
  | VDbl x, VInt y => Qeq_bool x (inject_Z y)
  | VNull, VNull => true
  | _, _ => false
  end.

Definition is_null (v : sqlval) : bool :=
  match v with VNull => true | _ => false end.

(** Comparisons are three-valued: [None] is NULL. *)
Definition sql_eq (a b : sqlval) : option bool :=
  if is_null a || is_null b then None else Some (val_eqb a b).

Definition sql_gt (a b : sqlval) : option bool :=
  match as_Q a, as_Q b with
  | Some x, Some y => Some (negb (Qle_bool x y))
  | _, _ => None
  end.

(** [CAST(v AS DOUBLE)] of NULL or of the text of a number.  The engine
    raises on any other text; the only one a table of this model holds
    under a cast is the blank coordinate, which reads NULL here, and the
    properties of a query that casts a coordinate it has not tested
    assume the table holds no blank one ([no_blank_coordinates]). *)
Definition cast_double (v : sqlval) : sqlval :=
  match as_Q v with Some q => VDbl q | None => VNull end.

(** [CAST(v AS INTEGER)] of NULL or of a number within the 32 bits of the
    engine's INTEGER ([in_int32]); past them the engine raises, and the
    properties of the queries that cast the sector ids assume the ids
    within them ([int32_ids]). *)
Definition cast_integer (v : sqlval) : sqlval :=
  match v with
  | VInt n => VInt n
  | VDbl q => VInt (py_round q)
  | _ => VNull
  end.

(** SUM skips NULLs and is NULL when nothing is left.  The sum is the
    exact one; the engine adds doubles, and the properties stated of a
    sum are those that do not depend on the rounding of the additions. *)
Definition sql_sum (vs : list sqlval) : sqlval :=
  match omap as_Q vs with
  | [] => VNull
  | q :: qs => VDbl (fold_left Qplus qs q)
  end.

Fixpoint dedupe (vs : list sqlval) : list sqlval :=
  match vs with
  | [] => []
  | v :: vs' => v :: List.filter (fun w => negb (val_eqb v w)) (dedupe vs')
  end.

Definition sql_count_distinct (vs : list sqlval) : sqlval :=
  VInt (Z.of_nat (length (dedupe (List.filter (fun v => negb (is_null v)) vs)))).

Definition sql_max (vs : list sqlval) : sqlval :=
  match omap (fun v => match v with VInt n => Some n | _ => None end) vs with
  | [] => VNull
  | n :: ns => VInt (fold_left Z.max ns n)
  end.

(** The value of an expression on a group of joined rows.  A plain column
    reads the first row of the group; a query without GROUP BY evaluates on
    groups of one row. *)
Fixpoint eval (g : list env) (e : expr) : sqlval :=
  match e with
  | Col c => match g with r :: _ => col_val r c | [] => VNull end
  | Lit s => VStr s
  | LitInt n => VInt n
  | CastDouble e' => cast_double (eval g e')
  | CastInteger e' => cast_integer (eval g e')
  | Coalesce e' d => if is_null (eval g e') then eval g d else eval g e'
  | Sum e' => sql_sum (List.map (fun r => eval [r] e') g)
  | CountDistinct e' => sql_count_distinct (List.map (fun r => eval [r] e') g)
  | Max e' => sql_max (List.map (fun r => eval [r] e') g)
  end.

Definition eval_pred (g : list env) (p : pred) : option bool :=
  match p with
  | PEq a b => sql_eq (eval g a) (eval g b)
  | PNe a b => negb <$> sql_eq (eval g a) (eval g b)
  | PGt a b => sql_gt (eval g a) (eval g b)
  | PIsNotNull a => Some (negb (is_null (eval g a)))
  | PTrue => Some true
  end.

(** A conjunction keeps a row when every conjunct is true (not NULL). *)
Definition holds (g : list env) (p : pred) : bool :=
  match eval_pred g p with Some true => true | _ => false end.

Definition all_hold (ps : list pred) (g : list env) : bool :=
  forallb (holds g) ps.

Definition apply_join (db : database) (rows : list env) (j : join) : list env :=
  flat_map
    (fun r =>
       match List.filter (fun r' => all_hold (j_on j) [r'])
                         (table_rows db (j_table j) r) with
       | [] => match j_kind j with LeftJoin => [r] | InnerJoin => [] end
       | ms => ms
       end)
    rows.

Definition keys_eqb (k1 k2 : list sqlval) : bool :=
  Nat.eqb (length k1) (length k2)
  && forallb (fun p => val_eqb (fst p) (snd p)) (combine k1 k2).

Fixpoint group_insert (k : list sqlval) (r : env)
    (gs : list (list sqlval * list env)) : list (list sqlval * list env) :=
  match gs with
  | [] => [(k, [r])]
  | (k', g) :: gs' =>
      if keys_eqb k' k then (k', g ++ [r]) :: gs'
      else (k', g) :: group_insert k r gs'
  end.

(** GROUP BY: rows with equal keys (NULL equal to NULL), groups in the
    order of their first row. *)
Definition group_rows (keys : list expr) (rows : list env) : list (list env) :=
  List.map snd
    (fold_left (fun gs r => group_insert (List.map (eval [r]) keys) r gs) rows []).

(** Order of two values that are not NULL: numbers by value, text by
    code point, a number before a text. *)
Definition val_leb (a b : sqlval) : bool :=
  match a, b with
  | VStr x, VStr y => String.leb x y
  | VStr _, _ => false
  | _, VStr _ => true
  | _, _ =>
      match as_Q a, as_Q b with
      | Some x, Some y => Qle_bool x y
      | _, _ => true
      end
  end.

(** Order of two key values under ASC or DESC, NULLs last either way. *)
Definition key_leb (desc : bool) (a b : sqlval) : bool :=
  match a, b with
  | _, VNull => true
  | VNull, _ => false
  | _, _ => if desc then val_leb b a else val_leb a b
  end.

(** [order_leb items g1 g2]: [g1] may stand before [g2]. *)
Fixpoint order_leb (items : list order_item) (g1 g2 : list env) : bool :=
  match items with
  | [] => true
  | i :: rest =>
      let a := eval g1 (o_expr i) in
      let b := eval g2 (o_expr i) in
      if negb (key_leb (o_desc i) b a) then true
      else if negb (key_leb (o_desc i) a b) then false
      else order_leb rest g1 g2
  end.

Fixpoint insert_by {A} (leb : A -> A -> bool) (x : A) (l : list A) : list A :=
  match l with
  | [] => [x]
  | y :: l' => if leb x y then x :: l else y :: insert_by leb x l'
  end.

Definition sort_by {A} (leb : A -> A -> bool) (l : list A) : list A :=
  fold_right (insert_by leb) [] l.

Fixpoint dedupe_rows (rows : list (list sqlval)) : list (list sqlval) :=
  match rows with
  | [] => []
  | r :: rs => r :: List.filter (fun r' => negb (keys_eqb r r')) (dedupe_rows rs)
  end.

Definition joined (db : database) (p : plan) : list env :=
  fold_left (apply_join db) (joins p) (table_rows db (from p) empty_env).

Definition filtered (db : database) (p : plan) : list env :=
  List.filter (fun r => all_hold (where_ p) [r]) (joined db p).

Definition grouped (db : database) (p : plan) : list (list env) :=
  match group_by p with
  | None => List.map (fun r => [r]) (filtered db p)
  | Some keys => group_rows keys (filtered db p)
  end.

Definition ordered (db : database) (p : plan) : list (list env) :=
  sort_by (order_leb (order_by p))
          (List.filter (all_hold (having p)) (grouped db p)).

Definition projected (db : database) (p : plan) : list (list sqlval) :=
  let rows := List.map (fun g => List.map (eval g) (select p)) (ordered db p) in
  if distinct p then dedupe_rows rows else rows.

(** [db.execute(query).fetchall()]; [None] when the engine raises, which
    a plan makes it do by a negative LIMIT or OFFSET.  (The engine also
    raises on a text that is no query and on a cast that fails: see
    [well_quoted], [cast_double] and [cast_integer] for the plans and
    tables this leaves out.)  Rows that the ORDER BY leaves tied come in
    the order of the scan here; the engine promises no order among them,
    and the properties of an order are stated of the keys only. *)
Definition execute (db : database) (p : plan) : option (list (list sqlval)) :=
  let off := default 0 (offset p) in
  if (off <? 0) || (default 0 (limit p) <? 0) then None
  else
    let rows := drop (Z.to_nat off) (projected db p) in
    Some (match limit p with
          | Some n => take (Z.to_nat n) rows
          | None => rows
          end).

(** [db.execute(query).fetchone()] *)
Definition fetchone (db : database) (p : plan) : option (option (list sqlval)) :=
  head <$> execute db p.

(** ** The requests *)

(** [body.get(key, dflt)] on the decoded JSON body. *)
Definition body_get (body : gmap string pyval) (key : string) (dflt : pyval) : pyval :=
  default dflt (body !! key).

Definition reportingYear (body : gmap string pyval) : pyval :=
  body_get body "reportingYear" (PInt 2023).

Definition state_param (body : gmap string pyval) : pyval :=
  body_get body "state" (PStr "US").

Definition dataSource (body : gmap string pyval) : pyval :=
  body_get body "dataSource" (PStr "E").

(** [state and state != 'US'] *)
Definition state_given (st : pyval) : bool :=
  truthy st && negb (pyval_eqb st (PStr "US")).

(** The [state_join] and [state_filter] fragments of the queries over the
    sector facts.  The handlers paste the state, like the other request
    values, into the text of the query between single quotes: the literal
    [Lit (py_str st)] is what that text reads as when the value holds no
    quote ([quote_free]), and the properties of the queries are stated
    for such values ([well_quoted]). *)
Definition facility_join : join :=
  {| j_kind := InnerJoin;
     j_table := T_FACILITIES;
     j_on := [PEq (Col S_facility_id) (Col F_facility_id);
              PEq (Col S_year) (Col F_year)] |}.

Definition state_join (st : pyval) : list join :=
  if state_given st then [facility_join] else [].

Definition state_filter (st : pyval) : list pred :=
  if state_given st then [PEq (Col F_state) (Lit (py_str st))] else [].

Definition not_biogenic : pred := PNe (Col S_gas_name) (Lit "Biogenic CO2").

Definition total_emissions : expr := Sum (CastDouble (Col S_co2e_emission)).

Definition has_coordinates : list pred :=
  [PIsNotNull (Col F_latitude); PIsNotNull (Col F_longitude);
   PNe (Col F_latitude) (Lit ""); PNe (Col F_longitude) (Lit "")].

Definition dim_join : join :=
  {| j_kind := LeftJoin;
     j_table := T_DIM_SECTOR;
     j_on := [PEq (Col S_sector_name) (Col D_sector_name)] |}.

(** *** The query of each handler *)

Definition plan_map_markers (reporting_year st : pyval) : plan :=
  {| distinct := true;
     select := [Col F_facility_id; CastDouble (Col F_latitude);
                CastDouble (Col F_longitude)];
     from := T_FACILITIES;
     joins := [];
     where_ := PEq (Col F_year) (Lit (py_str reporting_year))
               :: has_coordinates ++ state_filter st;
     group_by := None;
     having := [];
     order_by := [];
     limit := None;
     offset := None |}.

Definition plan_map_overlay (reporting_year st data_source : pyval) : plan :=
  {| distinct := false;
     select := [Col F_facility_id; CastDouble (Col F_latitude);
                CastDouble (Col F_longitude); total_emissions];
     from := T_FACILITIES;
     joins := [ {| j_kind := LeftJoin;
                   j_table := T_SECTOR;
                   j_on := [PEq (Col F_facility_id) (Col S_facility_id);
                            PEq (Col F_year) (Col S_year)] |} ];
     where_ := PEq (Col F_year) (Lit (py_str reporting_year))
               :: has_coordinates
               ++ [PEq (Col S_sector_type) (Lit (py_str data_source));
                   not_biogenic]
               ++ state_filter st;
     group_by := Some [Col F_facility_id; Col F_latitude; Col F_longitude];
     having := [];
     order_by := [];
     limit := None;
     offset := None |}.

(** Shared by sector totals and the bar chart, which run the same text. *)
Definition plan_sectors_total_emissions (reporting_year st : pyval) : plan :=
  {| distinct := false;
     select := [Col S_sector_name; total_emissions;
                CountDistinct (Col S_facility_id);
                Max (CastInteger (Col D_sector_id))];
     from := T_SECTOR;
     joins := dim_join :: state_join st;
     where_ := [PEq (Col S_year) (Lit (py_str reporting_year));
                PEq (Col S_sector_type) (Lit "E");
                not_biogenic]
               ++ state_filter st;
     group_by := Some [Col S_sector_name];
     having := [];
     order_by := [ {| o_expr := total_emissions; o_desc := true |} ];
     limit := None;
     offset := None |}.

Definition plan_bar_sector (reporting_year st : pyval) : plan :=
  plan_sectors_total_emissions reporting_year st.

(** The list-sectors query reads no state. *)
Definition plan_list_sectors (reporting_year : pyval) : plan :=
  {| distinct := false;
     select := [Col S_sector_name; total_emissions;
                CountDistinct (Col S_facility_id);
                Max (CastInteger (Col D_sector_id))];
     from := T_SECTOR;
     joins := [dim_join];
     where_ := [PEq (Col S_year) (Lit (py_str reporting_year));
                PEq (Col S_sector_type) (Lit "E");
                not_biogenic];
     group_by := Some [Col S_sector_name];
     having := [];
     order_by := [ {| o_expr := total_emissions; o_desc := true |} ];
     limit := None;
     offset := None |}.

Definition page_size : Z := 100.

(** The reporting year is pasted between quotes, the offset as the
    integer it is; the engine takes an offset within its BIGINT
    ([in_int64]). *)
Definition plan_list_facilities (reporting_year : pyval) (page : Z) : plan :=
  {| distinct := false;
     select := [Col F_facility_id; Col F_facility_name; Col F_city; Col F_state;
                Col F_county; CastDouble (Col F_latitude);
                CastDouble (Col F_longitude);
                Coalesce (CastDouble (Col A_total_emission)) (LitInt 0)];
     from := T_FACILITIES;
     joins := [ {| j_kind := LeftJoin;
                   j_table := T_FAC_YEAR_AGG;
                   j_on := [PEq (Col F_facility_id) (Col A_pgm_sys_id);
                            PEq (Col F_year) (Col A_year)] |} ];
     where_ := [PEq (Col F_year) (Lit (py_str reporting_year))];
     group_by := None;
     having := [];
     order_by := [ {| o_expr := Coalesce (CastDouble (Col A_total_emission)) (LitInt 0);
                     o_desc := true |} ];
     limit := Some page_size;
     offset := Some ((page - 1) * page_size) |}.

(** The lookup of a sector name by id, in the trend handler. *)
Definition plan_sector_lookup (sector_id_int : Z) : plan :=
  {| distinct := false;
     select := [Col D_sector_name];
     from := T_DIM_SECTOR;
     joins := [];
     where_ := [PEq (CastInteger (Col D_sector_id)) (LitInt sector_id_int)];
     group_by := None;
     having := [];
     order_by := [];
     limit := Some 1;
     offset := None |}.

(** [sector_filter]: present when the name is a non-empty string, which
    is pasted between quotes like the request values. *)
Definition sector_filter (sector_name : option string) : list pred :=
  match sector_name with
  | Some n => [PEq (Col S_sector_name) (Lit n)]
  | None => []
  end.

Definition plan_sector_trend (st : pyval) (sector_name : option string) : plan :=
  {| distinct := false;
     select := [Col S_year; total_emissions];
     from := T_SECTOR;
     joins := state_join st;
     where_ := [PEq (Col S_sector_type) (Lit "E"); not_biogenic]
               ++ state_filter st ++ sector_filter sector_name;
     group_by := Some [Col S_year];
     having := [];
     order_by := [ {| o_expr := Col S_year; o_desc := false |} ];
     limit := None;
     offset := None |}.

(** [level in ['2', '3'] and sector1] *)
Definition pie_sector (level : option string) (sector1 : pyval) : option string :=
  match level with
  | Some l =>
      if (String.eqb l "2" || String.eqb l "3") && truthy sector1
      then Some (py_str sector1) else None
  | None => None
  end.

Definition plan_pie_sectors_emissions (reporting_year st : pyval)
    (level : option string) (sector1 : pyval) : plan :=
  {| distinct := false;
     select := [Col S_sector_name; total_emissions;
                Max (CastInteger (Col D_sector_id))];
     from := T_SECTOR;
     joins := dim_join :: state_join st;
     where_ := [PEq (Col S_year) (Lit (py_str reporting_year));
                PEq (Col S_sector_type) (Lit "E");
                not_biogenic]
               ++ state_filter st ++ sector_filter (pie_sector level sector1);
     group_by := Some [Col S_sector_name];
     having := [];
     order_by := [ {| o_expr := total_emissions; o_desc := true |} ];
     limit := None;
     offset := None |}.

Definition export_columns : list expr :=
  [Col F_facility_id; Col F_facility_name; Col F_city; Col F_state;
   Col F_county; Col F_zip; Col F_address1; Col F_latitude; Col F_longitude;
   Col F_parent_company].

Definition export_total : expr := Coalesce total_emissions (LitInt 0).

(** The LEFT JOIN of the exports; the data source is pasted between
    quotes into its ON condition. *)
Definition export_join (data_source : pyval) : join :=
  {| j_kind := LeftJoin;
     j_table := T_SECTOR;
     j_on := [PEq (Col F_facility_id) (Col S_facility_id);
              PEq (Col F_year) (Col S_year);
              PEq (Col S_sector_type) (Lit (py_str data_source));
              not_biogenic] |}.

Definition export_row_cap : Z := 25000.

Definition plan_export_all_years (st data_source : pyval) : plan :=
  {| distinct := false;
     select := Col F_year :: export_columns ++ [export_total];
     from := T_FACILITIES;
     joins := [export_join data_source];
     where_ := PTrue :: state_filter st;
     group_by := Some (Col F_year :: export_columns);
     having := [PGt export_total (LitInt 0)];
     order_by := [ {| o_expr := Col F_year; o_desc := true |};
                   {| o_expr := export_total; o_desc := true |} ];
     limit := Some export_row_cap;
     offset := None |}.

Definition plan_export_single_year (reporting_year st data_source : pyval) : plan :=
  {| distinct := false;
     select := export_columns ++ [export_total];
     from := T_FACILITIES;
     joins := [export_join data_source];
     where_ := PEq (Col F_year) (Lit (py_str reporting_year)) :: state_filter st;
     group_by := Some export_columns;
     having := [];
     order_by := [ {| o_expr := export_total; o_desc := true |} ];
     limit := None;
     offset := None |}.

Definition hover_columns : list expr :=
  [Col F_facility_id; Col F_facility_name; Col F_address1; Col F_address2;
   Col F_city; Col F_state; Col F_county; Col F_zip; Col F_latitude;
   Col F_longitude; Col F_parent_company].

(** The three queries of the hover handler paste the facility id and the
    year between quotes. *)
Definition plan_facility_query (facility_id year_ : string) : plan :=
  {| distinct := false;
     select := hover_columns;
     from := T_FACILITIES;
     joins := [];
     where_ := [PEq (Col F_facility_id) (Lit facility_id);
                PEq (Col F_year) (Lit year_)];
     group_by := None;
     having := [];
     order_by := [];
     limit := Some 1;
     offset := None |}.

Definition plan_facility_query_fallback (facility_id : string) : plan :=
  {| distinct := false;
     select := hover_columns;
     from := T_FACILITIES;
     joins := [];
     where_ := [PEq (Col F_facility_id) (Lit facility_id)];
     group_by := None;
     having := [];
     order_by := [ {| o_expr := Col F_year; o_desc := true |} ];
     limit := Some 1;
     offset := None |}.

Definition plan_emissions_query (facility_id year_ : string) : plan :=
  {| distinct := false;
     select := [Col S_gas_name; total_emissions];
     from := T_SECTOR;
     joins := [];
     where_ := [PEq (Col S_facility_id) (Lit facility_id);
                PEq (Col S_year) (Lit year_)];
     group_by := Some [Col S_gas_name];
     having := [];
     order_by := [ {| o_expr := total_emissions; o_desc := true |} ];
     limit := None;
     offset := None |}.

(** *** Reading the returned tuples *)

(** [if v:] on a cell of a tuple. *)
Definition sql_truthy (v : sqlval) : bool :=
  match v with
  | VNull => false
  | VStr s => negb (String.eqb s "")
  | VInt n => negb (Z.eqb n 0)
  | VDbl q => negb (Qeq_bool q 0)
  end.

(** [int(v)]; [None] stands for the exception. *)
Definition py_int_of (v : sqlval) : option Z :=
  match v with
  | VNull => None
  | VStr s => py_int_str s
  | VInt n => Some n
  | VDbl q => Some (Z.quot (Qnum q) (Zpos (Qden q)))
  end.

(** [float(v)]; [None] stands for the exception.  The only text that
    reaches [float] in the handlers is a coordinate, kept by its number. *)
Definition py_float_of (v : sqlval) : option Q :=
  match v with
  | VDbl q => Some q
  | VInt n => Some (inject_Z n)
  | _ => None
  end.

Definition to_cell (v : sqlval) : cell :=
  match v with
  | VNull => CNone
  | VStr s => CStr s
  | VInt n => CInt n
  | VDbl q => CNum q
  end.

(** [row[i]] *)
Definition at_ (row : list sqlval) (i : nat) : sqlval := nth i row VNull.

(** [round(float(v)) if v else 0] *)
Definition round_or_zero (v : sqlval) : Z :=
  if sql_truthy v
  then match py_float_of v with Some q => py_round q | None => 0 end
  else 0.

(** [round(v / MMT_DIVISOR) if v else 0] *)
Definition mmt_or_zero (v : sqlval) : Z :=
  if sql_truthy v
  then match py_float_of v with Some q => toMMT q | None => 0 end
  else 0.

(** *** [handle_list_facilities] *)




(** *** [handle_export] *)

Definition lower_ascii (c : ascii) : ascii :=
  let n := nat_of_ascii c in
  if Nat.leb 65 n && Nat.leb n 90 then ascii_of_nat (n + 32) else c.

Fixpoint str_lower (s : string) : string :=
  match s with
  | EmptyString => EmptyString
  | String c s' => String (lower_ascii c) (str_lower s')
  end.

(** [query_params.get(key, 'false').lower() == 'true'] *)
Definition query_flag (query_params : gmap string string) (key : string) : bool :=
  String.eqb (str_lower (default "false" (query_params !! key))) "true".

Definition csv_header (all_years : bool) : list cell :=
  (if all_years then [CStr "Year"] else [])
  ++ [CStr "Facility ID"; CStr "Facility Name"; CStr "City"; CStr "State";
      CStr "County"; CStr "ZIP"; CStr "Address"; CStr "Latitude";
      CStr "Longitude"; CStr "Parent Company";
      CStr "Total Emissions (Metric Tons CO2e)"].

(** One data line: the leading columns as they are, then the total
    rounded to a whole metric ton. *)
Definition csv_line (all_years : bool) (row : list sqlval) : list cell :=
  let n := if all_years then 11%nat else 10%nat in
  List.map to_cell (take n row) ++ [CInt (round_or_zero (at_ row n))].

Definition export_plan (all_years : bool) (body : gmap string pyval) : plan :=
  if all_years
  then plan_export_all_years (state_param body) (dataSource body)
  else plan_export_single_year (reportingYear body) (state_param body)
                               (dataSource body).

Definition handle_export (acquired : database + string)
    (body : gmap string pyval) (query_params : gmap string string) : response :=
  let all_years := query_flag query_params "allReportingYears" in
  match acquired with
  | inr e => error_response 500 (StrOf (Exception e))
  | inl db =>
      match execute db (export_plan all_years body) with
      | None => error_response 500 (StrOf EngineError)
      | Some result =>
          let filename :=
            if all_years then "ghg_emissions_all_years.csv"
            else "ghg_emissions_" +:+ py_str (reportingYear body) +:+ ".csv" in
          {| statusCode := 200;
             resp_body :=
               CsvBody filename
                       (csv_header all_years :: List.map (csv_line all_years) result) |}
      end
  end.

(** The data lines of a CSV response (all but the header). *)
Definition data_lines (r : response) : list (list cell) :=
  match resp_body r with
  | CsvBody _ (_ :: lines) => lines
  | _ => []
  end.

(** *** [handle_facility_hover] *)

Definition number_or_none {A} (v : sqlval) (conv : sqlval -> option A)
    (mk : A -> cell) : option cell :=
  if sql_truthy v then mk <$> conv v else Some CNone.

(** [float(v) if v else None] on the cell of a coordinate column that the
    query returns uncast.  The cell is a text: it is false when NULL or
    empty, and every other text is true, the text of zero too, and goes
    to [float], which raises ([None]) on a text that is no number. *)
Definition coordinate_or_none (v : sqlval) : option cell :=
  match v with
  | VNull => Some CNone
  | VStr s => if String.eqb s "" then Some CNone else None
  | VInt n => Some (CNum (inject_Z n))
  | VDbl q => Some (CNum q)
  end.

(** [None] stands for the ValueError of [int] or [float]. *)
Definition shape_facility_dto (r : list sqlval) : option facility_dto :=
  fid ← number_or_none (at_ r 0) py_int_of CInt;
  lat ← coordinate_or_none (at_ r 8);
  lon ← coordinate_or_none (at_ r 9);
  Some {| facilityId := fid;
          facilityName := to_cell (at_ r 1);
          dto_address1 := to_cell (at_ r 2);
          dto_address2 := to_cell (at_ r 3);
          dto_city := to_cell (at_ r 4);
          dto_state := to_cell (at_ r 5);
          dto_county := to_cell (at_ r 6);
          dto_zip := to_cell (at_ r 7);
          dto_latitude := lat;
          dto_longitude := lon;
          parentCompany := to_cell (at_ r 10) |}.

Definition shape_gas_emission (row : list sqlval) : gas_emission :=
  {| ge_type := to_cell (at_ row 0); ge_quantity := round_or_zero (at_ row 1) |}.

(** The facility row the handler settles on: the one of the year asked
    for, else the one of the latest year.  The outer [None] is an engine
    error, the inner one no row. *)
Definition facility_result (db : database) (facility_id year_ : string)
  : option (option (list sqlval)) :=
  match fetchone db (plan_facility_query facility_id year_) with
  | None => None
  | Some (Some row) => Some (Some row)
  | Some None => fetchone db (plan_facility_query_fallback facility_id)
  end.

Definition handle_facility_hover (acquired : database + string)
    (year_ : string) (query_params : gmap string string) : response :=
  match query_params !! "id" with
  | None | Some "" => error_response 400 (Text "Missing facility id")
  | Some facility_id =>
      match acquired with
      | inr e => error_response 500 (StrOf (Exception e))
      | inl db =>
          match facility_result db facility_id year_ with
          | None => error_response 500 (StrOf EngineError)
          | Some None => error_response 404 (Text "Facility not found")
          | Some (Some row) =>
              match execute db (plan_emissions_query facility_id year_) with
              | None => error_response 500 (StrOf EngineError)
              | Some emissions_result =>
                  match shape_facility_dto row with
                  | None => error_response 500 (StrOf ValueError)
                  | Some dto =>
                      ok_response
                        (FacilityHover dto
                           (List.map shape_gas_emission emissions_result))
                  end
              end
          end
      end
  end.

(** *** [handle_sector_trend]: the sector name behind a sector id *)

(** The name the trend query filters on: [Some None] when the id is empty,
    ['0'], not an integer, unknown, or names no non-empty text.  The outer
    [None] is an engine error. *)
Definition trend_sector_name (db : database) (sector_id : string)
  : option (option string) :=
  if negb (String.eqb sector_id "") && negb (String.eqb sector_id "0")
  then
    match py_int_str sector_id with
    | None => Some None
    | Some sector_id_int =>
        match fetchone db (plan_sector_lookup sector_id_int) with
        | None => None
        | Some None => Some None
        | Some (Some sector_result) =>
            Some (match at_ sector_result 0 with
                  | VStr s => if String.eqb s "" then None else Some s
                  | _ => None
                  end)
        end
    end
  else Some None.

(** The rows of the trend query of a request. *)
Definition sector_trend_rows (db : database) (body : gmap string pyval)
    (sector_id : string) : option (list (list sqlval)) :=
  sector_name ← trend_sector_name db sector_id;
  execute db (plan_sector_trend (state_param body) sector_name).

(** ** The operations and their queries *)

Inductive operation :=
| OpMapMarkers
| OpMapOverlay
| OpSectorsTotal
| OpListSectors
| OpListFacilities (page : Z)
| OpSectorTrend (sector_name : option string)
| OpBarSector
| OpPieSectors (level : option string)
| OpExport (all_years : bool)
| OpFacilityHoverEmissions (facility_id year_ : string).

Definition plan_of (op : operation) (body : gmap string pyval) : plan :=
  match op with
  | OpMapMarkers => plan_map_markers (reportingYear body) (state_param body)
  | OpMapOverlay =>
      plan_map_overlay (reportingYear body) (state_param body) (dataSource body)
  | OpSectorsTotal =>
      plan_sectors_total_emissions (reportingYear body) (state_param body)
  | OpListSectors => plan_list_sectors (reportingYear body)
  | OpListFacilities page => plan_list_facilities (reportingYear body) page
  | OpSectorTrend sector_name => plan_sector_trend (state_param body) sector_name
  | OpBarSector => plan_bar_sector (reportingYear body) (state_param body)
  | OpPieSectors level =>
      plan_pie_sectors_emissions (reportingYear body) (state_param body) level
                                 (body_get body "sector1" (PStr ""))
  | OpExport all_years => export_plan all_years body
  | OpFacilityHoverEmissions facility_id year_ =>
      plan_emissions_query facility_id year_
  end.

(** The operations whose handler reads the [state] parameter. *)
Definition reads_state (op : operation) : bool :=
  match op with
  | OpMapMarkers | OpMapOverlay | OpSectorsTotal | OpSectorTrend _
  | OpBarSector | OpPieSectors _ | OpExport _ => true
  | _ => false
  end.

Definition table_eqb (a b : table) : bool :=
  match a, b with
  | T_FACILITIES, T_FACILITIES | T_SECTOR, T_SECTOR
  | T_DIM_SECTOR, T_DIM_SECTOR | T_FAC_YEAR_AGG, T_FAC_YEAR_AGG => true
  | _, _ => false
  end.

(** The joins of a plan against the facility table. *)
Definition facility_joins (p : plan) : list join :=
  List.filter (fun j => table_eqb (j_table j) T_FACILITIES) (joins p).

Fixpoint reads_column (c : column) (e : expr) : bool :=
  match e with
  | Col c' => bool_decide (c = c')
  | Lit _ | LitInt _ => false
  | CastDouble e' | CastInteger e' | Sum e' | CountDistinct e' | Max e' =>
      reads_column c e'
  | Coalesce e' d => reads_column c e' || reads_column c d
  end.

Definition pred_reads (c : column) (p : pred) : bool :=
  match p with
  | PEq a b | PNe a b | PGt a b => reads_column c a || reads_column c b
  | PIsNotNull a => reads_column c a
  | PTrue => false
  end.

(** The predicates of a plan, in WHERE or in a join condition, that read
    the state column. *)
Definition state_filters (p : plan) : list pred :=
  List.filter (pred_reads F_state)
              (where_ p ++ flat_map j_on (joins p) ++ having p).

(** The sector facts without the rows of biogenic CO2. *)
Definition is_biogenic (s : sec_row) : bool :=
  match gas_name s with
  | Some g => String.eqb g "Biogenic CO2"
  | None => false
  end.

Definition without_biogenic (db : database) : database :=
  {| FACILITIES := FACILITIES db;
     SECTOR := List.filter (fun s => negb (is_biogenic s)) (SECTOR db);
     DIM_SECTOR := DIM_SECTOR db;
     FAC_YEAR_AGG := FAC_YEAR_AGG db |}.

(** A joined row whose emission row, if it has one, is not of biogenic
    CO2. *)
Definition free_of_biogenic (r : env) : bool :=
  match es r with
  | Some s => negb (is_biogenic s)
  | None => true
  end.

(** The grouping key of a joined row. *)
Definition key_of (keys : list expr) (r : env) : list sqlval :=
  List.map (eval [r]) keys.

(** What the groups built so far hold, for the rows [seen] so far: every
    row seen is in a group, and a group is a first row, whose key is the
    key of the group, followed by rows seen with an equal key. *)
Definition groups_ok (keys : list expr) (gs : list (list sqlval * list env))
    (seen : env -> Prop) : Prop :=
  (forall r, seen r -> exists k g, In (k, g) gs /\ In r g)
  /\ (forall k g, In (k, g) gs ->
        exists r0 rest, g = r0 :: rest /\ k = key_of keys r0
          /\ forall r, In r g -> seen r /\ keys_eqb k (key_of keys r) = true).

(** ** Rows of the exports *)

(** A facility row on its own, as the LEFT JOIN leaves it when no
    emission row matches. *)
Definition facility_env (f : fac_row) : env :=
  {| ef := Some f; es := None; ed := None; ea := None |}.

(** Whether the export queries join emission row [s] to facility row
    [f]: the ON condition of their LEFT JOIN. *)
Definition export_match (data_source : pyval) (f : fac_row) (s : sec_row) : bool :=
  all_hold (j_on (export_join data_source))
           [ {| ef := Some f; es := Some s; ed := None; ea := None |} ].

(** The tuple the facility queries of the hover handler return for a
    facility row. *)
Definition hover_row (f : fac_row) : list sqlval :=
  key_of hover_columns (facility_env f).

(** ** Orders on returned rows *)

(** Whether row [r1] may stand before row [r2] under an ORDER BY on the
    columns at the given positions, each descending ([true]) or ascending,
    the first position deciding first. *)
Fixpoint rows_ordered (keys : list (nat * bool)) (r1 r2 : list sqlval) : bool :=
  match keys with
  | [] => true
  | (i, desc) :: rest =>
      let a := at_ r1 i in
      let b := at_ r2 i in
      if negb (key_leb desc b a) then true
      else if negb (key_leb desc a b) then false
      else rows_ordered rest r1 r2
  end.


Definition cell_val (c : cell) : sqlval :=
  match c with
  | CNone => VNull
  | CStr s => VStr s
  | CInt n => VInt n
  | CNum q => VDbl q
  end.

(** ** Strings, continued *)

(** [s.split(c)] for a one-character separator. *)
Fixpoint split_on (c : ascii) (s : string) : list string :=
  match s with
  | EmptyString => [EmptyString]
  | String a s' =>
      if Ascii.eqb a c then EmptyString :: split_on c s'
      else match split_on c s' with
           | x :: xs => String a x :: xs
           | [] => [String a EmptyString]
           end
  end.

(** [path.split('/')[-1]] *)
Definition last_segment (path : string) : string :=
  List.last (split_on "/" path) EmptyString.

(** [parts[-2]] of a list with at least two elements. *)
Definition second_last (parts : list string) : string :=
  nth (length parts - 2) parts EmptyString.

(** [s.rstrip('/')] *)
Fixpoint rstrip_slash (s : string) : string :=
  match s with
  | EmptyString => EmptyString
  | String a s' =>
      match rstrip_slash s' with
      | EmptyString => if Ascii.eqb a "/" then EmptyString else String a EmptyString
      | r => String a r
      end
  end.

Definition upper_ascii (c : ascii) : ascii :=
  let n := nat_of_ascii c in
  if Nat.leb 97 n && Nat.leb n 122 then ascii_of_nat (n - 32) else c.

(** [s.upper()] on ASCII text ([ascii_only]); beyond it [upper] follows
    the case mapping of Unicode, which this function does not. *)
Fixpoint str_upper (s : string) : string :=
  match s with
  | EmptyString => EmptyString
  | String c s' => String (upper_ascii c) (str_upper s')
  end.

(** [s in candidates] for a list of strings. *)
Definition str_in (s : string) (candidates : list string) : bool :=
  existsb (String.eqb s) candidates.

(** ** The router of [lambda_function.py] *)

(** The handler [lambda_handler] hands the event to, with the path
    parameters it extracts. *)
Inductive route :=
| Preflight                                   (* cors_response(204, '') *)
| ToVersion
| ToMapMarkers
| ToSectorsTotal
| ToListSectors
| ToListFacilities
| ToBarSector (level : option string)
| ToPieSectors (level : option string) (subsector : option bool)
| ToMapOverlay
| ToStateBounds (state_code : string)
| ToStateCounties (state_code : string)
| ToBasinGeo
| ToFacilityHover (year_ : string)
| ToSectorTrend (sector_id level : string)
| ToExport
| ToDataFiles
| ToDataDownload (filename : string)
| RouteNotFound (method path : string).        (* 404, 'Route not found: ...' *)

(** The [ROUTES] dictionary. *)
Definition ROUTES : list (string * string * route) :=
  [ ("GET", "/api/version", ToVersion);
    ("GET", "/ghgp/api/version", ToVersion);
    ("POST", "/api/facilities/map-markers", ToMapMarkers);
    ("POST", "/ghgp/api/facilities/map-markers", ToMapMarkers);
    ("POST", "/api/sectors/total/emissions", ToSectorsTotal);
    ("POST", "/ghgp/api/sectors/total/emissions", ToSectorsTotal);
    ("POST", "/api/list/sectors", ToListSectors);
    ("POST", "/ghgp/api/list/sectors", ToListSectors);
    ("POST", "/api/list/facilities", ToListFacilities);
    ("POST", "/ghgp/api/list/facilities", ToListFacilities);
    ("POST", "/api/bar/sector", ToBarSector None);
    ("POST", "/ghgp/api/bar/sector", ToBarSector None);
    ("POST", "/api/pie/sectors/emissions", ToPieSectors None None);
    ("POST", "/ghgp/api/pie/sectors/emissions", ToPieSectors None None);
    ("POST", "/api/map/overlay", ToMapOverlay);
    ("POST", "/ghgp/api/map/overlay", ToMapOverlay) ].

(** [ROUTES.get((method, path))] *)
Definition routes_get (method path : string) : option route :=
  snd <$> List.find (fun e => String.eqb (fst (fst e)) method
                              && String.eqb (snd (fst e)) path) ROUTES.

(** The method and path of an event: of [requestContext.http] for a
    Function URL event, of [httpMethod] and [path] otherwise. *)
Record raw_event := {
  rc_http : option (gmap string string);
  ev_httpMethod : option string;
  ev_path : option string
}.

Definition event_method_path (e : raw_event) : string * string :=
  match rc_http e with
  | Some http => (default "GET" (http !! "method"), default "/" (http !! "path"))
  | None => (default "GET" (ev_httpMethod e), default "/" (ev_path e))
  end.

(** [lambda_handler], up to the call of the handler it picks. *)
Definition route_of (method path : string) : route :=
  if String.eqb method "OPTIONS" then Preflight
  else
    match routes_get method path with
    | Some r => r
    | None =>
        if str_contains "/api/state/bounds/" path
           || str_contains "/ghgp/api/state/bounds/" path
        then ToStateBounds (last_segment path)
        else if str_contains "/api/state/counties/" path
                || str_contains "/ghgp/api/state/counties/" path
        then ToStateCounties (last_segment path)
        else if str_in path ["/api/basin/geo"; "/ghgp/api/basin/geo"]
        then ToBasinGeo
        else if str_contains "/api/facility/hover/" path
                || str_contains "/ghgp/api/facility/hover/" path
        then ToFacilityHover (last_segment path)
        else if str_contains "/api/sector/trend/" path
                || str_contains "/ghgp/api/sector/trend/" path
        then
          let parts := split_on "/" (rstrip_slash path) in
          let level :=
            if Nat.ltb 1 (length parts) then List.last parts EmptyString else "1" in
          let sector_id :=
            if Nat.ltb 2 (length parts) then second_last parts else "0" in
          ToSectorTrend sector_id level
        else if str_in path ["/api/bar/sector/level2"; "/ghgp/api/bar/sector/level2"]
        then ToBarSector (Some "2")
        else if str_contains "/api/pie/level2/sector/emissions" path
                || str_contains "/ghgp/api/pie/level2/sector/emissions" path
        then ToPieSectors (Some "2") None
        else if str_contains "/api/pie/level3/subsector/emissions" path
                || str_contains "/ghgp/api/pie/level3/subsector/emissions" path
        then ToPieSectors (Some "3") (Some true)
        else if String.prefix "/api/export" path
                || String.prefix "/ghgp/api/export" path
        then ToExport
        else if str_in path ["/api/data/files"; "/ghgp/api/data/files"]
        then ToDataFiles
        else if str_contains "/api/data/download/" path
                || str_contains "/ghgp/api/data/download/" path
        then ToDataDownload (last_segment path)
        else RouteNotFound method path
    end.

Definition lambda_handler_route (e : raw_event) : route :=
  let '(method, path) := event_method_path e in route_of method path.

(** ** The router of [handler.py] *)

Inductive local_route :=
| LocalPreflight
| LocalVersion
| LocalMapMarkers
| LocalSectorsTotal
| LocalListSectors
| LocalListFacilities
| LocalStateBounds (state_code : string)
| LocalNotFound (method path : string).

Definition LOCAL_ROUTES : list (string * string * local_route) :=
  [ ("GET", "/api/version", LocalVersion);
    ("POST", "/api/facilities/map-markers", LocalMapMarkers);
    ("POST", "/api/sectors/total/emissions", LocalSectorsTotal);
    ("POST", "/api/list/sectors", LocalListSectors);
    ("POST", "/api/list/facilities", LocalListFacilities) ].

(** [path[5:]] *)
Definition drop5 (path : string) : string :=
  substring 5 (String.length path - 5) path.

(** [lambda_handler] of [handler.py], on [event['httpMethod']] and
    [event['path']] as they are before the defaults apply. *)
Definition local_route_of (httpMethod path_ : option string) : local_route :=
  if bool_decide (httpMethod = Some "OPTIONS") then LocalPreflight
  else
    let method := default "GET" httpMethod in
    let path := default "" path_ in
    let path := if String.prefix "/ghgp" path then drop5 path else path in
    match snd <$> List.find (fun e => String.eqb (fst (fst e)) method
                                      && String.eqb (snd (fst e)) path)
                            LOCAL_ROUTES with
    | Some r => r
    | None =>
        if String.prefix "/api/state/bounds/" path
        then LocalStateBounds (last_segment path)
        else LocalNotFound method path
    end.


(** ** The cache, continued *)

(** What the handlers rely on when they hand a cached path to the engine:
    an entry of [file_cache] holds the local path of its table, and a file
    exists there. *)
Definition cache_sound (w : world) : Prop :=
  forall name p, file_cache w !! name = Some p ->
    p = local_path_of name /\ p ∈ local_files w.

(** ** Returned rows, continued *)

(** No two elements of a list, an earlier and a later one, are related. *)
Fixpoint pairwise {A} (R : A -> A -> Prop) (l : list A) : Prop :=
  match l with
  | [] => True
  | x :: l' => Forall (R x) l' /\ pairwise R l'
  end.

(** The operations whose query groups its rows by the one column it
    selects first. *)
Definition grouped_on_first_column (op : operation) : bool :=
  match op with
  | OpSectorsTotal | OpListSectors | OpSectorTrend _ | OpBarSector
  | OpPieSectors _ | OpFacilityHoverEmissions _ _ => true
  | _ => false
  end.

(** What a caller in the middle of [get_local_parquet] relies on: past the
    check or the download, the file is there; a returned path is the local
    path of the caller's table, with a file at it. *)
Definition caller_sound (w : world) (c : caller) : Prop :=
  match c_pc c with
  | AtRecordExisting | AtRecordDownloaded => local_path_of (c_table c) ∈ local_files w
  | Returned (inl p) => p = local_path_of (c_table c) /\ p ∈ local_files w
  | _ => True
  end.

(** ** JSON *)

(** A value as [json.load] yields it and [json.dumps] takes it.  The
    members of an object are those of the Python dictionary, in its order;
    their keys are distinct. *)
#[local] Unset Elimination Schemes.
Inductive json :=
| JNull
| JBool (b : bool)
| JInt (n : Z)
| JNum (q : Q)
| JStr (s : string)
| JArr (items : list json)
| JObj (members : list (string * json)).
#[local] Set Elimination Schemes.

Definition json_of_pyval (v : pyval) : json :=
  match v with
  | PNone => JNull
  | PBool b => JBool b
  | PInt n => JInt n
  | PStr s => JStr s
  end.

Definition json_of_sqlval (v : sqlval) : json :=
  match v with
  | VNull => JNull
  | VStr s => JStr s
  | VInt n => JInt n
  | VDbl q => JNum q
  end.

(** [d.get(key)] on the members of an object. *)
Definition member (key : string) (members : list (string * json)) : option json :=
  snd <$> List.find (fun m => String.eqb (fst m) key) members.

(** [key in data]; [None] stands for the TypeError of a value that is not
    a container. *)
Definition py_in (key : string) (data : json) : option bool :=
  match data with
  | JObj members => Some (existsb (fun m => String.eqb (fst m) key) members)
  | JArr items =>
      Some (existsb (fun x => match x with
                              | JStr s => String.eqb s key
                              | _ => false
                              end) items)
  | JStr s => Some (str_contains key s)
  | _ => None
  end.

(** [data[key]] for a string [key]: the member of an object, the KeyError
    (whose text is the key in quotes) when it has none, the TypeError on
    anything else. *)
Definition py_item (data : json) (key : string) : json + exn :=
  match data with
  | JObj members =>
      match member key members with
      | Some v => inl v
      | None => inr (Exception ("'" +:+ key +:+ "'"))
      end
  | _ => inr TypeError
  end.

(** ** Replies *)

(** What [cors_response] is given: the status, the ['result'] member of
    the body when it has one, and its ['messages'], each the pieces of its
    text and its type. *)
Record reply := {
  reply_status : Z;
  reply_result : option json;
  reply_messages : list (list msgtext * Z)
}.

(** [cors_response(200, {'result': r, 'messages': []})] *)
Definition cors_result (r : json) : reply :=
  {| reply_status := 200; reply_result := Some r; reply_messages := [] |}.

(** [cors_response(status, {'messages': [{'text': t, 'type': status}]})] *)
Definition cors_error (status : Z) (t : list msgtext) : reply :=
  {| reply_status := status; reply_result := None; reply_messages := [(t, status)] |}.

(** The elements a comprehension builds, up to the first that raises. *)
Fixpoint collect {A} (f : A -> json + exn) (l : list A) : list json + exn :=
  match l with
  | [] => inl []
  | x :: l' =>
      match f x with
      | inr e => inr e
      | inl y =>
          match collect f l' with
          | inr e => inr e
          | inl ys => inl (y :: ys)
          end
      end
  end.

(** ** Geometry files *)

(** The state of the GeoJSON cache: the dictionary [geo_cache], for each
    path under /tmp that exists what [json.load] makes of the file (the
    value, or the text of the error it raises), and the calls made to the
    store so far. *)
Record geo_world := {
  geo_cache : gmap string json;
  geo_files : gmap string (json + string);
  geo_log : list s3_call
}.

Section Geometry.

Variable S3_BUCKET : string.

(** [stored key] is what [json.load] makes of the object under [key].
    [inl data] is the returned value, [inr msg] the raised exception.  A
    download that fails leaves no file at [local_path]. *)
Definition get_geo_json (s3 : s3_client) (stored : string -> json + string)
    (w : geo_world) (filename : string) : (json + string) * geo_world :=
  match geo_cache w !! filename with
  | Some data => (inl data, w)
  | None =>
      let s3_key := "epa_ghg_geo/" +:+ filename in
      let local_path := "/tmp/" +:+ filename in
      match geo_files w !! local_path with
      | Some (inl data) =>
          (inl data,
           {| geo_cache := <[filename := data]> (geo_cache w);
              geo_files := geo_files w;
              geo_log := geo_log w |})
      | Some (inr e) => (inr e, w)
      | None =>
          let log := geo_log w ++ [DownloadFile S3_BUCKET s3_key local_path] in
          match download_file s3 S3_BUCKET s3_key local_path with
          | inr e =>
              (inr ("Failed to download " +:+ s3_key +:+ ": " +:+ e),
               {| geo_cache := geo_cache w;
                  geo_files := geo_files w;
                  geo_log := log |})
          | inl _ =>
              let files := <[local_path := stored s3_key]> (geo_files w) in
              match stored s3_key with
              | inl data =>
                  (inl data,
                   {| geo_cache := <[filename := data]> (geo_cache w);
                      geo_files := files;
                      geo_log := log |})
              | inr e =>
                  (inr ("Failed to download " +:+ s3_key +:+ ": " +:+ e),
                   {| geo_cache := geo_cache w;
                      geo_files := files;
                      geo_log := log |})
              end
          end
      end
  end.

(** *** [handle_state_bounds] *)

Definition state_bounds_result (state_data : json) (state_code : string)
  : json + exn :=
  match py_item state_data state_code with
  | inr e => inr e
  | inl state_info =>
      match py_item state_info "name" with
      | inr e => inr e
      | inl name =>
          match py_item state_info "bounds" with
          | inr e => inr e
          | inl bounds =>
              match py_item state_info "geometry" with
              | inr e => inr e
              | inl geometry =>
                  inl (JObj [("stateName", name);
                             ("stateCode", JStr state_code);
                             ("bounds", bounds);
                             ("geometry", geometry)])
              end
          end
      end
  end.

Definition handle_state_bounds (s3 : s3_client) (stored : string -> json + string)
    (w : geo_world) (state_code : string) : reply * geo_world :=
  let state_code := str_upper state_code in
  let failed e := cors_error 500 [Text "Error loading state bounds: "; StrOf e] in
  if str_in state_code ["US"; "LOCAL"] then (cors_result (JArr []), w)
  else
    match get_geo_json s3 stored w "state_geometries.json" with
    | (inr e, w') => (failed (Exception e), w')
    | (inl state_data, w') =>
        (match py_in state_code state_data with
         | None => failed TypeError
         | Some false =>
             cors_error 404 [Text ("State not found: " +:+ state_code)]
         | Some true =>
             match state_bounds_result state_data state_code with
             | inl r => cors_result r
             | inr e => failed e
             end
         end, w')
    end.

(** *** [handle_state_counties] *)

Definition handle_state_counties (s3 : s3_client) (stored : string -> json + string)
    (w : geo_world) (state_code : string) : reply * geo_world :=
  let state_code := str_upper state_code in
  let failed e := cors_error 500 [Text "Error loading counties: "; StrOf e] in
  match get_geo_json s3 stored w "counties_by_state.json" with
  | (inr e, w') => (failed (Exception e), w')
  | (inl counties_data, w') =>
      (match py_in state_code counties_data with
       | None => failed TypeError
       | Some false => cors_result (JArr [])
       | Some true =>
           match py_item counties_data state_code with
           | inl counties => cors_result counties
           | inr e => failed e
           end
       end, w')
  end.

End Geometry.

(** *** [handle_basin_geo] *)

Definition handle_basin_geo : reply := cors_result (JArr []).

(** ** Handlers that shape their rows into JSON *)

(** [str(v)] of a cell of a text column, which holds a string or NULL (or,
    once cast, an integer). *)
Definition text_of (v : sqlval) : string :=
  match v with
  | VStr s => s
  | VInt n => pretty n
  | _ => "None"
  end.

(** *** [handle_sector_trend] *)

(** [series_name]: the default, or the looked-up name with ' Emissions'.
    [None] is an engine error. *)
Definition trend_series_name (db : database) (sector_id : string) : option string :=
  if negb (String.eqb sector_id "") && negb (String.eqb sector_id "0")
  then
    match py_int_str sector_id with
    | None => Some "Total GHG Emissions"
    | Some sector_id_int =>
        match fetchone db (plan_sector_lookup sector_id_int) with
        | None => None
        | Some None => Some "Total GHG Emissions"
        | Some (Some sector_result) =>
            Some (text_of (at_ sector_result 0) +:+ " Emissions")
        end
    end
  else Some "Total GHG Emissions".

(** The ['result'] of the trend: the years as categories, one series with
    the totals in MMT, and the credits line over the first and last
    year. *)
Definition trend_chart (series_name : string) (result : list (list sqlval)) : json :=
  let years := List.map (fun row => JStr (text_of (at_ row 0))) result in
  let values := List.map (fun row => JInt (mmt_or_zero (at_ row 1))) result in
  JObj [("xAxis", JObj [("categories", JArr years)]);
        ("series", JArr [JObj [("name", JStr series_name);
                               ("data", JArr values);
                               ("color", JStr "#1f77b4")]]);
        ("yearRange", JArr years);
        ("credits",
         JStr match result with
              | [] => ""
              | first :: _ =>
                  "Data from EPA GHGRP " +:+ text_of (at_ first 0) +:+ "-"
                  +:+ text_of (at_ (List.last result first) 0)
              end)].

Definition handle_sector_trend (acquired : database + string)
    (body : gmap string pyval) (sector_id level : string) : reply :=
  match acquired with
  | inr e => cors_error 500 [StrOf (Exception e)]
  | inl db =>
      match trend_series_name db sector_id with
      | None => cors_error 500 [StrOf EngineError]
      | Some series_name =>
          match sector_trend_rows db body sector_id with
          | None => cors_error 500 [StrOf EngineError]
          | Some result => cors_result (trend_chart series_name result)
          end
      end
  end.

(** *** [handle_map_overlay] *)

(** One marker of the overlay.  [int] raises on an id that is not a
    number. *)
Definition overlay_marker (row : list sqlval) : json + exn :=
  match (if sql_truthy (at_ row 0) then JInt <$> py_int_of (at_ row 0)
         else Some JNull) with
  | None => inr ValueError
  | Some id_ =>
      inl (JObj [("id", id_);
                 ("lt", json_of_sqlval (at_ row 1));
                 ("ln", json_of_sqlval (at_ row 2));
                 ("emissions", JInt (round_or_zero (at_ row 3)))])
  end.

(** [if row[1] and row[2]] *)
Definition has_position (row : list sqlval) : bool :=
  sql_truthy (at_ row 1) && sql_truthy (at_ row 2).

Definition handle_map_overlay (acquired : database + string)
    (body : gmap string pyval) : reply :=
  match acquired with
  | inr e => cors_error 500 [StrOf (Exception e)]
  | inl db =>
      match execute db (plan_map_overlay (reportingYear body) (state_param body)
                                         (dataSource body)) with
      | None => cors_error 500 [StrOf EngineError]
      | Some result =>
          match collect overlay_marker (List.filter has_position result) with
          | inr e => cors_error 500 [StrOf e]
          | inl markers => cors_result (JArr markers)
          end
      end
  end.

(** *** [handle_facilities_map_markers] *)

(** One marker.  [int] raises the TypeError on a NULL id and the
    ValueError on text that is not a number. *)
Definition map_marker (row : list sqlval) : json + exn :=
  match at_ row 0 with
  | VNull => inr TypeError
  | v =>
      match py_int_of v with
      | None => inr ValueError
      | Some n =>
          inl (JObj [("id", JInt n);
                     ("lt", json_of_sqlval (at_ row 1));
                     ("ln", json_of_sqlval (at_ row 2))])
      end
  end.

Definition handle_facilities_map_markers (acquired : database + string)
    (body : gmap string pyval) : reply :=
  match acquired with
  | inr e => cors_error 500 [StrOf (Exception e)]
  | inl db =>
      match execute db (plan_map_markers (reportingYear body) (state_param body)) with
      | None => cors_error 500 [StrOf EngineError]
      | Some result =>
          match collect map_marker result with
          | inr e => cors_error 500 [StrOf e]
          | inl markers => cors_result (JArr markers)
          end
      end
  end.

(** *** Reading a JSON value *)

Inductive jstep :=
| Field (k : string)      (* the member of an object *)
| Item (i : nat).       (* the element of an array *)

Fixpoint jpath (steps : list jstep) (j : json) : option json :=
  match steps with
  | [] => Some j
  | Field k :: rest =>
      match j with
      | JObj members =>
          match member k members with
          | Some v => jpath rest v
          | None => None
          end
      | _ => None
      end
  | Item i :: rest =>
      match j with
      | JArr items =>
          match nth_error items i with
          | Some v => jpath rest v
          | None => None
          end
      | _ => None
      end
  end.

(** The member [k] of each of a list of objects. *)
Definition pluck (k : string) (items : list json) : list (option json) :=
  List.map (jpath [Field k]) items.

(** *** [handle_sectors_total_emissions] *)

(** [v if v else None] *)
Definition value_or_none (v : sqlval) : json :=
  if sql_truthy v then json_of_sqlval v else JNull.

(** [float(v) if v else 0], of a SUM, which is a number or NULL *)
Definition float_or_zero (v : sqlval) : Q :=
  if sql_truthy v then default 0%Q (py_float_of v) else 0%Q.

(** [sum(xs)] of floats, as the exact sum: the code adds doubles, so the
    total it reports is this one up to the rounding of the additions. *)
Definition py_sum (xs : list Q) : Q := fold_left Qplus xs 0%Q.

(** A COUNT is an integer. *)
Definition count_of (v : sqlval) : Z :=
  match v with VInt n => n | _ => 0 end.

Definition sector_detail (row : list sqlval) : json :=
  let mmt := JInt (mmt_or_zero (at_ row 1)) in
  let facilities := json_of_sqlval (at_ row 2) in
  JObj [("sectorId", value_or_none (at_ row 3));
        ("sectorName", json_of_sqlval (at_ row 0));
        ("ghgEmission", mmt);
        ("reportedEmission", mmt);
        ("totalEmissions", mmt);
        ("numberOfFacilitiesReported", facilities);
        ("facilityCount", facilities);
        ("numFacilities", facilities)].

Definition sectors_total (reporting_year : pyval) (result : list (list sqlval)) : json :=
  let total_emissions :=
    toMMT (py_sum (List.map (fun row => float_or_zero (at_ row 1)) result)) in
  let total_facilities :=
    fold_left Z.add (List.map (fun row => count_of (at_ row 2)) result) 0 in
  JObj [("sectorEmissionDetails", JArr (List.map sector_detail result));
        ("totalReportedEmission", JInt total_emissions);
        ("totalNumberOfFacilities", JInt total_facilities);
        ("totalNumOfFacilitesReported", JInt total_facilities);
        ("reportingYear", json_of_pyval reporting_year);
        ("unitAbbr", JStr "MMT")].

Definition handle_sectors_total_emissions (acquired : database + string)
    (body : gmap string pyval) : reply :=
  match acquired with
  | inr e => cors_error 500 [StrOf (Exception e)]
  | inl db =>
      match execute db (plan_sectors_total_emissions (reportingYear body)
                                                     (state_param body)) with
      | None => cors_error 500 [StrOf EngineError]
      | Some result => cors_result (sectors_total (reportingYear body) result)
      end
  end.

(** ** Strings, once more *)

(** [c not in s] *)
Fixpoint lacks (c : ascii) (s : string) : bool :=
  match s with
  | EmptyString => true
  | String a s' => negb (Ascii.eqb a c) && lacks c s'
  end.

(** [s.replace(old, new)] for a non-empty [old]: the occurrences of [old]
    from left to right, none overlapping the one before.  [skip] counts
    the characters of a replaced occurrence still to pass over. *)
Fixpoint replace_from (old new : string) (skip : nat) (s : string) : string :=
  match s with
  | EmptyString => EmptyString
  | String c s' =>
      match skip with
      | S k => replace_from old new k s'
      | O =>
          if String.prefix old (String c s')
          then new +:+ replace_from old new (String.length old - 1) s'
          else String c (replace_from old new 0 s')
      end
  end.

Definition str_replace (old new s : string) : string := replace_from old new 0 s.

(** [s.split(c, 1)] when [c] is in [s] *)
Fixpoint split_once (c : ascii) (s : string) : option (string * string) :=
  match s with
  | EmptyString => None
  | String a s' =>
      if Ascii.eqb a c then Some (EmptyString, s')
      else (fun kv => (String a (fst kv), snd kv)) <$> split_once c s'
  end.

(** ** The converter, [convert_to_parquet.py] *)

Definition CSV_PREFIX : string := "epa_ghg_tables_csvs/".
Definition PARQUET_PREFIX : string := "epa_ghg_tables_parquet/".

Definition PRIORITY_TABLES : list string :=
  ["RLPS_GHG_EMITTER_FACILITIES";
   "RLPS_GHG_EMITTER_SECTOR";
   "RLPS_FAC_YEAR_AGG";
   "PUB_DIM_SECTOR";
   "PUB_DIM_FACILITY";
   "PUB_FACILITY_LAT_LONG";
   "RLPS_GHG_EMITTER_GAS";
   "RLPS_GHG_EMITTER_SUBPART"].

(** An object of a listing of the store. *)
Record s3_object := {
  Key : string;
  Size : Z;
  LastModified : string            (* its [isoformat()] *)
}.

Record csv_file := {
  cf_key : string;
  cf_table_name : string;
  cf_size : Z
}.

(** [list_csv_files], over the pages the paginator yields (each its
    ['Contents']). *)
Definition list_csv_files (pages : list (list s3_object)) : list csv_file :=
  flat_map
    (fun page =>
       flat_map
         (fun obj =>
            if endswith (Key obj) ".csv"
            then
              let filename := last_segment (Key obj) in
              [ {| cf_key := Key obj;
                   cf_table_name := str_replace ".csv" "" (str_replace "ghg." "" filename);
                   cf_size := Size obj |} ]
            else [])
         page)
    pages.

(** The key [convert_single_file] uploads the Parquet file of a table
    to. *)
Definition parquet_key (table_name : string) : string :=
  PARQUET_PREFIX +:+ "ghg." +:+ table_name +:+ ".parquet".

(** [l.index(x)] *)
Fixpoint index_of (x : string) (l : list string) : option nat :=
  match l with
  | [] => None
  | y :: l' => if String.eqb y x then Some 0%nat else S <$> index_of x l'
  end.

Definition sort_key (f : csv_file) : Z * Z :=
  match index_of (cf_table_name f) PRIORITY_TABLES with
  | Some i => (0, Z.of_nat i)
  | None => (1, - cf_size f)
  end.

(** The order of two keys, as Python orders tuples. *)
Definition tuple_leb (a b : Z * Z) : bool :=
  (fst a <? fst b) || ((fst a =? fst b) && (snd a <=? snd b)).

(** [csv_files.sort(key=sort_key)]: the sort is stable. *)
Definition conversion_order (csv_files : list csv_file) : list csv_file :=
  sort_by (fun a b => tuple_leb (sort_key a) (sort_key b)) csv_files.

(** ** The development server, [local_server.py] *)

(** [self.path.split('?')[0]] *)
Definition request_path (path : string) : string :=
  nth 0 (split_on "?" path) EmptyString.

Definition _parse_query_string (path : string) : gmap string string :=
  if negb (str_contains "?" path) then ∅
  else
    let query := nth 1 (split_on "?" path) EmptyString in
    fold_left
      (fun params param =>
         match split_once "=" param with
         | Some (key, value) => <[key := value]> params
         | None => params
         end)
      (split_on "&" query) ∅.

(** The event [do_GET] hands to the handler of [handler.py], as the route
    it takes there. *)
Definition do_GET_route (path : string) : local_route :=
  local_route_of (Some "GET") (Some (request_path path)).

(** A query string that holds the given parameters. *)
Fixpoint query_of (pairs : list (string * string)) : string :=
  match pairs with
  | [] => EmptyString
  | (key, value) :: rest =>
      key +:+ "=" +:+ value
      +:+ match rest with
          | [] => EmptyString
          | _ => "&" +:+ query_of rest
          end
  end.

(** The handler of [lambda_function.py] that stands for a route of
    [handler.py]; the 404 of the latter has none. *)
Definition deployed_route (r : local_route) : option route :=
  match r with
  | LocalPreflight => Some Preflight
  | LocalVersion => Some ToVersion
  | LocalMapMarkers => Some ToMapMarkers
  | LocalSectorsTotal => Some ToSectorsTotal
  | LocalListSectors => Some ToListSectors
  | LocalListFacilities => Some ToListFacilities
  | LocalStateBounds state_code => Some (ToStateBounds state_code)
  | LocalNotFound _ _ => None
  end.

(** ** [handle_data_files] *)

(** A response of [list_objects_v2]: its ['Contents'], when it has the
    key, the truth of its ['IsTruncated'], and its
    ['NextContinuationToken'], when it has the key. *)
Record listing := {
  Contents : option (list s3_object);
  IsTruncated : bool;
  NextContinuationToken : option string
}.

(** [f"{x:.1f}"] of a float that is not negative.  The quotients the
    handler formats, of a size below 2^53 by a power of two, are exact as
    floats. *)
Definition format_1f (x : Q) : string :=
  let tenths := py_round (x * 10) in
  pretty (tenths / 10) +:+ "." +:+ pretty (tenths mod 10).

Definition size_str (size_bytes : Z) : string :=
  if size_bytes <? 1024 then pretty size_bytes +:+ " B"
  else if size_bytes <? 1024 * 1024
       then format_1f (inject_Z size_bytes / 1024) +:+ " KB"
       else format_1f (inject_Z size_bytes / (1024 * 1024)) +:+ " MB".

(** An entry of the list of files. *)
Record file_info := {
  fi_filename : string;
  fi_size : string;
  fi_sizeBytes : Z;
  fi_lastModified : string
}.

Definition json_of_file (f : file_info) : json :=
  JObj [("filename", JStr (fi_filename f));
        ("size", JStr (fi_size f));
        ("sizeBytes", JInt (fi_sizeBytes f));
        ("lastModified", JStr (fi_lastModified f))].

(** The entries one response adds to [files]. *)
Definition file_entries (response : listing) : list file_info :=
  match Contents response with
  | None => []
  | Some objects =>
      flat_map
        (fun obj =>
           let filename := str_replace "epa_ghg_tables_csvs/" "" (Key obj) in
           if negb (String.eqb filename "") && endswith filename ".csv"
           then [ {| fi_filename := filename;
                     fi_size := size_str (Size obj);
                     fi_sizeBytes := Size obj;
                     fi_lastModified := LastModified obj |} ]
           else [])
        objects
  end.

Section DataFiles.

Variable S3_BUCKET : string.

(** [s3_client.list_objects_v2(Bucket, Prefix, ContinuationToken)], the
    token absent in the first call. *)
Variable list_objects_v2 : string -> string -> option string -> listing + string.

(** The loop over the further pages; [None] when it is still running
    after [fuel] calls. *)
Fixpoint more_files (fuel : nat) (response : listing) (files : list file_info)
  : option (list file_info + exn) :=
  if IsTruncated response
  then
    match fuel with
    | O => None
    | S fuel' =>
        match NextContinuationToken response with
        | None => Some (inr (Exception "'NextContinuationToken'"))
        | Some token =>
            match list_objects_v2 S3_BUCKET "epa_ghg_tables_csvs/" (Some token) with
            | inr e => Some (inr (Exception e))
            | inl next => more_files fuel' next (files ++ file_entries next)
            end
        end
    end
  else Some (inl files).

Definition handle_data_files (fuel : nat) : option reply :=
  match list_objects_v2 S3_BUCKET "epa_ghg_tables_csvs/" None with
  | inr e => Some (cors_error 500 [StrOf (Exception e)])
  | inl response =>
      match more_files fuel response (file_entries response) with
      | None => None
      | Some (inr e) => Some (cors_error 500 [StrOf e])
      | Some (inl files) =>
          let files :=
            sort_by (fun a b => String.leb (fi_filename a) (fi_filename b)) files in
          Some (cors_result
                  (JObj [("files", JArr (List.map json_of_file files));
                         ("count", JInt (Z.of_nat (length files)))]))
      end
  end.

(** The pages of a listing that the store serves to its end: each but the
    last is truncated and names the token that the next is served for. *)
Inductive served : listing -> list listing -> Prop :=
| served_last (response : listing) :
    IsTruncated response = false -> served response [response]
| served_next (response next : listing) (token : string) (rest : list listing) :
    IsTruncated response = true ->
    NextContinuationToken response = Some token ->
    list_objects_v2 S3_BUCKET "epa_ghg_tables_csvs/" (Some token) = inl next ->
    served next rest ->
    served response (response :: rest).

End DataFiles.

(** ** The domain of the queries *)

(** *** Values pasted into the text of a query

    The handlers paste the request values, and the trend handler a name
    it has read from the sector dimension, into the text of their queries
    between single quotes.  A plan reads each pasted text as one string
    literal, which is what the text is when it holds no quote; with a
    quote in it the text is another query, or none, and no plan stands
    for it.  Nor does one for a text with a NUL character, at which the
    text of the query ends for the engine.  [well_quoted] is the
    condition on a plan under which it is the query the handler sends. *)
Definition quote_free (s : string) : bool := negb (str_contains "'" s).

Definition nul_free (s : string) : bool :=
  forallb (fun c => negb (Ascii.eqb c Ascii.zero)) (list_ascii_of_string s).

Definition pastable (s : string) : bool := quote_free s && nul_free s.

Fixpoint expr_literals (e : expr) : list string :=
  match e with
  | Col _ | LitInt _ => []
  | Lit s => [s]
  | CastDouble e' | CastInteger e' | Sum e' | CountDistinct e' | Max e' =>
      expr_literals e'
  | Coalesce e' d => expr_literals e' ++ expr_literals d
  end.

Definition pred_literals (p : pred) : list string :=
  match p with
  | PEq a b | PNe a b | PGt a b => expr_literals a ++ expr_literals b
  | PIsNotNull a => expr_literals a
  | PTrue => []
  end.

(** Every string literal of a plan: the pasted values and the constants
    of the query text. *)
Definition plan_literals (p : plan) : list string :=
  flat_map expr_literals (select p)
  ++ flat_map pred_literals (flat_map j_on (joins p))
  ++ flat_map pred_literals (where_ p)
  ++ flat_map expr_literals (default [] (group_by p))
  ++ flat_map pred_literals (having p)
  ++ flat_map (fun i => expr_literals (o_expr i)) (order_by p).

Definition well_quoted (p : plan) : bool :=
  forallb pastable (plan_literals p).

(** *** Text within ASCII *)

(** The functions on text ([py_int_str], [str_upper]) are those of Python
    on ASCII text. *)
Definition ascii_only (s : string) : bool :=
  forallb (fun c => Nat.ltb (nat_of_ascii c) 128) (list_ascii_of_string s).

(** *** Tables whose casts succeed *)

(** The range of the engine's INTEGER. *)
Definition in_int32 (n : Z) : bool :=
  (-2147483648 <=? n) && (n <=? 2147483647).

(** The range of the engine's BIGINT, which an integer written in the
    text of a query has to be in. *)
Definition in_int64 (n : Z) : bool :=
  (-9223372036854775808 <=? n) && (n <=? 9223372036854775807).

(** Every sector id of the dimension table casts to INTEGER. *)
Definition int32_ids (db : database) : bool :=
  forallb (fun d => match sector_id d with
                    | Some n => in_int32 n
                    | None => true
                    end)
          (DIM_SECTOR db).



(** ** The sector totals of [handler.py]

    The development handler has its own sector totals, over the sector
    facts alone: its query has no condition on the gas. *)
Definition plan_local_sectors_total (reporting_year : pyval) : plan :=
  {| distinct := false;
     select := [Col S_sector_name; total_emissions;
                CountDistinct (Col S_facility_id)];
     from := T_SECTOR;
     joins := [];
     where_ := [PEq (Col S_year) (Lit (py_str reporting_year));
                PEq (Col S_sector_type) (Lit "E")];
     group_by := Some [Col S_sector_name];
     having := [];
     order_by := [ {| o_expr := total_emissions; o_desc := true |} ];
     limit := None;
     offset := None |}.

(** ** The listing of facilities *)




(** ** Sample data *)

(** A store that serves every request. *)
Definition always_serving : s3_client :=
  {| download_file := fun _ _ _ => inl tt;
     head_object := fun _ _ => inl tt;
     generate_presigned_url := fun _ key => inl key |}.

(** A store that refuses every request. *)
Definition never_serving : s3_client :=
  {| download_file := fun _ _ _ => inr "AccessDenied";
     head_object := fun _ _ => inr "AccessDenied";
     generate_presigned_url := fun _ _ => inr "AccessDenied" |}.

(** A fresh process: nothing cached, nothing under /tmp, no call made. *)
Definition cold_world : world :=
  {| file_cache := ∅; local_files := ∅; s3_log := [] |}.

Definition sample_facility (id yr st : string) : fac_row :=
  {| facility_id := Some id;
     facility_name := Some ("Plant " +:+ id);
     address1 := None;
     address2 := None;
     city := Some "Houston";
     state := Some st;
     county := None;
     zip_code := None;
     latitude := Some (Num (59 # 2));
     longitude := Some (Num (-95 # 1));
     parent_company := None;
     year := Some yr |}.

Definition sample_emission (id yr sector gas : string) (q : Q) : sec_row :=
  {| sec_facility_id := Some id;
     sec_year := Some yr;
     sector_name := Some sector;
     sector_type := Some "E";
     gas_name := Some gas;
     co2e_emission := Some q |}.

(** Three facilities in 2023, one of them also in 2022; facility 3 has no
    emissions. *)
Definition sample_db : database :=
  {| FACILITIES := [sample_facility "1001" "2023" "TX";
                    sample_facility "1002" "2023" "CA";
                    sample_facility "1001" "2022" "TX";
                    sample_facility "1003" "2023" "TX"];
     SECTOR := [sample_emission "1001" "2023" "Power Plants" "CO2" (1500000 # 1);
                sample_emission "1001" "2023" "Power Plants" "Biogenic CO2" (700 # 1);
                sample_emission "1002" "2023" "Waste" "CH4" (2500000 # 1);
                sample_emission "1001" "2022" "Power Plants" "CO2" (10 # 1)];
     DIM_SECTOR := [ {| sector_id := Some 3; dim_sector_name := Some "Power Plants" |} ];
     FAC_YEAR_AGG := [ {| pgm_sys_id := Some "1001";
                          agg_year := Some "2023";
                          total_emission := Some (1500700 # 1) |} ] |}.


(** A fresh process for the geometry files. *)
Definition cold_geo : geo_world :=
  {| geo_cache := ∅; geo_files := ∅; geo_log := [] |}.

(** A geometry file with one state. *)
Definition sample_states : json :=
  JObj [("TX", JObj [("name", JStr "Texas");
                     ("bounds", JArr [JNum (-1066 # 10); JNum (258 # 10);
                                      JNum (-935 # 10); JNum (365 # 10)]);
                     ("geometry", JNull)])].

(** A store whose objects all hold [sample_states], and one whose objects
    do not decode. *)
Definition states_stored (key : string) : json + string := inl sample_states.

Definition garbage_stored (key : string) : json + string :=
  inr "Expecting value: line 1 column 1 (char 0)".

(** A listing of the CSV files in two pages. *)
Definition page_one : listing :=
  {| Contents :=
       Some [ {| Key := "epa_ghg_tables_csvs/ghg.RLPS_FAC_YEAR_AGG.csv";
                 Size := 1280;
                 LastModified := "2024-05-01T00:00:00+00:00" |};
              {| Key := "epa_ghg_tables_csvs/";
                 Size := 0;
                 LastModified := "2024-05-01T00:00:00+00:00" |} ];
     IsTruncated := true;
     NextContinuationToken := Some "page-2" |}.

Definition page_two : listing :=
  {| Contents :=
       Some [ {| Key := "epa_ghg_tables_csvs/ghg.PUB_DIM_SECTOR.csv";
                 Size := 512;
                 LastModified := "2024-05-02T00:00:00+00:00" |} ];
     IsTruncated := false;
     NextContinuationToken := None |}.

Definition two_pages (bucket prefix : string) (token : option string)
  : listing + string :=
  match token with
  | None => inl page_one
  | Some _ => inl page_two
  end.
(** ** Properties *)

(** *** Rounding and unit conversion *)

Lemma py_round_bounds (x : Q) :
  (inject_Z (Qfloor x) <= x)%Q /\ (x < inject_Z (Qfloor x) + 1)%Q.
Proof.
  split; [apply Qfloor_le|].
  pose proof (Qlt_floor x) as H. rewrite inject_Z_plus in H. exact H.
Qed.

Lemma py_round_mono (x y : Q) : (x <= y)%Q -> py_round x <= py_round y.
Proof.
  intros Hxy. unfold py_round.
  pose proof (Qfloor_resp_le _ _ Hxy) as Hf.
  destruct (py_round_bounds x) as [Hx1 Hx2], (py_round_bounds y) as [Hy1 Hy2].
  destruct (Z.eq_dec (Qfloor x) (Qfloor y)) as [Heq|Hne].
  - rewrite <- Heq in *.
    destruct (Qcompare_spec (x - inject_Z (Qfloor x)) (1 # 2)) as [Hx|Hx|Hx];
      destruct (Qcompare_spec (y - inject_Z (Qfloor x)) (1 # 2)) as [Hy|Hy|Hy];
      try destruct (Z.even (Qfloor x)); try lia; exfalso; lra.
  - assert (Qfloor x + 1 <= Qfloor y) by lia.
    destruct (Qcompare (x - inject_Z (Qfloor x)) (1 # 2));
      destruct (Qcompare (y - inject_Z (Qfloor y)) (1 # 2));
      try destruct (Z.even (Qfloor x)); try destruct (Z.even (Qfloor y)); lia.
Qed.

Lemma toMMT_mono (a b : Q) : (b <= a)%Q -> toMMT b <= toMMT a.
Proof.
  intros H. unfold toMMT. apply py_round_mono.
  unfold Qdiv. apply Qmult_le_compat_r; [exact H | discriminate].
Qed.

(** C8: the conversion to MMT sends 0 to 0, and a larger input never gets
    a smaller result. *)
Theorem toMMT_zero_and_monotone (a b : Q) (H : (a > b)%Q) :
  toMMT 0 = 0 /\ toMMT a >= toMMT b.
Proof.
  split; [reflexivity|].
  apply Z.le_ge, toMMT_mono, Qlt_le_weak, H.
Qed.

Lemma toMMT_zero_and_monotone_witness :
  (2500000 > 1499999)%Q /\ toMMT 0 = 0 /\ toMMT 2500000 >= toMMT 1499999.
Proof.
  split; [reflexivity|].
  apply (toMMT_zero_and_monotone 2500000 1499999). reflexivity.
Defined.

(** *** File names *)

Lemma append_cons (c : ascii) (a b : string) :
  String c a +:+ b = String c (a +:+ b).
Proof. reflexivity. Qed.

Lemma append_nil (b : string) : "" +:+ b = b.
Proof. reflexivity. Qed.

Lemma prefix_app (p s : string) :
  String.prefix p s = true <-> exists b, s = p +:+ b.
Proof.
  revert s. induction p as [|c p IH]; intros s; simpl.
  - destruct s; split; eauto.
  - destruct s as [|c' s]; simpl.
    + split; [discriminate | intros [b Hb]; discriminate].
    + destruct (Ascii.ascii_dec c c') as [->|Hne].
      * rewrite IH. split; intros [b Hb]; exists b;
          rewrite append_cons in *; congruence.
      * split; [discriminate|].
        intros [b Hb]. rewrite append_cons in Hb. congruence.
Qed.

Lemma str_contains_spec (pat s : string) :
  str_contains pat s = true <-> exists a b, s = a +:+ pat +:+ b.
Proof.
  induction s as [|c s IH]; cbn [str_contains].
  - rewrite orb_false_r, prefix_app. split.
    + intros [b Hb]. exists "", b. exact Hb.
    + intros ([|c a] & b & Hb); [eauto | discriminate].
  - rewrite orb_true_iff, prefix_app, IH. split.
    + intros [[b Hb] | (a & b & Hab)].
      * exists "", b. exact Hb.
      * exists (String c a), b. rewrite append_cons. congruence.
    + intros ([|c' a] & b & Hb).
      * left. eauto.
      * right. exists a, b. rewrite append_cons in Hb. congruence.
Qed.

Lemma endswith_spec (s suf : string) :
  endswith s suf = true <-> exists a, s = a +:+ suf.
Proof.
  induction s as [|c s IH]; cbn [endswith].
  - rewrite orb_false_r, String.eqb_eq. split.
    + intros <-. exists "". reflexivity.
    + intros ([|c a] & Ha); [rewrite append_nil in Ha; congruence | discriminate].
  - rewrite orb_true_iff, String.eqb_eq, IH. split.
    + intros [<- | [a Ha]]; [exists ""; reflexivity|].
      exists (String c a). rewrite append_cons. congruence.
    + intros ([|c' a] & Ha); [left; rewrite append_nil in Ha; congruence|].
      right. exists a. rewrite append_cons in Ha. congruence.
Qed.

(** C7: a file name that does not end in .csv, or holds a slash or two
    dots in a row, is answered 400 with one message of type 400, and no
    call is made to the store. *)
Theorem invalid_filename_rejected_before_lookup
    (S3_BUCKET : string) (s3 : s3_client) (filename : string)
    (Hbad : ~ (exists a, filename = a +:+ ".csv")
            \/ (exists a b, filename = a +:+ "/" +:+ b)
            \/ (exists a b, filename = a +:+ ".." +:+ b)) :
  let '(r, calls) := handle_data_download S3_BUCKET s3 filename in
  statusCode r = 400
  /\ resp_body r = JsonBody None [ {| text := Text "Invalid filename"; type := 400 |} ]
  /\ calls = [].
Proof.
  unfold handle_data_download.
  assert (negb (endswith filename ".csv") || str_contains "/" filename
          || str_contains ".." filename = true) as ->; [|done].
  rewrite !orb_true_iff, negb_true_iff, !str_contains_spec.
  rewrite <- not_true_iff_false, endswith_spec. tauto.
Qed.

Lemma invalid_filename_rejected_before_lookup_witness :
  let s3 := {| download_file := fun _ _ _ => inl tt;
               head_object := fun _ _ => inl tt;
               generate_presigned_url := fun _ k => inl k |} in
  let '(r, calls) := handle_data_download "epa-backups-eia" s3 "../secret.csv" in
  statusCode r = 400
  /\ resp_body r = JsonBody None [ {| text := Text "Invalid filename"; type := 400 |} ]
  /\ calls = [].
Proof.
  apply (invalid_filename_rejected_before_lookup "epa-backups-eia" _ "../secret.csv").
  right; left. exists "..", "secret.csv". reflexivity.
Defined.

(** *** The cache *)

Section CacheFacts.

Variables S3_BUCKET S3_PREFIX : string.

Abbreviation acquire := (get_local_parquet S3_BUCKET S3_PREFIX).
Abbreviation acquire_seq := (get_local_parquet_seq S3_BUCKET S3_PREFIX).
Abbreviation fetch name :=
  (DownloadFile S3_BUCKET (s3_key_of S3_PREFIX name) (local_path_of name)).

Lemma acquire_hit (s3 : s3_client) (w : world) (name p : string) :
  file_cache w !! name = Some p -> acquire s3 w name = (inl p, w).
Proof. intros H. unfold get_local_parquet. rewrite H. reflexivity. Qed.

(** Entries are only ever added. *)
Lemma acquire_keeps (s3 : s3_client) (w : world) (name k p : string) :
  file_cache w !! k = Some p ->
  file_cache (acquire s3 w name).2 !! k = Some p.
Proof.
  intros Hk. unfold get_local_parquet.
  destruct (file_cache w !! name) eqn:Hn; [exact Hk|].
  assert (k <> name) as Hne by congruence.
  destruct (decide _); [simpl; by rewrite lookup_insert_ne|].
  destruct (download_file _ _ _ _); simpl; [by rewrite lookup_insert_ne | exact Hk].
Qed.

Lemma acquire_seq_keeps (calls : list (s3_client * string)) (w : world)
    (k p : string) :
  file_cache w !! k = Some p ->
  file_cache (acquire_seq w calls).2 !! k = Some p.
Proof.
  revert w. induction calls as [|[s3 name] calls IH]; intros w Hk; [exact Hk|].
  simpl. pose proof (acquire_keeps s3 w name k p Hk) as H1.
  destruct (acquire s3 w name) as [r w1]. simpl in H1.
  specialize (IH w1 H1). destruct (acquire_seq w1 calls). exact IH.
Qed.

(** C5: on a cache miss with no local file, a download that the store
    serves makes the call return the local path, having recorded it for
    the name, and a download that fails makes the call raise, with the
    text of the failure, and records nothing.  Whatever the call: when it
    returns a path it has recorded it, and every later call for the name
    returns that path and leaves the world, its log of remote calls
    included, as it was; when it raises the cache is as before, and the
    next call for the name goes to the store again. *)
Theorem get_local_parquet_records_on_success_only
    (s3 : s3_client) (w : world) (name : string) :
  (file_cache w !! name = None -> local_path_of name ∉ local_files w ->
   download_file s3 S3_BUCKET (s3_key_of S3_PREFIX name) (local_path_of name)
   = inl tt ->
   acquire s3 w name
   = (inl (local_path_of name),
      {| file_cache := <[name := local_path_of name]> (file_cache w);
         local_files := {[local_path_of name]} ∪ local_files w;
         s3_log := s3_log w ++ [fetch name] |}))
  /\ (file_cache w !! name = None -> local_path_of name ∉ local_files w ->
      forall e,
        download_file s3 S3_BUCKET (s3_key_of S3_PREFIX name) (local_path_of name)
        = inr e ->
        acquire s3 w name
        = (inr ("Failed to download " +:+ s3_key_of S3_PREFIX name +:+ ": " +:+ e),
           {| file_cache := file_cache w;
              local_files := local_files w;
              s3_log := s3_log w ++ [fetch name] |}))
  /\ match acquire s3 w name with
     | (inl p, w1) =>
         file_cache w1 !! name = Some p
         /\ (file_cache w !! name = None -> p = local_path_of name)
         /\ forall (calls : list (s3_client * string)) (s3' : s3_client),
              let w2 := (acquire_seq w1 calls).2 in
              acquire s3' w2 name = (inl p, w2)
     | (inr e, w1) =>
         file_cache w1 = file_cache w
         /\ file_cache w1 !! name = None
         /\ forall s3' : s3_client,
              s3_log (acquire s3' w1 name).2 = s3_log w1 ++ [fetch name]
     end.
Proof.
  split; [intros Hcold Hnofile He; unfold get_local_parquet; rewrite Hcold;
          destruct (decide _); [contradiction|]; rewrite He; reflexivity|].
  split; [intros Hcold Hnofile e He; unfold get_local_parquet; rewrite Hcold;
          destruct (decide _); [contradiction|]; rewrite He; reflexivity|].
  destruct (acquire s3 w name) as [[p|e] w1] eqn:Hcall.
  - assert (file_cache w1 !! name = Some p
            /\ (file_cache w !! name = None -> p = local_path_of name))
      as [Hrec Hpath].
    { unfold get_local_parquet in Hcall.
      destruct (file_cache w !! name) eqn:Hn; [split; congruence|].
      destruct (decide _);
        [simplify_eq; simpl; split; [apply lookup_insert_eq|reflexivity]|].
      destruct (download_file _ _ _ _); simplify_eq; simpl.
      split; [apply lookup_insert_eq|reflexivity]. }
    split; [exact Hrec|]. split; [exact Hpath|].
    intros calls s3' w2. apply acquire_hit.
    apply acquire_seq_keeps, Hrec.
  - unfold get_local_parquet in Hcall.
    destruct (file_cache w !! name) eqn:Hn; [congruence|].
    destruct (decide _) as [|Hfile]; [congruence|].
    destruct (download_file _ _ _ _); simplify_eq; simpl.
    split; [reflexivity|]. split; [exact Hn|].
    intros s3'. unfold get_local_parquet. simpl. rewrite Hn.
    destruct (decide _); [contradiction|].
    destruct (download_file s3' _ _ _); reflexivity.
Qed.

(** The statement-by-statement program, run by one caller alone, does
    what the function does. *)
Lemma run_alone (s3 : s3_client) (w : world) (name : string) :
  run_schedule S3_BUCKET S3_PREFIX s3 w
               [ {| c_table := name; c_pc := AtCacheLookup |} ]
               [0; 0; 0; 0]%nat
  = ([ {| c_table := name; c_pc := Returned (acquire s3 w name).1 |} ],
     (acquire s3 w name).2).
Proof.
  unfold get_local_parquet, run_schedule, step; simpl.
  destruct (file_cache w !! name) eqn:Hn; simpl; [reflexivity|].
  destruct (decide _); simpl; [reflexivity|].
  destruct (download_file _ _ _ _); simpl; reflexivity.
Qed.

(** C6, as the code has it: callers that come one after the other, against
    a store that serves the first download, cause one remote fetch, and
    all of them get the same local path. *)
Theorem sequential_callers_fetch_once
    (s3 : s3_client) (later : list s3_client) (w : world) (name : string)
    (Hcold : file_cache w !! name = None)
    (Hnofile : local_path_of name ∉ local_files w)
    (Hserved : download_file s3 S3_BUCKET (s3_key_of S3_PREFIX name)
                             (local_path_of name) = inl tt) :
  let calls := (s3, name) :: List.map (fun c => (c, name)) later in
  (acquire_seq w calls).1 = List.map (fun _ => inl (local_path_of name)) calls
  /\ s3_log (acquire_seq w calls).2 = s3_log w ++ [fetch name]
  /\ fetches_of (s3_key_of S3_PREFIX name) (s3_log (acquire_seq w calls).2)
     = S (fetches_of (s3_key_of S3_PREFIX name) (s3_log w)).
Proof.
  intros calls. unfold calls. cbn [get_local_parquet_seq List.map].
  assert (acquire s3 w name
          = (inl (local_path_of name),
             {| file_cache := <[name := local_path_of name]> (file_cache w);
                local_files := {[local_path_of name]} ∪ local_files w;
                s3_log := s3_log w ++ [fetch name] |})) as ->.
  { unfold get_local_parquet. rewrite Hcold.
    destruct (decide _); [contradiction|]. by rewrite Hserved. }
  set (w1 := {| file_cache := _ |}).
  assert (forall l, acquire_seq w1 (List.map (fun c => (c, name)) l)
                    = (List.map (fun _ => inl (local_path_of name)) l, w1)) as Hrest.
  { induction l as [|c l IH]; [reflexivity|].
    cbn [get_local_parquet_seq List.map].
    rewrite (acquire_hit c w1 name (local_path_of name))
      by apply lookup_insert_eq.
    rewrite IH. reflexivity. }
  rewrite Hrest. simpl. split; [by rewrite List.map_map|]. split; [reflexivity|].
  unfold fetches_of. rewrite List.filter_app, length_app. simpl.
  rewrite String.eqb_refl. simpl. lia.
Qed.

End CacheFacts.

Lemma get_local_parquet_records_on_success_only_witness :
  let served := get_local_parquet "epa-backups-eia" "epa_ghg_tables_parquet"
                                  always_serving cold_world "PUB_DIM_SECTOR" in
  let refused := get_local_parquet "epa-backups-eia" "epa_ghg_tables_parquet"
                                   never_serving cold_world "PUB_DIM_SECTOR" in
  (served.1 = inl "/tmp/ghg.PUB_DIM_SECTOR.parquet"
   /\ file_cache served.2 !! "PUB_DIM_SECTOR"
      = Some "/tmp/ghg.PUB_DIM_SECTOR.parquet"
   /\ get_local_parquet "epa-backups-eia" "epa_ghg_tables_parquet"
                        never_serving served.2 "PUB_DIM_SECTOR"
      = (inl "/tmp/ghg.PUB_DIM_SECTOR.parquet", served.2))
  /\ refused.1
     = inr ("Failed to download epa_ghg_tables_parquet/ghg.PUB_DIM_SECTOR.parquet"
            +:+ ": AccessDenied")
  /\ file_cache refused.2 = ∅.
Proof.
  destruct (get_local_parquet_records_on_success_only
              "epa-backups-eia" "epa_ghg_tables_parquet"
              always_serving cold_world "PUB_DIM_SECTOR") as [Hserved [_ Hlater]].
  destruct (get_local_parquet_records_on_success_only
              "epa-backups-eia" "epa_ghg_tables_parquet"
              never_serving cold_world "PUB_DIM_SECTOR") as [_ [Hfail _]].
  cbn zeta.
  rewrite (Hfail eq_refl (not_elem_of_empty _) "AccessDenied" eq_refl).
  rewrite (Hserved eq_refl (not_elem_of_empty _) eq_refl) in Hlater |- *.
  destruct Hlater as [Hrec [_ Hagain]].
  split; [|split; reflexivity].
  split; [reflexivity|]. split; [exact Hrec|].
  exact (Hagain [] never_serving).
Defined.

Lemma sequential_callers_fetch_once_witness :
  let calls := List.map (fun c => (c, "PUB_DIM_SECTOR"))
                        [always_serving; always_serving; always_serving] in
  let run := get_local_parquet_seq "epa-backups-eia" "epa_ghg_tables_parquet"
                                   cold_world calls in
  run.1 = List.map (fun _ => inl (local_path_of "PUB_DIM_SECTOR")) calls
  /\ s3_log run.2
     = s3_log cold_world
       ++ [DownloadFile "epa-backups-eia"
                        (s3_key_of "epa_ghg_tables_parquet" "PUB_DIM_SECTOR")
                        (local_path_of "PUB_DIM_SECTOR")]
  /\ fetches_of (s3_key_of "epa_ghg_tables_parquet" "PUB_DIM_SECTOR") (s3_log run.2)
     = S (fetches_of (s3_key_of "epa_ghg_tables_parquet" "PUB_DIM_SECTOR")
                     (s3_log cold_world)).
Proof.
  apply (sequential_callers_fetch_once
           "epa-backups-eia" "epa_ghg_tables_parquet" always_serving
           [always_serving; always_serving] cold_world "PUB_DIM_SECTOR").
  - reflexivity.
  - vm_compute. set_solver.
  - reflexivity.
Defined.

(** C6, as stated, fails: two callers for the same cold table, interleaved
    so that both look into the cache before either has recorded its
    download, both fetch from the store. *)
Lemma interleaved_callers_fetch_twice :
  let name := "PUB_DIM_SECTOR" in
  let c := {| c_table := name; c_pc := AtCacheLookup |} in
  let run := run_schedule "epa-backups-eia" "epa_ghg_tables_parquet"
                          always_serving cold_world [c; c]
                          [0; 0; 1; 1; 0; 1; 0; 1]%nat in
  List.map c_pc run.1
  = [Returned (inl (local_path_of name)); Returned (inl (local_path_of name))]
  /\ fetches_of (s3_key_of "epa_ghg_tables_parquet" name) (s3_log run.2) = 2%nat
  /\ fetches_of (s3_key_of "epa_ghg_tables_parquet" name) (s3_log run.2) <> 1%nat.
Proof. vm_compute. repeat split; discriminate. Qed.

(** *** ORDER BY *)

Section Sorting.

Context {A : Type} (leb : A -> A -> bool).
Hypothesis leb_total : forall x y, leb x y = true \/ leb y x = true.
Hypothesis leb_trans : forall x y z, leb x y = true -> leb y z = true -> leb x z = true.

Lemma insert_by_In (x y : A) (l : list A) :
  In y (insert_by leb x l) <-> y = x \/ In y l.
Proof.
  induction l as [|z l IH]; simpl; [intuition|].
  destruct (leb x z); simpl; [intuition|]. rewrite IH. intuition.
Qed.

Lemma sort_by_In (y : A) (l : list A) : In y (sort_by leb l) <-> In y l.
Proof.
  induction l as [|x l IH]; simpl; [tauto|].
  unfold sort_by in *. simpl. rewrite insert_by_In, IH. intuition.
Qed.

Lemma sort_by_length (l : list A) : length (sort_by leb l) = length l.
Proof.
  induction l as [|x l IH]; [reflexivity|]. unfold sort_by in *. simpl.
  rewrite <- IH. generalize (fold_right (insert_by leb) [] l). clear.
  intros l. induction l as [|z l IH]; simpl; [reflexivity|].
  destruct (leb x z); simpl; congruence.
Qed.

Lemma insert_by_sorted (x : A) (l : list A) :
  StronglySorted (fun a b => leb a b = true) l ->
  StronglySorted (fun a b => leb a b = true) (insert_by leb x l).
Proof.
  induction 1 as [|z l Hl IH Hz]; simpl.
  - constructor; constructor.
  - destruct (leb x z) eqn:Hxz.
    + constructor; [constructor; assumption|].
      constructor; [exact Hxz|].
      rewrite List.Forall_forall in *. intros y Hy. eapply leb_trans; eauto.
    + constructor; [exact IH|].
      rewrite List.Forall_forall in *. intros y Hy.
      apply insert_by_In in Hy as [->|Hy]; [|auto].
      destruct (leb_total x z); congruence.
Qed.

Lemma sort_by_sorted (l : list A) :
  StronglySorted (fun a b => leb a b = true) (sort_by leb l).
Proof.
  induction l as [|x l IH]; [constructor|].
  unfold sort_by in *. simpl. apply insert_by_sorted, IH.
Qed.

End Sorting.

Lemma In_take {A} (y : A) (n : nat) (l : list A) : In y (take n l) -> In y l.
Proof.
  revert n. induction l as [|x l IH]; intros [|n]; simpl; try tauto.
  intros [->|H]; eauto.
Qed.

Lemma In_drop {A} (y : A) (n : nat) (l : list A) : In y (drop n l) -> In y l.
Proof.
  revert n. induction l as [|x l IH]; intros [|n]; simpl; try tauto.
  intros H. eauto.
Qed.

Lemma StronglySorted_take {A} (R : A -> A -> Prop) (n : nat) (l : list A) :
  StronglySorted R l -> StronglySorted R (take n l).
Proof.
  intros H. revert n. induction H as [|x l Hl IH Hx]; intros [|n]; simpl;
    try constructor; [apply IH|].
  rewrite List.Forall_forall in *. intros y Hy. eapply Hx, In_take, Hy.
Qed.

Lemma StronglySorted_drop {A} (R : A -> A -> Prop) (n : nat) (l : list A) :
  StronglySorted R l -> StronglySorted R (drop n l).
Proof.
  intros H. revert n. induction H as [|x l Hl IH Hx]; intros [|n]; simpl;
    try constructor; auto.
Qed.

Lemma StronglySorted_map_In {A B} (R : A -> A -> Prop) (R' : B -> B -> Prop)
    (f : A -> B) (l : list A) :
  (forall x y, In x l -> In y l -> R x y -> R' (f x) (f y)) ->
  StronglySorted R l -> StronglySorted R' (List.map f l).
Proof.
  intros Hf Hs. induction Hs as [|x l Hl IH Hx]; simpl; constructor.
  - apply IH. intros y z Hy Hz. apply Hf; right; assumption.
  - rewrite List.Forall_forall in *. intros y Hy.
    apply in_map_iff in Hy as (z & <- & Hz).
    apply Hf; [left; reflexivity | right; exact Hz | auto].
Qed.

Lemma string_leb_trans (x y z : string) :
  String.leb x y = true -> String.leb y z = true -> String.leb x z = true.
Proof.
  intros H1 H2. apply Is_true_true.
  apply (@transitivity _ String.le _ x y z); apply Is_true_true; assumption.
Qed.

Lemma Qle_bool_trans (x y z : Q) :
  Qle_bool x y = true -> Qle_bool y z = true -> Qle_bool x z = true.
Proof. rewrite !Qle_bool_iff. apply Qle_trans. Qed.

Lemma Qle_bool_total (x y : Q) : Qle_bool x y = true \/ Qle_bool y x = true.
Proof.
  rewrite !Qle_bool_iff. destruct (Qlt_le_dec x y); [left|right]; lra.
Qed.

Lemma key_leb_total (desc : bool) (a b : sqlval) :
  key_leb desc a b = true \/ key_leb desc b a = true.
Proof.
  destruct desc, a, b; simpl; auto using String.leb_total, Qle_bool_total.
Qed.

Lemma key_leb_trans (desc : bool) (a b c : sqlval) :
  key_leb desc a b = true -> key_leb desc b c = true -> key_leb desc a c = true.
Proof.
  destruct desc, a, b, c; simpl; try done;
    eauto using string_leb_trans, Qle_bool_trans.
Qed.

Lemma order_leb_total (items : list order_item) (g1 g2 : list env) :
  order_leb items g1 g2 = true \/ order_leb items g2 g1 = true.
Proof.
  induction items as [|i items IH]; simpl; [auto|].
  pose proof (key_leb_total (o_desc i) (eval g1 (o_expr i)) (eval g2 (o_expr i))).
  destruct (key_leb (o_desc i) (eval g1 (o_expr i)) (eval g2 (o_expr i))),
    (key_leb (o_desc i) (eval g2 (o_expr i)) (eval g1 (o_expr i)));
    simpl; intuition congruence.
Qed.

Lemma order_leb_trans (items : list order_item) (g1 g2 g3 : list env) :
  order_leb items g1 g2 = true -> order_leb items g2 g3 = true ->
  order_leb items g1 g3 = true.
Proof.
  induction items as [|i items IH]; simpl; [auto|].
  set (a := eval g1 (o_expr i)). set (b := eval g2 (o_expr i)).
  set (c := eval g3 (o_expr i)). set (d := o_desc i).
  pose proof (key_leb_trans d a b c). pose proof (key_leb_trans d c b a).
  pose proof (key_leb_trans d b a c). pose proof (key_leb_trans d c a b).
  pose proof (key_leb_trans d a c b). pose proof (key_leb_trans d b c a).
  pose proof (key_leb_total d a b). pose proof (key_leb_total d b c).
  pose proof (key_leb_total d a c).
  destruct (key_leb d a b), (key_leb d b a), (key_leb d b c), (key_leb d c b),
    (key_leb d a c), (key_leb d c a); simpl; intuition congruence.
Qed.

(** *** The state filter *)

Lemma state_given_text (s : string) :
  state_given (PStr s) = negb (String.eqb s "") && negb (String.eqb s "US").
Proof. reflexivity. Qed.

(** C2, as the code has it, for request values that hold no quote and no
    NUL character (the handlers paste them into the text of the query
    between quotes, and [well_quoted] says that the plan is that text):
    with [state] equal to
    'US' or empty (or any falsy value) a query has no predicate on the
    state column and no join against the facility table; with any other
    value it has the one predicate [state = value], and the one inner
    join against the facility table exactly when it reads from the sector
    facts: a query that reads from the facility table itself adds only
    the predicate. *)
Theorem state_filter_and_facility_join
    (op : operation) (body : gmap string pyval)
    (Hop : reads_state op = true)
    (Hplain : well_quoted (plan_of op body) = true) :
  let st := state_param body in
  let p := plan_of op body in
  if state_given st
  then quote_free (py_str st) = true
       /\ state_filters p = [PEq (Col F_state) (Lit (py_str st))]
       /\ facility_joins p
          = (if table_eqb (from p) T_FACILITIES then [] else [facility_join])
  else state_filters p = [] /\ facility_joins p = [].
Proof.
  intros st p. subst p.
  assert (state_given st = true -> quote_free (py_str st) = true) as Hst.
  { intros Hgiven. unfold well_quoted in Hplain.
    rewrite forallb_forall in Hplain.
    enough (pastable (py_str st) = true) as Hp
        by (apply andb_prop in Hp as [Hp _]; exact Hp).
    apply Hplain.
    unfold plan_literals. rewrite !in_app_iff. right. right. left.
    apply in_flat_map. exists (PEq (Col F_state) (Lit (py_str st))).
    split; [|left; reflexivity].
    destruct op as [| | | | |name| |level|all|]; try discriminate Hop;
      unfold plan_of, export_plan, plan_bar_sector, plan_map_markers,
        plan_map_overlay, plan_sectors_total_emissions, plan_sector_trend,
        plan_pie_sectors_emissions, plan_export_all_years,
        plan_export_single_year, state_filter;
      fold st; try destruct all; cbn [where_]; rewrite Hgiven;
      rewrite ?in_app_iff; cbn [In]; rewrite ?in_app_iff; cbn [In]; tauto. }
  destruct op as [| | | | |name| |level|all|]; try discriminate Hop;
    unfold plan_of, export_plan, plan_bar_sector, plan_map_markers,
      plan_map_overlay, plan_sectors_total_emissions, plan_sector_trend,
      plan_pie_sectors_emissions, plan_export_all_years,
      plan_export_single_year, state_filters, facility_joins,
      state_join, state_filter;
    fold st; try destruct all; try destruct name;
    try destruct (pie_sector level _);
    destruct (state_given st); repeat split; auto.
Qed.

Lemma state_filter_and_facility_join_witness :
  let body : gmap string pyval := {[ "state" := PStr "TX" ]} in
  let p := plan_of OpSectorsTotal body in
  quote_free "TX" = true
  /\ state_filters p = [PEq (Col F_state) (Lit "TX")]
  /\ facility_joins p = [facility_join].
Proof.
  refine (state_filter_and_facility_join OpSectorsTotal {[ "state" := PStr "TX" ]}
            eq_refl _).
  vm_compute. reflexivity.
Defined.

(** C2, as stated, fails on the map markers: the state predicate is added
    and no join against the facility table is. *)
Lemma map_markers_filter_without_join :
  let body : gmap string pyval := {[ "state" := PStr "TX" ]} in
  let p := plan_of OpMapMarkers body in
  reads_state OpMapMarkers = true
  /\ state_given (state_param body) = true
  /\ state_filters p = [PEq (Col F_state) (Lit "TX")]
  /\ length (facility_joins p) <> 1%nat.
Proof. vm_compute. repeat split; discriminate. Qed.

(** *** Rows of a query *)

(** A returned row is the projection of a group that passed HAVING. *)
Lemma execute_row_of_group (db : database) (p : plan)
    (rows : list (list sqlval)) (r : list sqlval) :
  distinct p = false ->
  execute db p = Some rows -> In r rows ->
  exists g, In g (grouped db p) /\ all_hold (having p) g = true
            /\ r = List.map (eval g) (select p).
Proof.
  intros Hd Hex Hr. unfold execute in Hex.
  destruct (_ || _); [discriminate|]. injection Hex as <-.
  assert (In r (projected db p)) as Hin.
  { destruct (limit p); [apply In_take in Hr|]; eapply In_drop, Hr. }
  unfold projected in Hin. rewrite Hd in Hin.
  apply in_map_iff in Hin as (g & <- & Hg).
  unfold ordered in Hg. apply sort_by_In, filter_In in Hg as [Hg Hh].
  eauto.
Qed.

Lemma ordered_sorted (db : database) (p : plan) :
  StronglySorted (fun g1 g2 => order_leb (order_by p) g1 g2 = true)
                 (ordered db p).
Proof.
  apply sort_by_sorted; [apply order_leb_total | apply order_leb_trans].
Qed.

(** *** Paging through the facilities *)


Lemma joined_facility_rows (db : database) (j : join) (rows : list env) (r : env) :
  j_table j <> T_FACILITIES ->
  (forall r0, In r0 rows -> exists f, ef r0 = Some f /\ In f (FACILITIES db)) ->
  In r (apply_join db rows j) ->
  exists f, ef r = Some f /\ In f (FACILITIES db).
Proof.
  intros Ht Hrows Hr. unfold apply_join in Hr.
  apply in_flat_map in Hr as (r0 & Hr0 & Hr).
  destruct (Hrows r0 Hr0) as (f & Hf & Hin).
  destruct (List.filter _ _) eqn:Hm.
  - destruct (j_kind j); simpl in Hr; [|tauto].
    destruct Hr as [<-|[]]. eauto.
  - rewrite <- Hm in Hr. apply filter_In in Hr as [Hr _].
    destruct (j_table j); try congruence; simpl in Hr;
      apply in_map_iff in Hr as (x & <- & _); simpl; eauto.
Qed.






(** *** The export of all years *)

Lemma export_all_years_rows (db : database) (st ds : pyval) :
  execute db (plan_export_all_years st ds)
  = Some (take (Z.to_nat export_row_cap)
               (projected db (plan_export_all_years st ds))).
Proof. reflexivity. Qed.

(** Every row of the all-years export has twelve cells and a total that is
    a number above zero. *)
Lemma export_all_years_row_shape (db : database) (st ds : pyval)
    (rows : list (list sqlval)) (r : list sqlval) :
  execute db (plan_export_all_years st ds) = Some rows -> In r rows ->
  length r = 12%nat
  /\ exists q, as_Q (at_ r 11) = Some q /\ (0 < q)%Q.
Proof.
  intros Hex Hr.
  destruct (execute_row_of_group db (plan_export_all_years st ds) rows r
              eq_refl Hex Hr) as (g & _ & Hh & ->).
  split; [reflexivity|].
  change (holds g (PGt export_total (LitInt 0)) && true = true) in Hh.
  rewrite andb_true_r in Hh. unfold holds, eval_pred in Hh.
  change (eval g (LitInt 0)) with (VInt 0) in Hh. unfold sql_gt in Hh.
  change (at_ (List.map (eval g) (select (plan_export_all_years st ds))) 11)
    with (eval g export_total).
  destruct (as_Q (eval g export_total)) as [q|]; [|discriminate].
  cbn [as_Q] in Hh.
  exists q. split; [reflexivity|].
  destruct (Qle_bool q (inject_Z 0)) eqn:Hq; [discriminate|].
  apply Qnot_le_lt. intros Hle. apply Qle_bool_iff in Hle.
  change (Qle_bool q (inject_Z 0) = true) in Hle. congruence.
Qed.

Lemma round_or_zero_number (v : sqlval) (q : Q) :
  as_Q v = Some q -> round_or_zero v = py_round q.
Proof.
  unfold round_or_zero. destruct v as [| |n|x]; try discriminate; simpl;
    intros [= <-].
  - destruct (Z.eqb_spec n 0) as [->|]; reflexivity.
  - destruct (Qeq_bool x 0) eqn:Hx; simpl; [|reflexivity].
    apply Qeq_bool_eq in Hx.
    apply Z.le_antisymm; [change 0 with (py_round 0) | change 0 with (py_round 0) at 1];
      apply py_round_mono; lra.
Qed.

Lemma cell_val_to_cell (v : sqlval) : cell_val (to_cell v) = v.
Proof. destruct v; reflexivity. Qed.

Lemma csv_line_cells (r : list sqlval) :
  length r = 12%nat ->
  List.map cell_val (csv_line true r)
  = take 11 r ++ [VInt (round_or_zero (at_ r 11))].
Proof.
  intros _. unfold csv_line. rewrite List.map_app, List.map_map. simpl.
  f_equal. rewrite <- (List.map_id (take 11 r)) at 2.
  apply List.map_ext, cell_val_to_cell.
Qed.

(** Rounding the totals keeps the order of two rows of the export. *)
Lemma csv_line_ordered (r1 r2 : list sqlval) (q1 q2 : Q) :
  length r1 = 12%nat -> length r2 = 12%nat ->
  as_Q (at_ r1 11) = Some q1 -> as_Q (at_ r2 11) = Some q2 ->
  rows_ordered [(0%nat, true); (11%nat, true)] r1 r2 = true ->
  rows_ordered [(0%nat, true); (11%nat, true)]
               (List.map cell_val (csv_line true r1))
               (List.map cell_val (csv_line true r2)) = true.
Proof.
  intros H1 H2 Hq1 Hq2. rewrite !csv_line_cells by assumption.
  rewrite (round_or_zero_number _ _ Hq1), (round_or_zero_number _ _ Hq2).
  do 12 (destruct r1 as [|? r1]; [discriminate|]).
  do 12 (destruct r2 as [|? r2]; [discriminate|]).
  unfold at_ in *. cbn [nth] in Hq1, Hq2.
  cbn [rows_ordered at_ nth take app].
  destruct (key_leb true s11 s); [|reflexivity].
  destruct (key_leb true s s11); [|discriminate].
  cbn [negb]. intros Horig.
  assert (key_leb true s10 s22 = true) as Hab.
  { destruct (key_leb_total true s10 s22) as [?|Hba]; [assumption|].
    rewrite Hba in Horig. cbn [negb] in Horig.
    destruct (key_leb true s10 s22); [reflexivity | discriminate]. }
  assert (key_leb true (VInt (py_round q1)) (VInt (py_round q2)) = true) as ->.
  { cbn. apply Qle_bool_iff. rewrite <- Zle_Qle. apply py_round_mono.
    destruct s10, s22; try discriminate; simpl in *; simplify_eq;
      by apply Qle_bool_iff. }
  destruct (key_leb true (VInt (py_round q2)) _); reflexivity.
Qed.

(** C4: the all-years export has LIMIT 25000 and no OFFSET.  For a state
    and a data source that hold no quote and no NUL character (the two
    values its query pastes), whatever the rest of the body and the other query
    parameters, it returns at most 25,000 data rows, ordered by year
    descending and then by summed emissions descending, and the handler
    answers 200 with a CSV whose data lines keep that number and, with
    the totals rounded, that order. *)
Theorem all_years_export_capped_and_ordered
    (db : database) (body : gmap string pyval) (query_params : gmap string string)
    (Hall : query_flag query_params "allReportingYears" = true)
    (Hplain : well_quoted (export_plan true body) = true) :
  let p := export_plan true body in
  let by_year_then_total := [(0%nat, true); (11%nat, true)] in
  limit p = Some 25000 /\ offset p = None
  /\ exists rows,
       execute db p = Some rows
       /\ Z.of_nat (length rows) <= 25000
       /\ StronglySorted (fun r1 r2 => rows_ordered by_year_then_total r1 r2 = true) rows
       /\ handle_export (inl db) body query_params
          = {| statusCode := 200;
               resp_body :=
                 CsvBody "ghg_emissions_all_years.csv"
                         (csv_header true :: List.map (csv_line true) rows) |}
       /\ length (data_lines (handle_export (inl db) body query_params)) = length rows
       /\ StronglySorted
            (fun l1 l2 => rows_ordered by_year_then_total
                            (List.map cell_val l1) (List.map cell_val l2) = true)
            (data_lines (handle_export (inl db) body query_params)).
Proof.
  intros p keys. split; [reflexivity|]. split; [reflexivity|].
  set (rows := take (Z.to_nat export_row_cap) (projected db p)).
  assert (execute db p = Some rows) as Hex by reflexivity.
  assert (StronglySorted (fun r1 r2 => rows_ordered keys r1 r2 = true) rows) as Hs.
  { apply StronglySorted_take. unfold projected.
    eapply StronglySorted_map_In; [|apply ordered_sorted].
    intros g1 g2 _ _ H. exact H. }
  assert (handle_export (inl db) body query_params
          = {| statusCode := 200;
               resp_body :=
                 CsvBody "ghg_emissions_all_years.csv"
                         (csv_header true :: List.map (csv_line true) rows) |}) as Hresp.
  { unfold handle_export. rewrite Hall. fold p. rewrite Hex. reflexivity. }
  exists rows. split; [exact Hex|]. split.
  { unfold rows. rewrite length_take. unfold export_row_cap. lia. }
  split; [exact Hs|]. split; [exact Hresp|].
  rewrite Hresp. unfold data_lines. cbn [resp_body].
  split; [apply length_map|].
  eapply StronglySorted_map_In; [|exact Hs].
  intros r1 r2 Hr1 Hr2 H.
  destruct (export_all_years_row_shape _ _ _ _ _ Hex Hr1) as (Hl1 & q1 & Hq1 & _).
  destruct (export_all_years_row_shape _ _ _ _ _ Hex Hr2) as (Hl2 & q2 & Hq2 & _).
  eapply csv_line_ordered; eauto.
Qed.

Lemma all_years_export_capped_and_ordered_witness :
  length (data_lines (handle_export (inl sample_db) ∅ {[ "allReportingYears" := "True" ]}))
  = 3%nat.
Proof.
  assert (query_flag {[ "allReportingYears" := "True" ]} "allReportingYears"
          = true) as Hall by (vm_compute; reflexivity).
  assert (well_quoted (export_plan true ∅) = true) as Hplain
    by (vm_compute; reflexivity).
  destruct (all_years_export_capped_and_ordered
              sample_db ∅ {[ "allReportingYears" := "True" ]} Hall Hplain)
    as (_ & _ & rows & Hex & _ & _ & _ & Hlen & _).
  rewrite Hlen. vm_compute in Hex. injection Hex as <-. reflexivity.
Defined.

(** *** GROUP BY *)

Lemma filter_nil_iff {A} (f : A -> bool) (l : list A) :
  List.filter f l = [] <-> forall x, In x l -> f x = false.
Proof.
  induction l as [|a l IH]; simpl; [tauto|].
  destruct (f a) eqn:Ha.
  - split; [discriminate|]. intros H. specialize (H a (or_introl eq_refl)). congruence.
  - rewrite IH. split; [intros H x [<-|Hx]; auto | auto].
Qed.

Lemma val_eqb_refl (v : sqlval) : val_eqb v v = true.
Proof.
  destruct v; simpl; auto using String.eqb_refl, Z.eqb_refl, Qeq_bool_refl.
Qed.

Lemma keys_eqb_refl (k : list sqlval) : keys_eqb k k = true.
Proof.
  unfold keys_eqb. rewrite Nat.eqb_refl. simpl.
  induction k as [|v k IH]; simpl; [reflexivity|].
  rewrite val_eqb_refl. exact IH.
Qed.

Lemma keys_eqb_cons (a b : sqlval) (k1 k2 : list sqlval) :
  keys_eqb (a :: k1) (b :: k2) = val_eqb a b && keys_eqb k1 k2.
Proof.
  unfold keys_eqb. simpl. destruct (Nat.eqb _ _), (val_eqb a b); reflexivity.
Qed.

Lemma group_insert_inv (k : list sqlval) (r : env)
    (gs : list (list sqlval * list env)) (k' : list sqlval) (g' : list env) :
  In (k', g') (group_insert k r gs) ->
  In (k', g') gs
  \/ (exists g0, In (k', g0) gs /\ g' = g0 ++ [r] /\ keys_eqb k' k = true)
  \/ (k' = k /\ g' = [r]).
Proof.
  induction gs as [|[k0 g0] gs IH]; simpl.
  - intros [[= <- <-]|[]]. auto.
  - destruct (keys_eqb k0 k) eqn:Hk; simpl.
    + intros [[= <- <-]|Hin]; [|auto].
      right; left. exists g0. auto.
    + intros [Heq|Hin]; [auto|].
      destruct (IH Hin) as [?|[(g1 & ? & ? & ?)|?]]; eauto 8.
Qed.

Lemma group_insert_new (k : list sqlval) (r : env)
    (gs : list (list sqlval * list env)) :
  exists k' g', In (k', g') (group_insert k r gs) /\ In r g'.
Proof.
  induction gs as [|[k0 g0] gs IH]; simpl.
  - exists k, [r]. simpl. auto.
  - destruct (keys_eqb k0 k).
    + exists k0, (g0 ++ [r]). split; [left; reflexivity|].
      apply in_or_app. simpl. auto.
    + destruct IH as (k' & g' & Hin & Hr). exists k', g'. simpl. auto.
Qed.

Lemma group_insert_old (k : list sqlval) (r : env)
    (gs : list (list sqlval * list env)) (k0 : list sqlval) (g0 : list env) :
  In (k0, g0) gs ->
  exists g1, In (k0, g1) (group_insert k r gs) /\ forall x, In x g0 -> In x g1.
Proof.
  induction gs as [|[k1 g1] gs IH]; simpl; [tauto|].
  intros [[= -> ->]|Hin].
  - destruct (keys_eqb k0 k).
    + exists (g0 ++ [r]). split; [left; reflexivity|].
      intros x Hx. apply in_or_app. auto.
    + exists g0. simpl. auto.
  - destruct (IH Hin) as (g2 & Hin2 & Hsub).
    destruct (keys_eqb k1 k); [exists g0 | exists g2]; simpl; auto.
Qed.

Section Grouping.

Variable keys : list expr.

Lemma group_insert_ok (gs : list (list sqlval * list env)) (seen : env -> Prop)
    (r : env) :
  groups_ok keys gs seen ->
  groups_ok keys (group_insert (key_of keys r) r gs) (fun x => seen x \/ x = r).
Proof.
  intros [Hcov Hgrp]. split.
  - intros x [Hx| ->]; [|apply group_insert_new].
    destruct (Hcov x Hx) as (k0 & g0 & Hin & Hxg).
    destruct (group_insert_old (key_of keys r) r gs k0 g0 Hin) as (g1 & ? & ?).
    eauto.
  - intros k' g' Hin.
    destruct (group_insert_inv _ _ _ _ _ Hin)
      as [Hold|[(g0 & Hold & -> & Hk)|[-> ->]]].
    + destruct (Hgrp _ _ Hold) as (r0 & rest & -> & -> & Hall).
      exists r0, rest. split; [reflexivity|]. split; [reflexivity|].
      intros x Hx. destruct (Hall x Hx). auto.
    + destruct (Hgrp _ _ Hold) as (r0 & rest & -> & -> & Hall).
      exists r0, (rest ++ [r]). split; [reflexivity|]. split; [reflexivity|].
      intros x Hx. change (In x ((r0 :: rest) ++ [r])) in Hx.
      apply in_app_or in Hx as [Hx|[->|[]]]; [destruct (Hall x Hx)|]; auto.
    + exists r, []. split; [reflexivity|]. split; [reflexivity|].
      intros x [->|[]]. split; [auto | apply keys_eqb_refl].
Qed.

Lemma fold_groups_ok (rows : list env) (gs : list (list sqlval * list env))
    (seen : env -> Prop) :
  groups_ok keys gs seen ->
  groups_ok keys (fold_left (fun gs r => group_insert (List.map (eval [r]) keys) r gs)
                       rows gs)
            (fun x => seen x \/ In x rows).
Proof.
  revert gs seen. induction rows as [|r rows IH]; intros gs seen Hok; simpl.
  - destruct Hok as [Hcov Hgrp]. split.
    + intros x [Hx|[]]. auto.
    + intros k g Hin. destruct (Hgrp k g Hin) as (r0 & rest & -> & -> & Hall).
      exists r0, rest. split; [reflexivity|]. split; [reflexivity|].
      intros x Hx. destruct (Hall x Hx). auto.
  - pose proof (IH _ _ (group_insert_ok gs seen r Hok)) as [Hcov Hgrp]. split.
    + intros x Hx. apply Hcov. destruct Hx as [?|[->|?]]; auto.
    + intros k g Hin. destruct (Hgrp k g Hin) as (r0 & rest & -> & -> & Hall).
      exists r0, rest. split; [reflexivity|]. split; [reflexivity|].
      intros x Hx. destruct (Hall x Hx) as [[[?| ->]|?] ?]; auto.
Qed.

(** Every row is in a group. *)
Lemma group_rows_cover (rows : list env) (r : env) :
  In r rows -> exists g, In g (group_rows keys rows) /\ In r g.
Proof.
  intros Hr.
  destruct (fold_groups_ok rows [] (fun _ => False)) as [Hcov _].
  { split; [tauto | intros ? ? []]. }
  destruct (Hcov r (or_intror Hr)) as (k & g & Hin & Hrg).
  exists g. split; [|exact Hrg].
  unfold group_rows. apply in_map_iff. exists (k, g). auto.
Qed.

(** A group is a first row followed by rows with a key equal to its
    own. *)
Lemma group_rows_members (rows : list env) (g : list env) :
  In g (group_rows keys rows) ->
  exists r0 rest, g = r0 :: rest
    /\ forall r, In r g ->
         In r rows /\ keys_eqb (key_of keys r0) (key_of keys r) = true.
Proof.
  intros Hg. unfold group_rows in Hg.
  apply in_map_iff in Hg as ([k g'] & <- & Hin).
  destruct (fold_groups_ok rows [] (fun _ => False)) as [_ Hgrp].
  { split; [tauto | intros ? ? []]. }
  destruct (Hgrp k g' Hin) as (r0 & rest & -> & -> & Hall).
  exists r0, rest. split; [reflexivity|].
  intros r Hr. destruct (Hall r Hr) as [[[]|?] ?]. auto.
Qed.

End Grouping.
Abbreviation differ := (fun a b : list sqlval => keys_eqb a b = false).

Lemma group_insert_keys_Forall (P : list sqlval -> Prop) (k : list sqlval) (r : env)
    (gs : list (list sqlval * list env)) :
  Forall P (List.map fst gs) -> P k ->
  Forall P (List.map fst (group_insert k r gs)).
Proof.
  intros Hgs Hk. induction gs as [|[k0 g0] gs IH]; cbn [group_insert List.map fst].
  - constructor; [exact Hk|constructor].
  - cbn [List.map fst] in Hgs. apply List.Forall_cons_iff in Hgs as [H0 Hgs].
    destruct (keys_eqb k0 k); cbn [List.map fst]; constructor; auto.
Qed.

Lemma group_insert_distinct (k : list sqlval) (r : env)
    (gs : list (list sqlval * list env)) :
  pairwise differ (List.map fst gs) ->
  pairwise differ (List.map fst (group_insert k r gs)).
Proof.
  induction gs as [|[k0 g0] gs IH]; cbn [group_insert List.map fst pairwise].
  - intros _. split; [constructor|exact I].
  - intros [H0 Hgs]. destruct (keys_eqb k0 k) eqn:Hk; cbn [List.map fst pairwise].
    + split; assumption.
    + split; [|auto]. apply group_insert_keys_Forall; assumption.
Qed.

Lemma fold_distinct (keys : list expr) (rows : list env)
    (gs : list (list sqlval * list env)) :
  pairwise differ (List.map fst gs) ->
  pairwise differ
    (List.map fst (fold_left (fun gs r => group_insert (List.map (eval [r]) keys) r gs)
                             rows gs)).
Proof.
  revert gs. induction rows as [|r rows IH]; intros gs Hgs; cbn [fold_left]; [exact Hgs|].
  apply IH, group_insert_distinct, Hgs.
Qed.

(** Equality of keys is an equivalence. *)
Lemma Qeq_bool_sym (x y : Q) : Qeq_bool x y = Qeq_bool y x.
Proof.
  apply eq_true_iff_eq. rewrite !Qeq_bool_iff. split; intros H; symmetry; exact H.
Qed.

Lemma val_eqb_sym (a b : sqlval) : val_eqb a b = val_eqb b a.
Proof.
  destruct a, b; simpl;
    auto using String.eqb_sym, Z.eqb_sym, Qeq_bool_sym.
Qed.

Lemma val_eqb_trans (a b c : sqlval) :
  val_eqb a b = true -> val_eqb b c = true -> val_eqb a c = true.
Proof.
  destruct a, b, c; simpl; try discriminate; try reflexivity; intros H1 H2;
    repeat match goal with
           | H : String.eqb _ _ = true |- _ => apply String.eqb_eq in H
           | H : Z.eqb _ _ = true |- _ => apply Z.eqb_eq in H
           | H : Qeq_bool _ _ = true |- _ => apply Qeq_bool_iff in H
           end;
    subst; rewrite ?String.eqb_refl, ?Z.eqb_refl; try reflexivity;
    try (apply Qeq_bool_iff; assumption);
    try (apply Qeq_bool_iff; etransitivity; eassumption);
    try (apply Z.eqb_eq, inject_Z_injective; etransitivity; eassumption).
Qed.

Lemma keys_eqb_nil_cons (b : sqlval) (k : list sqlval) :
  keys_eqb [] (b :: k) = false /\ keys_eqb (b :: k) [] = false.
Proof. split; reflexivity. Qed.

Lemma keys_eqb_sym (k1 k2 : list sqlval) : keys_eqb k1 k2 = keys_eqb k2 k1.
Proof.
  revert k2. induction k1 as [|a k1 IH]; intros [|b k2]; try reflexivity.
  rewrite !keys_eqb_cons, IH, val_eqb_sym. reflexivity.
Qed.

Lemma keys_eqb_trans (k1 k2 k3 : list sqlval) :
  keys_eqb k1 k2 = true -> keys_eqb k2 k3 = true -> keys_eqb k1 k3 = true.
Proof.
  revert k2 k3. induction k1 as [|a k1 IH]; intros [|b k2] [|c k3];
    try discriminate; try reflexivity.
  rewrite !keys_eqb_cons. intros H1 H2.
  apply andb_prop in H1 as [Hab H1]. apply andb_prop in H2 as [Hbc H2].
  rewrite (val_eqb_trans a b c Hab Hbc), (IH k2 k3 H1 H2). reflexivity.
Qed.

(** Equal keys match the same keys. *)
Lemma keys_eqb_same (k1 k2 k : list sqlval) :
  keys_eqb k1 k2 = true -> keys_eqb k1 k = keys_eqb k2 k.
Proof.
  intros H12. destruct (keys_eqb k2 k) eqn:H2.
  - eapply keys_eqb_trans; eassumption.
  - destruct (keys_eqb k1 k) eqn:H1; [|reflexivity].
    rewrite <- H2. symmetry. eapply keys_eqb_trans; [|exact H1].
    rewrite keys_eqb_sym. exact H12.
Qed.

Lemma pairwise_middle {A} (R : A -> A -> Prop) (l1 l2 : list A) (x : A) :
  pairwise R (l1 ++ x :: l2) ->
  Forall (fun y => R y x) l1 /\ Forall (R x) l2.
Proof.
  induction l1 as [|y l1 IH]; cbn [app pairwise].
  - intros [H _]. split; [constructor | exact H].
  - intros [Hy H]. destruct (IH H) as [H1 H2]. split; [|exact H2].
    constructor; [|exact H1].
    rewrite List.Forall_forall in Hy. apply Hy, in_or_app. right. left. reflexivity.
Qed.

Lemma pairwise_snoc {A} (R : A -> A -> Prop) (l : list A) (x : A) :
  pairwise R l -> Forall (fun y => R y x) l -> pairwise R (l ++ [x]).
Proof.
  induction l as [|y l IH]; cbn [app pairwise].
  - intros _ _. split; [constructor | exact I].
  - intros [Hy H] Hx. apply List.Forall_cons_iff in Hx as [Hyx Hx].
    split; [|auto]. apply List.Forall_app. split; [exact Hy|].
    constructor; [exact Hyx | constructor].
Qed.

(** What [group_insert] does: it adds the row to the one group of its
    key, or opens a group for it behind the others. *)
Lemma group_insert_cases (k : list sqlval) (r : env)
    (gs : list (list sqlval * list env)) :
  (exists gs1 k0 g0 gs2,
     gs = gs1 ++ (k0, g0) :: gs2 /\ keys_eqb k0 k = true
     /\ Forall (fun e => keys_eqb (fst e) k = false) gs1
     /\ group_insert k r gs = gs1 ++ (k0, g0 ++ [r]) :: gs2)
  \/ (Forall (fun e => keys_eqb (fst e) k = false) gs
      /\ group_insert k r gs = gs ++ [(k, [r])]).
Proof.
  induction gs as [|[k0 g0] gs IH]; cbn [group_insert].
  - right. split; [constructor | reflexivity].
  - destruct (keys_eqb k0 k) eqn:Hk.
    + left. exists [], k0, g0, gs. repeat split; [exact Hk | constructor].
    + destruct IH as [(gs1 & k1 & g1 & gs2 & -> & Hk1 & Hgs1 & ->)|[Hgs ->]].
      * left. exists ((k0, g0) :: gs1), k1, g1, gs2.
        repeat split; [exact Hk1 | constructor; assumption].
      * right. split; [constructor; assumption | reflexivity].
Qed.

Section GroupsAsFilters.

Variable keys : list expr.

Abbreviation matching k := (fun r : env => keys_eqb k (key_of keys r)).

Lemma group_insert_filter (gs : list (list sqlval * list env)) (seen : list env)
    (r : env) :
  pairwise differ (List.map fst gs) ->
  (forall k g, In (k, g) gs ->
     (exists r0, In r0 seen /\ k = key_of keys r0)
     /\ g = List.filter (matching k) seen) ->
  (forall x, In x seen -> exists k g, In (k, g) gs /\ matching k x = true) ->
  let gs' := group_insert (key_of keys r) r gs in
  (forall k g, In (k, g) gs' ->
     (exists r0, In r0 (seen ++ [r]) /\ k = key_of keys r0)
     /\ g = List.filter (matching k) (seen ++ [r]))
  /\ (forall x, In x (seen ++ [r]) -> exists k g, In (k, g) gs' /\ matching k x = true).
Proof.
  intros Hd Hgrp Hcov gs'. subst gs'.
  assert (forall k g, In (k, g) gs -> keys_eqb k (key_of keys r) = false ->
            (exists r0, In r0 (seen ++ [r]) /\ k = key_of keys r0)
            /\ g = List.filter (matching k) (seen ++ [r])) as Hold.
  { intros k g Hin Hk. destruct (Hgrp k g Hin) as [(r0 & Hr0 & ->) Hg].
    split; [exists r0; split; [apply in_or_app; auto | reflexivity]|].
    rewrite List.filter_app. cbn [List.filter]. rewrite Hk, app_nil_r. exact Hg. }
  destruct (group_insert_cases (key_of keys r) r gs)
    as [(gs1 & k0 & g0 & gs2 & -> & Hk0 & Hgs1 & ->)|[Hgs ->]].
  - rewrite List.map_app in Hd. cbn [List.map fst] in Hd.
    apply pairwise_middle in Hd as [_ Hd2].
    assert (forall e, In e gs2 -> keys_eqb (fst e) (key_of keys r) = false) as Hgs2.
    { intros e He. rewrite List.Forall_forall in Hd2.
      specialize (Hd2 (fst e) (in_map fst _ _ He)). cbn beta in Hd2.
      destruct (keys_eqb (fst e) (key_of keys r)) eqn:Hek; [|reflexivity].
      rewrite <- Hd2. symmetry. eapply keys_eqb_trans; [exact Hk0|].
      rewrite keys_eqb_sym. exact Hek. }
    rewrite List.Forall_forall in Hgs1. split.
    + intros k g Hin. apply in_app_or in Hin as [Hin|[[= <- <-]|Hin]].
      * apply Hold; [apply in_or_app; auto | apply (Hgs1 _ Hin)].
      * destruct (Hgrp k0 g0) as [(r0 & Hr0 & ->) Hg];
          [apply in_or_app; right; left; reflexivity|].
        split; [exists r0; split; [apply in_or_app; auto | reflexivity]|].
        rewrite List.filter_app. cbn [List.filter]. rewrite Hk0, <- Hg. reflexivity.
      * apply Hold; [apply in_or_app; right; right; exact Hin | apply (Hgs2 _ Hin)].
    + intros x Hx. apply in_app_or in Hx as [Hx|[<-|[]]].
      * destruct (Hcov x Hx) as (k & g & Hin & Hm).
        apply in_app_or in Hin as [Hin|[[= <- <-]|Hin]].
        -- exists k, g. split; [apply in_or_app; auto | exact Hm].
        -- exists k0, (g0 ++ [r]).
           split; [apply in_or_app; right; left; reflexivity | exact Hm].
        -- exists k, g. split; [apply in_or_app; right; right; exact Hin | exact Hm].
      * exists k0, (g0 ++ [r]).
        split; [apply in_or_app; right; left; reflexivity | exact Hk0].
  - rewrite List.Forall_forall in Hgs. split.
    + intros k g Hin. apply in_app_or in Hin as [Hin|[[= <- <-]|[]]].
      * apply Hold; [exact Hin | apply (Hgs _ Hin)].
      * split; [exists r; split; [apply in_or_app; right; left|]; reflexivity|].
        rewrite List.filter_app. cbn [List.filter]. rewrite keys_eqb_refl.
        assert (List.filter (matching (key_of keys r)) seen = []) as ->;
          [|reflexivity].
        apply filter_nil_iff. intros x Hx.
        destruct (Hcov x Hx) as (k & g & Hin & Hm). cbn beta in Hm |- *.
        destruct (keys_eqb (key_of keys r) (key_of keys x)) eqn:Hrx; [|reflexivity].
        rewrite <- (Hgs _ Hin). cbn [fst]. symmetry.
        eapply keys_eqb_trans; [exact Hm|].
        rewrite keys_eqb_sym. exact Hrx.
    + intros x Hx. apply in_app_or in Hx as [Hx|[<-|[]]].
      * destruct (Hcov x Hx) as (k & g & Hin & Hm).
        exists k, g. split; [apply in_or_app; auto | exact Hm].
      * exists (key_of keys r), [r].
        split; [apply in_or_app; right; left; reflexivity | apply keys_eqb_refl].
Qed.

Lemma fold_groups_filter (rows : list env) (gs : list (list sqlval * list env))
    (seen : list env) :
  pairwise differ (List.map fst gs) ->
  (forall k g, In (k, g) gs ->
     (exists r0, In r0 seen /\ k = key_of keys r0)
     /\ g = List.filter (matching k) seen) ->
  (forall x, In x seen -> exists k g, In (k, g) gs /\ matching k x = true) ->
  forall k g,
    In (k, g) (fold_left (fun gs r => group_insert (List.map (eval [r]) keys) r gs)
                         rows gs) ->
    (exists r0, In r0 (seen ++ rows) /\ k = key_of keys r0)
    /\ g = List.filter (matching k) (seen ++ rows).
Proof.
  revert gs seen. induction rows as [|r rows IH]; intros gs seen Hd Hgrp Hcov k g;
    cbn [fold_left].
  - rewrite app_nil_r. apply Hgrp.
  - intros Hin.
    destruct (group_insert_filter gs seen r Hd Hgrp Hcov) as [Hgrp' Hcov'].
    replace (seen ++ r :: rows) with ((seen ++ [r]) ++ rows)
      by (rewrite <- List.app_assoc; reflexivity).
    eapply IH; [apply group_insert_distinct, Hd | exact Hgrp' | exact Hcov' | exact Hin].
Qed.

(** A group is the rows whose key equals that of its first row, in the
    order of the rows. *)
Lemma group_rows_filter (rows : list env) (g : list env) :
  In g (group_rows keys rows) ->
  exists r0 rest, g = r0 :: rest /\ In r0 rows
    /\ g = List.filter (matching (key_of keys r0)) rows.
Proof.
  intros Hg.
  destruct (group_rows_members keys rows g Hg) as (r0 & rest & -> & Hall).
  exists r0, rest. split; [reflexivity|].
  destruct (Hall r0 (or_introl eq_refl)) as [Hr0 _]. split; [exact Hr0|].
  unfold group_rows in Hg. apply in_map_iff in Hg as ([k g'] & Hs & Hin).
  cbn [snd] in Hs. subst g'.
  destruct (fold_groups_filter rows [] [] I) with (k := k) (g := r0 :: rest)
    as [(r1 & _ & ->) Hfilter]; [intros ? ? [] | intros ? [] | exact Hin |].
  cbn [app] in Hfilter. rewrite Hfilter at 1.
  apply List.filter_ext. intros x.
  assert (In r0 (List.filter (matching (key_of keys r1)) rows)) as Hin0
      by (rewrite <- Hfilter; left; reflexivity).
  apply filter_In in Hin0 as [_ Hm]. cbn beta in Hm.
  apply keys_eqb_same, Hm.
Qed.

End GroupsAsFilters.

(** *** The exports and facilities without emissions *)

Abbreviation export_joined db ds :=
  (apply_join db (table_rows db T_FACILITIES empty_env) (export_join ds)).

(** The rows of the LEFT JOIN of the exports: a facility row alone when no
    emission row matches it, else the facility row with each match. *)
Lemma export_joined_rows (db : database) (ds : pyval) (r : env) :
  In r (export_joined db ds) <->
  exists f, In f (FACILITIES db)
    /\ ((r = facility_env f
         /\ forall s, In s (SECTOR db) -> export_match ds f s = false)
        \/ exists s, In s (SECTOR db) /\ export_match ds f s = true
                     /\ r = {| ef := Some f; es := Some s; ed := None; ea := None |}).
Proof.
  unfold apply_join. rewrite in_flat_map. cbn [table_rows j_table export_join].
  split.
  - intros (r0 & Hr0 & Hr). apply in_map_iff in Hr0 as (f & <- & Hf).
    exists f. split; [exact Hf|]. cbn [ef es ed ea empty_env] in Hr.
    destruct (List.filter _ _) eqn:Hm.
    + cbn in Hr. destruct Hr as [<-|[]]. left. split; [reflexivity|].
      intros s Hs. rewrite filter_nil_iff in Hm.
      apply (Hm {| ef := Some f; es := Some s; ed := None; ea := None |}).
      apply in_map_iff. eauto.
    + rewrite <- Hm in Hr. apply filter_In in Hr as [Hr Hon].
      apply in_map_iff in Hr as (s & <- & Hs). right. exists s. auto.
  - intros (f & Hf & Hcase). exists (facility_env f).
    split; [apply in_map_iff; eauto|]. cbn [ef es ed ea facility_env].
    destruct Hcase as [[-> Hnone]|(s & Hs & Hon & ->)].
    + assert (List.filter
                (fun r' => all_hold (j_on (export_join ds)) [r'])
                (List.map (fun x => {| ef := Some f; es := Some x; ed := None; ea := None |})
                          (SECTOR db)) = []) as ->.
      { apply filter_nil_iff. intros x Hx.
        apply in_map_iff in Hx as (s & <- & Hs). apply Hnone, Hs. }
      left. reflexivity.
    + assert (In {| ef := Some f; es := Some s; ed := None; ea := None |}
                 (List.filter
                    (fun r' => all_hold (j_on (export_join ds)) [r'])
                    (List.map (fun x => {| ef := Some f; es := Some x; ed := None; ea := None |})
                              (SECTOR db)))) as Hin.
      { apply filter_In. split; [apply in_map_iff; eauto | exact Hon]. }
      destruct (List.filter _ _); [destruct Hin | exact Hin].
Qed.

Lemma export_match_same (ds : pyval) (f f' : fac_row) (s : sec_row) :
  facility_id f' = facility_id f -> year f' = year f ->
  export_match ds f' s = export_match ds f s.
Proof.
  intros Hid Hy. unfold export_match, all_hold, holds. cbn.
  rewrite Hid, Hy. reflexivity.
Qed.

Lemma txt_inj (a b : option string) : txt a = txt b -> a = b.
Proof. destruct a, b; simpl; congruence. Qed.

Lemma txt_eqb (a b : option string) : val_eqb (txt a) (txt b) = true -> a = b.
Proof.
  destruct a, b; simpl; try discriminate; [|reflexivity].
  intros H. apply String.eqb_eq in H. congruence.
Qed.

Lemma same_text (v : sqlval) (a b : option string) :
  val_eqb v (txt a) = true -> val_eqb v (txt b) = true -> txt a = txt b.
Proof.
  destruct v, a, b; simpl; try discriminate; try reflexivity.
  intros H1 H2. apply String.eqb_eq in H1, H2. congruence.
Qed.

Lemma sql_sum_nulls (vs : list sqlval) :
  (forall v, In v vs -> v = VNull) -> sql_sum vs = VNull.
Proof.
  intros H. unfold sql_sum.
  assert (omap as_Q vs = []) as ->; [|reflexivity].
  induction vs as [|v vs IH]; [reflexivity|].
  cbn. rewrite (H v (or_introl eq_refl)). cbn. apply IH.
  intros w Hw. apply H. right. exact Hw.
Qed.

(** A group of the export made of rows of one facility and year for which
    no emission row matches has the total 0. *)
Lemma zero_total_group (db : database) (ds : pyval) (f : fac_row) (g : list env) :
  (forall s, In s (SECTOR db) -> export_match ds f s = false) ->
  (forall r, In r g ->
     In r (export_joined db ds)
     /\ col_val r F_facility_id = txt (facility_id f)
     /\ col_val r F_year = txt (year f)) ->
  eval g export_total = VInt 0.
Proof.
  intros Hnone Hg.
  assert (forall r, In r g -> es r = None) as Hes.
  { intros r Hr. destruct (Hg r Hr) as (Hj & Hid & Hy).
    apply export_joined_rows in Hj as (f' & _ & [[-> _]|(s & Hs & Hon & ->)]);
      [reflexivity|].
    cbn in Hid, Hy. apply txt_inj in Hid, Hy.
    rewrite (export_match_same ds f f' s Hid Hy) in Hon.
    rewrite (Hnone s Hs) in Hon. discriminate. }
  unfold export_total, total_emissions. cbn [eval].
  rewrite sql_sum_nulls; [reflexivity|].
  intros v Hv. apply in_map_iff in Hv as (r & <- & Hr).
  cbn. rewrite (Hes r Hr). reflexivity.
Qed.

Lemma eval_columns_head (r0 : env) (rest : list env) (cs : list expr) :
  Forall (fun e => exists c, e = Col c) cs ->
  List.map (eval (r0 :: rest)) cs = key_of cs r0.
Proof.
  intros H. unfold key_of. apply List.map_ext_in. intros e He.
  rewrite Forall_forall in H. apply list_elem_of_In in He.
  destruct (H e He) as [c ->]. reflexivity.
Qed.

Lemma export_columns_plain : Forall (fun e => exists c, e = Col c) export_columns.
Proof. unfold export_columns. repeat constructor; eauto. Qed.

Lemma where_state_filter (st : pyval) (f : fac_row) (r : env) :
  ef r = Some f ->
  state_given st = false \/ state f = Some (py_str st) ->
  all_hold (state_filter st) [r] = true.
Proof.
  intros Hf Hst. unfold state_filter.
  destruct (state_given st); [|reflexivity].
  destruct Hst as [?|Hst]; [discriminate|].
  unfold all_hold, holds. cbn. rewrite Hf. cbn. rewrite Hst. cbn.
  unfold sql_eq. cbn. rewrite String.eqb_refl. reflexivity.
Qed.

Lemma where_year (y : string) (f : fac_row) (r : env) :
  ef r = Some f ->
  holds [r] (PEq (Col F_year) (Lit y)) = true <-> year f = Some y.
Proof.
  intros Hf. unfold holds. cbn. rewrite Hf. cbn.
  destruct (year f) as [y'|]; cbn; [|split; discriminate].
  unfold sql_eq. cbn. destruct (String.eqb_spec y' y); split; congruence.
Qed.

(** The rows of a group of an export are joined rows that passed WHERE,
    with the facility id of the first row of the group. *)
Lemma export_group_rows (db : database) (p : plan) (ds : pyval)
    (cols : list expr) (g : list env) :
  from p = T_FACILITIES -> joins p = [export_join ds] ->
  group_by p = Some cols ->
  In g (grouped db p) ->
  exists r0 rest, g = r0 :: rest
    /\ forall r, In r g ->
         In r (export_joined db ds)
         /\ all_hold (where_ p) [r] = true
         /\ keys_eqb (key_of cols r0) (key_of cols r) = true.
Proof.
  intros Hfrom Hjoins Hgroup Hg. unfold grouped in Hg. rewrite Hgroup in Hg.
  destruct (group_rows_members cols _ g Hg) as (r0 & rest & -> & Hall).
  exists r0, rest. split; [reflexivity|].
  intros r Hr. destruct (Hall r Hr) as [Hin Hk].
  unfold filtered in Hin. apply filter_In in Hin as [Hin Hw].
  unfold joined in Hin. rewrite Hjoins, Hfrom in Hin.
  auto.
Qed.

Lemma filter_filter_ext {A} (f1 g1 f2 g2 : A -> bool) (l : list A) :
  (forall x, In x l -> g1 x && f1 x = g2 x && f2 x) ->
  List.filter f1 (List.filter g1 l) = List.filter f2 (List.filter g2 l).
Proof.
  induction l as [|a l IH]; intros H; [reflexivity|].
  pose proof (H a (or_introl eq_refl)) as Ha.
  assert (List.filter f1 (List.filter g1 l) = List.filter f2 (List.filter g2 l))
    as IH' by (apply IH; intros x Hx; apply H; right; exact Hx).
  cbn [List.filter].
  destruct (g1 a), (g2 a); cbn [List.filter andb] in *;
    destruct (f1 a), (f2 a); try discriminate Ha; rewrite IH'; reflexivity.
Qed.

(** A group of the all-years export and one of the single-year export
    with the same columns, the first of the requested year, hold the same
    joined rows. *)
Lemma export_groups_agree (db : database) (ry st ds : pyval) (r0 r1 : env) :
  keys_eqb (key_of (Col F_year :: export_columns) r1)
           (VStr (py_str ry) :: key_of export_columns r0) = true ->
  List.filter (fun r => keys_eqb (key_of (Col F_year :: export_columns) r1)
                                 (key_of (Col F_year :: export_columns) r))
              (filtered db (plan_export_all_years st ds))
  = List.filter (fun r => keys_eqb (key_of export_columns r0)
                                   (key_of export_columns r))
                (filtered db (plan_export_single_year ry st ds)).
Proof.
  intros Hkey. unfold filtered.
  change (joined db (plan_export_all_years st ds)) with (export_joined db ds).
  change (joined db (plan_export_single_year ry st ds)) with (export_joined db ds).
  apply filter_filter_ext. intros r _.
  change (all_hold (where_ (plan_export_all_years st ds)) [r])
    with (all_hold (state_filter st) [r]).
  change (all_hold (where_ (plan_export_single_year ry st ds)) [r])
    with (holds [r] (PEq (Col F_year) (Lit (py_str ry)))
          && all_hold (state_filter st) [r]).
  change (key_of (Col F_year :: export_columns) r1)
    with (col_val r1 F_year :: key_of export_columns r1) in *.
  change (key_of (Col F_year :: export_columns) r)
    with (col_val r F_year :: key_of export_columns r).
  rewrite keys_eqb_cons in Hkey |- *. apply andb_prop in Hkey as [Hy Hcols].
  rewrite (keys_eqb_same _ _ (key_of export_columns r) Hcols).
  assert (val_eqb (col_val r1 F_year) (col_val r F_year)
          = holds [r] (PEq (Col F_year) (Lit (py_str ry)))) as ->.
  { rewrite (val_eqb_sym (col_val r1 F_year)) in Hy.
    destruct (col_val r1 F_year) as [|y1| |] eqn:Hy1; try discriminate Hy.
    cbn in Hy. apply String.eqb_eq in Hy. subst y1.
    unfold holds, eval_pred, sql_eq. cbn [eval].
    destruct (col_val r F_year); cbn; try reflexivity.
    rewrite String.eqb_sym. destruct (String.eqb _ _); reflexivity. }
  destruct (holds _ _), (all_hold _ _), (keys_eqb _ _); reflexivity.
Qed.

(** The group of a row of an export: the joined rows that passed WHERE
    and have the columns of its first row. *)
Lemma export_group_filter (db : database) (p : plan) (cols : list expr)
    (g : list env) :
  group_by p = Some cols -> In g (grouped db p) ->
  exists r0 rest, g = r0 :: rest /\ In r0 (filtered db p)
    /\ g = List.filter (fun r => keys_eqb (key_of cols r0) (key_of cols r))
                       (filtered db p).
Proof.
  intros Hgroup Hg. unfold grouped in Hg. rewrite Hgroup in Hg.
  apply group_rows_filter, Hg.
Qed.

(** C10: the all-years export has the clause HAVING total_emissions > 0,
    and the single-year export has none.  For request values that hold
    no quote and no NUL character: every row of the all-years export has a total above zero;
    the single-year export has a row for each facility row of the year
    (and of the state, when one is asked for); a row of it whose total is
    zero is written with the value 0, and the all-years export has no
    row with its columns and the year; and the row of a facility row that
    no emission row matches has the total 0.  (The totals are the exact
    sums.) *)
Theorem zero_totals_dropped_from_all_years_only
    (db : database) (body : gmap string pyval)
    (all_years single_year : gmap string string)
    (Hall : query_flag all_years "allReportingYears" = true)
    (Hsingle : query_flag single_year "allReportingYears" = false)
    (Hplain_all : well_quoted (export_plan true body) = true)
    (Hplain_one : well_quoted (export_plan false body) = true) :
  let ry := py_str (reportingYear body) in
  let wanted (f : fac_row) :=
    year f = Some ry
    /\ (state_given (state_param body) = false
        \/ state f = Some (py_str (state_param body))) in
  having (export_plan true body) = [PGt export_total (LitInt 0)]
  /\ having (export_plan false body) = []
  /\ exists all_rows year_rows,
       execute db (export_plan true body) = Some all_rows
       /\ execute db (export_plan false body) = Some year_rows
       /\ data_lines (handle_export (inl db) body all_years)
          = List.map (csv_line true) all_rows
       /\ data_lines (handle_export (inl db) body single_year)
          = List.map (csv_line false) year_rows
       /\ (forall row, In row all_rows ->
             exists q, as_Q (at_ row 11) = Some q /\ (0 < q)%Q)
       /\ (forall f, In f (FACILITIES db) -> wanted f ->
             exists row,
               In row year_rows
               /\ keys_eqb (take 10 row) (key_of export_columns (facility_env f))
                  = true)
       /\ (forall row q,
             In row year_rows -> as_Q (at_ row 10) = Some q -> (q == 0)%Q ->
             csv_line false row = List.map to_cell (take 10 row) ++ [CInt 0]
             /\ forall row', In row' all_rows ->
                  keys_eqb (take 11 row') (VStr ry :: take 10 row) = false)
       /\ (forall f row,
             In f (FACILITIES db) -> wanted f ->
             (forall s, In s (SECTOR db) ->
                        export_match (dataSource body) f s = false) ->
             In row year_rows ->
             keys_eqb (take 10 row) (key_of export_columns (facility_env f)) = true ->
             at_ row 10 = VInt 0).
Proof.
  intros ry0 wanted.
  set (st := state_param body) in *. set (ds := dataSource body) in *.
  set (ry := reportingYear body) in *.
  split; [reflexivity|]. split; [reflexivity|].
  set (pa := plan_export_all_years st ds).
  set (p := plan_export_single_year ry st ds).
  change (export_plan true body) with pa in *.
  change (export_plan false body) with p in *.
  destruct (execute db pa) as [all_rows|] eqn:Hexa; [|discriminate].
  assert (execute db p = Some (projected db p)) as Hex by reflexivity.
  assert (forall row, In row (projected db p) ->
            exists r0 rest,
              In (r0 :: rest) (grouped db p)
              /\ row = List.map (eval (r0 :: rest)) (select p)
              /\ In r0 (filtered db p)
              /\ r0 :: rest
                 = List.filter (fun r => keys_eqb (key_of export_columns r0)
                                                  (key_of export_columns r))
                               (filtered db p)) as Hrows.
  { intros row Hrow.
    destruct (execute_row_of_group db p _ row eq_refl Hex Hrow) as (g & Hg & _ & ->).
    destruct (export_group_filter db p export_columns g eq_refl Hg)
      as (r0 & rest & -> & Hr0 & Hfilter).
    exists r0, rest. auto. }
  exists all_rows, (projected db p).
  split; [reflexivity|]. split; [exact Hex|]. split.
  { unfold handle_export. rewrite Hall.
    change (export_plan true body) with pa. rewrite Hexa. reflexivity. }
  split.
  { unfold handle_export. rewrite Hsingle.
    change (export_plan false body) with p. rewrite Hex. reflexivity. }
  split.
  { intros row Hrow. eapply export_all_years_row_shape; eauto. }
  split.
  { (* every facility row asked for has its row *)
    intros f Hf [Hyear Hstate].
    assert (all_hold (where_ p) [facility_env f] = true
            /\ forall r, ef r = Some f -> all_hold (where_ p) [r] = true)
      as [_ Hwhere].
    { assert (forall r, ef r = Some f -> all_hold (where_ p) [r] = true) as H.
      { intros r Hr.
        change (holds [r] (PEq (Col F_year) (Lit (py_str ry)))
                && all_hold (state_filter st) [r] = true).
        apply andb_true_intro. split.
        - apply (where_year _ f); [exact Hr | exact Hyear].
        - apply (where_state_filter st f); [exact Hr | exact Hstate]. }
      split; [apply H; reflexivity | exact H]. }
    assert (exists r, In r (filtered db p) /\ ef r = Some f) as (r & Hr & Hef).
    { destruct (List.filter (fun s => export_match ds f s) (SECTOR db))
        as [|s ms] eqn:Hm.
      - exists (facility_env f). split; [|reflexivity].
        unfold filtered. apply filter_In. split; [|apply Hwhere; reflexivity].
        apply export_joined_rows. exists f. split; [exact Hf|]. left.
        split; [reflexivity|]. apply filter_nil_iff, Hm.
      - assert (In s (List.filter (fun s => export_match ds f s) (SECTOR db)))
          as Hs by (rewrite Hm; left; reflexivity).
        apply filter_In in Hs as [Hs Hon].
        exists {| ef := Some f; es := Some s; ed := None; ea := None |}.
        split; [|reflexivity].
        unfold filtered. apply filter_In. split; [|apply Hwhere; reflexivity].
        apply export_joined_rows. exists f. split; [exact Hf|]. right.
        exists s. auto. }
    destruct (group_rows_cover export_columns _ _ Hr) as (g & Hg & Hin).
    change (group_rows export_columns (filtered db p)) with (grouped db p) in Hg.
    destruct (export_group_rows db p ds export_columns g
                eq_refl eq_refl eq_refl Hg) as (r0 & rest & -> & Hmem).
    exists (List.map (eval (r0 :: rest)) (select p)). split.
    { change (projected db p)
        with (List.map (fun g => List.map (eval g) (select p)) (ordered db p)).
      apply (in_map (fun g => List.map (eval g) (select p))).
      unfold ordered. apply sort_by_In, filter_In. auto. }
    change (take 10 (List.map (eval (r0 :: rest)) (select p)))
      with (key_of export_columns r0).
    destruct (Hmem _ Hin) as (_ & _ & Hk).
    replace (key_of export_columns (facility_env f))
      with (key_of export_columns r); [exact Hk|].
    unfold key_of. cbn [List.map export_columns eval col_val facility_env ef].
    rewrite Hef. reflexivity. }
  split.
  { (* a zero total *)
    intros row q Hrow Hq Hzero.
    destruct (Hrows row Hrow) as (r0 & rest & Hg & -> & Hr0 & Hfilter).
    change (at_ (List.map (eval (r0 :: rest)) (select p)) 10)
      with (eval (r0 :: rest) export_total) in Hq.
    split.
    { unfold csv_line.
      change (at_ (List.map (eval (r0 :: rest)) (select p)) 10)
        with (eval (r0 :: rest) export_total).
      do 2 f_equal. f_equal. unfold round_or_zero.
      destruct (eval (r0 :: rest) export_total) as [| |n|x];
        try discriminate Hq; cbn in Hq; injection Hq as <-.
      - assert (n = 0) as -> by (unfold Qeq in Hzero; cbn in Hzero; lia).
        reflexivity.
      - apply Qeq_bool_iff in Hzero. cbn [sql_truthy]. rewrite Hzero. reflexivity. }
    intros row' Hrow'.
    destruct (execute_row_of_group db pa all_rows row' eq_refl Hexa Hrow')
      as (g' & Hg' & Hh & ->).
    destruct (export_group_filter db pa (Col F_year :: export_columns) g'
                eq_refl Hg') as (r1 & rest1 & -> & Hr1 & Hfilter').
    change (take 11 (List.map (eval (r1 :: rest1)) (select pa)))
      with (key_of (Col F_year :: export_columns) r1).
    change (take 10 (List.map (eval (r0 :: rest)) (select p)))
      with (key_of export_columns r0).
    destruct (keys_eqb _ _) eqn:Hkey; [exfalso|reflexivity].
    assert (r1 :: rest1 = r0 :: rest) as Hsame.
    { rewrite Hfilter', Hfilter. apply export_groups_agree, Hkey. }
    rewrite Hsame in Hh.
    change (holds (r0 :: rest) (PGt export_total (LitInt 0)) && true = true) in Hh.
    unfold holds, eval_pred, sql_gt in Hh. rewrite Hq in Hh.
    cbn [eval as_Q] in Hh.
    assert (Qle_bool q (inject_Z 0) = true) as Hle.
    { apply Qle_bool_iff. rewrite Hzero. apply Qle_refl. }
    rewrite Hle in Hh. discriminate. }
  (* no emission row *)
  intros f row Hf [Hyear Hstate] Hnone Hrow Hkf.
  destruct (Hrows row Hrow) as (r0 & rest & Hg & -> & Hr0 & Hfilter).
  destruct (export_group_rows db p ds export_columns _
              eq_refl eq_refl eq_refl Hg) as (r0' & rest' & [= <- <-] & Hmem).
  change (take 10 (List.map (eval (r0 :: rest)) (select p)))
    with (key_of export_columns r0) in Hkf.
  change (at_ (List.map (eval (r0 :: rest)) (select p)) 10)
    with (eval (r0 :: rest) export_total).
  apply (zero_total_group db ds f); [exact Hnone|].
  intros r Hr. destruct (Hmem r Hr) as (Hj & Hw & Hk).
  split; [exact Hj|].
  pose proof Hj as Hj'.
  apply export_joined_rows in Hj' as (f' & _ & Hshape).
  assert (ef r = Some f') as Hef
      by (destruct Hshape as [[-> _]|(? & _ & _ & ->)]; reflexivity).
  change (holds [r] (PEq (Col F_year) (Lit (py_str ry)))
          && all_hold (state_filter st) [r] = true) in Hw.
  apply andb_prop in Hw as [Hy _]. apply (where_year _ f') in Hy; [|exact Hef].
  unfold key_of in Hk, Hkf. cbn [List.map export_columns] in Hk, Hkf.
  rewrite !keys_eqb_cons in Hk, Hkf.
  apply andb_prop in Hk as [Hid _]. apply andb_prop in Hkf as [Hid0 _].
  cbn [eval] in Hid, Hid0. cbn [col_val facility_env ef of_slot] in Hid0.
  cbn [col_val] in Hid |- *. rewrite Hef in *. cbn [of_slot] in *.
  rewrite Hy, Hyear. split; [|reflexivity].
  eapply same_text; eauto.
Qed.

Lemma zero_totals_dropped_from_all_years_only_witness :
  let idle := sample_facility "1003" "2023" "TX" in
  exists all_rows year_rows row,
    execute sample_db (export_plan true ∅) = Some all_rows
    /\ execute sample_db (export_plan false ∅) = Some year_rows
    /\ length all_rows = 3%nat
    /\ length year_rows = 3%nat
    /\ In row year_rows
    /\ keys_eqb (take 10 row) (key_of export_columns (facility_env idle)) = true
    /\ at_ row 10 = VInt 0
    /\ csv_line false row = List.map to_cell (take 10 row) ++ [CInt 0]
    /\ forall row', In row' all_rows ->
         keys_eqb (take 11 row') (VStr "2023" :: take 10 row) = false.
Proof.
  intros idle.
  assert (query_flag {[ "allReportingYears" := "true" ]} "allReportingYears"
          = true) as Hall by (vm_compute; reflexivity).
  assert (query_flag ∅ "allReportingYears" = false) as Hsingle
      by (vm_compute; reflexivity).
  assert (well_quoted (export_plan true ∅) = true) as Hplain_all
      by (vm_compute; reflexivity).
  assert (well_quoted (export_plan false ∅) = true) as Hplain_one
      by (vm_compute; reflexivity).
  destruct (zero_totals_dropped_from_all_years_only
              sample_db ∅ {[ "allReportingYears" := "true" ]} ∅
              Hall Hsingle Hplain_all Hplain_one)
    as (_ & _ & all_rows & year_rows & Hexa & Hex & _ & _ & _ & Hlisted & Hzero
        & Hnone).
  destruct (Hlisted idle) as (row & Hrow & Hkey).
  { simpl. auto. }
  { split; [vm_compute; reflexivity | left; vm_compute; reflexivity]. }
  assert (at_ row 10 = VInt 0) as Hat.
  { apply (Hnone idle row); [simpl; auto | | | exact Hrow | exact Hkey].
    - split; [vm_compute; reflexivity | left; vm_compute; reflexivity].
    - intros s Hs. simpl in Hs.
      destruct Hs as [<-|[<-|[<-|[<-|[]]]]]; vm_compute; reflexivity. }
  destruct (Hzero row 0%Q Hrow) as [Hline Habsent];
    [rewrite Hat; reflexivity | reflexivity |].
  exists all_rows, year_rows, row.
  split; [exact Hexa|]. split; [exact Hex|].
  split; [vm_compute in Hexa; injection Hexa as <-; reflexivity|].
  split; [vm_compute in Hex; injection Hex as <-; reflexivity|].
  repeat split; assumption.
Defined.

(** *** The facility behind a hover *)

Lemma filter_all {A} (l : list A) : List.filter (fun _ => true) l = l.
Proof. induction l as [|x l IH]; simpl; congruence. Qed.

Lemma head_take_1 {A} (l : list A) : head (take 1 l) = head l.
Proof. destruct l; reflexivity. Qed.

(** The rows, before ORDER BY, of a query on the facility table alone with
    no GROUP BY and no HAVING. *)
Lemma facility_query_rows (db : database) (p : plan) :
  from p = T_FACILITIES -> joins p = [] -> group_by p = None -> having p = [] ->
  ordered db p
  = sort_by (order_leb (order_by p))
      (List.map (fun r => [r])
         (List.filter (fun r => all_hold (where_ p) [r])
                      (List.map facility_env (FACILITIES db)))).
Proof.
  intros Hfrom Hjoins Hgroup Hhaving.
  unfold ordered, grouped, filtered, joined.
  rewrite Hfrom, Hjoins, Hgroup, Hhaving. cbn [fold_left all_hold forallb].
  rewrite filter_all. reflexivity.
Qed.

Lemma where_facility_id (F : string) (f : fac_row) :
  holds [facility_env f] (PEq (Col F_facility_id) (Lit F)) = true
  <-> facility_id f = Some F.
Proof.
  unfold holds. cbn.
  destruct (facility_id f) as [i|]; cbn; [|split; discriminate].
  unfold sql_eq. cbn. destruct (String.eqb_spec i F); split; congruence.
Qed.

(** The query for the facility in the year asked for. *)
Lemma facility_query_result (db : database) (F year_ : string) :
  fetchone db (plan_facility_query F year_)
  = Some (head (List.map hover_row
                  (List.filter
                     (fun f => bool_decide (facility_id f = Some F)
                               && bool_decide (year f = Some year_))
                     (FACILITIES db)))).
Proof.
  unfold fetchone, execute. cbn [offset limit plan_facility_query default
    from_option id Z.ltb Z.compare orb fmap option_fmap option_map].
  change (Z.to_nat 1) with 1%nat. change (Z.to_nat 0) with 0%nat.
  cbn [drop]. rewrite head_take_1. f_equal.
  unfold projected. cbn [distinct plan_facility_query].
  rewrite facility_query_rows by reflexivity.
  cbn [order_by plan_facility_query]. unfold sort_by.
  induction (FACILITIES db) as [|f l IH]; [reflexivity|].
  cbn [List.map List.filter].
  assert (all_hold (where_ (plan_facility_query F year_)) [facility_env f]
          = bool_decide (facility_id f = Some F) && bool_decide (year f = Some year_))
    as ->.
  { cbn [where_ plan_facility_query all_hold forallb]. rewrite andb_true_r.
    apply eq_true_iff_eq. rewrite !andb_true_iff, !bool_decide_eq_true.
    rewrite where_facility_id, (where_year year_ f) by reflexivity. tauto. }
  destruct (_ && _); [|exact IH].
  cbn [List.map fold_right head].
  destruct (fold_right _ _ _) eqn:Hrest; reflexivity.
Qed.

Lemma order_leb_single (e : expr) (d : bool) (g1 g2 : list env) :
  order_leb [ {| o_expr := e; o_desc := d |} ] g1 g2 = true ->
  key_leb d (eval g1 e) (eval g2 e) = true.
Proof.
  cbn [order_leb o_expr o_desc].
  destruct (key_leb_total d (eval g1 e) (eval g2 e)) as [H|H]; [auto|].
  rewrite H. cbn [negb]. destruct (key_leb d (eval g1 e) (eval g2 e)); auto.
Qed.

(** The fallback query: no row when the facility is in no year, else the
    row of one of its latest years. *)
Lemma fallback_query_result (db : database) (F : string) :
  ((forall f, In f (FACILITIES db) -> facility_id f <> Some F) ->
   fetchone db (plan_facility_query_fallback F) = Some None)
  /\ ((exists f, In f (FACILITIES db) /\ facility_id f = Some F) ->
      exists f, In f (FACILITIES db) /\ facility_id f = Some F
        /\ (forall f', In f' (FACILITIES db) -> facility_id f' = Some F ->
              key_leb true (txt (year f)) (txt (year f')) = true)
        /\ fetchone db (plan_facility_query_fallback F) = Some (Some (hover_row f))).
Proof.
  set (p := plan_facility_query_fallback F).
  set (L := List.map (fun r => [r])
              (List.filter (fun r => all_hold (where_ p) [r])
                           (List.map facility_env (FACILITIES db)))).
  assert (fetchone db p
          = Some (head (List.map (fun g => List.map (eval g) (select p))
                                 (sort_by (order_leb (order_by p)) L)))) as Hfetch.
  { unfold fetchone, execute. cbn [offset limit p plan_facility_query_fallback
      default from_option id Z.ltb Z.compare orb fmap option_fmap option_map].
    change (Z.to_nat 1) with 1%nat. change (Z.to_nat 0) with 0%nat.
    cbn [drop]. rewrite head_take_1. f_equal.
    unfold projected. cbn [distinct plan_facility_query_fallback].
    rewrite facility_query_rows by reflexivity. reflexivity. }
  assert (forall g, In g L <->
                    exists f, g = [facility_env f] /\ In f (FACILITIES db)
                              /\ facility_id f = Some F) as HL.
  { intros g. unfold L. rewrite in_map_iff. split.
    - intros (r & <- & Hr). apply filter_In in Hr as [Hr Hw].
      apply in_map_iff in Hr as (f & <- & Hf). exists f.
      split; [reflexivity|]. split; [exact Hf|].
      cbn [where_ p plan_facility_query_fallback all_hold forallb] in Hw.
      rewrite andb_true_r in Hw. apply where_facility_id, Hw.
    - intros (f & -> & Hf & Hid). exists (facility_env f).
      split; [reflexivity|]. apply filter_In. split; [apply in_map; exact Hf|].
      cbn [where_ p plan_facility_query_fallback all_hold forallb].
      rewrite andb_true_r. apply where_facility_id, Hid. }
  pose proof (ordered_sorted db p) as Hs.
  rewrite facility_query_rows in Hs by reflexivity. fold L in Hs.
  rewrite Hfetch.
  destruct (sort_by (order_leb (order_by p)) L) as [|g0 tl] eqn:Hsort.
  - assert (forall g, ~ In g L) as Hempty.
    { intros g Hg. apply (sort_by_In (order_leb (order_by p))) in Hg.
      rewrite Hsort in Hg. destruct Hg. }
    split; [reflexivity|]. intros (f & Hf & Hid). exfalso.
    apply (Hempty [facility_env f]), HL. eauto.
  - assert (In g0 L) as Hg0.
    { apply (sort_by_In (order_leb (order_by p))). rewrite Hsort. left. reflexivity. }
    apply HL in Hg0 as (f0 & -> & Hf0 & Hid0). split.
    + intros Hno. destruct (Hno f0 Hf0 Hid0).
    + intros _. exists f0. split; [exact Hf0|]. split; [exact Hid0|].
      split; [|reflexivity].
      intros f' Hf' Hid'.
      assert (In [facility_env f'] (sort_by (order_leb (order_by p)) L)) as Hin.
      { apply sort_by_In, HL. eauto. }
      rewrite Hsort in Hin.
      assert (order_leb (order_by p) [facility_env f0] [facility_env f'] = true) as Hle.
      { destruct Hin as [<-|Hin].
        - destruct (order_leb_total (order_by p) [facility_env f0] [facility_env f0]); auto.
        - apply StronglySorted_inv in Hs as [_ Hall].
          rewrite List.Forall_forall in Hall. apply Hall, Hin. }
      apply order_leb_single in Hle. exact Hle.
Qed.

(** The descriptor that the handler makes of a facility row. *)
Lemma hover_dto_exists (f : fac_row) (F : string) (n : Z) :
  facility_id f = Some F -> F <> "" -> py_int_str F = Some n ->
  let number (o : option numtext) :=
    match o with Some (Num q) => CNum q | _ => CNone end in
  shape_facility_dto (hover_row f)
  = Some {| facilityId := CInt n;
            facilityName := to_cell (txt (facility_name f));
            dto_address1 := to_cell (txt (address1 f));
            dto_address2 := to_cell (txt (address2 f));
            dto_city := to_cell (txt (city f));
            dto_state := to_cell (txt (state f));
            dto_county := to_cell (txt (county f));
            dto_zip := to_cell (txt (zip_code f));
            dto_latitude := number (latitude f);
            dto_longitude := number (longitude f);
            parentCompany := to_cell (txt (parent_company f)) |}.
Proof.
  intros Hid HF Hint number. unfold shape_facility_dto, hover_row, key_of.
  cbn [List.map hover_columns at_ nth eval col_val facility_env ef of_slot].
  rewrite Hid. unfold number_or_none. cbn [txt sql_truthy py_int_of].
  destruct (String.eqb_spec F ""); [contradiction|]. cbn [negb].
  rewrite Hint. cbn [fmap option_fmap option_map mbind option_bind].
  destruct (latitude f) as [[|qa]|], (longitude f) as [[|qo]|]; reflexivity.
Qed.

(** The rows of the per-gas breakdown come from emission rows of the
    facility and year asked for. *)
Lemma emissions_query_rows (db : database) (F year_ : string)
    (rows : list (list sqlval)) (row : list sqlval) :
  execute db (plan_emissions_query F year_) = Some rows -> In row rows ->
  exists s, In s (SECTOR db) /\ sec_facility_id s = Some F
            /\ sec_year s = Some year_ /\ at_ row 0 = txt (gas_name s).
Proof.
  intros Hex Hrow.
  destruct (execute_row_of_group db (plan_emissions_query F year_) rows row
              eq_refl Hex Hrow) as (g & Hg & _ & ->).
  unfold grouped in Hg. cbn [group_by plan_emissions_query] in Hg.
  destruct (group_rows_members _ _ g Hg) as (r0 & rest & -> & Hall).
  destruct (Hall r0 (or_introl eq_refl)) as [Hr0 _].
  unfold filtered in Hr0. apply filter_In in Hr0 as [Hr0 Hw].
  unfold joined in Hr0. cbn [joins plan_emissions_query fold_left from table_rows]
    in Hr0.
  apply in_map_iff in Hr0 as (s & <- & Hs).
  exists s. split; [exact Hs|].
  cbn [where_ plan_emissions_query all_hold forallb] in Hw.
  apply andb_prop in Hw as [Hid Hw]. apply andb_prop in Hw as [Hy _].
  unfold holds, eval_pred, sql_eq in Hid, Hy.
  cbn [eval col_val es of_slot] in Hid, Hy.
  split; [|split; [|reflexivity]].
  - destruct (sec_facility_id s) as [i|]; cbn in Hid; [|discriminate].
    destruct (String.eqb_spec i F); [congruence|discriminate].
  - destruct (sec_year s) as [y|]; cbn in Hy; [|discriminate].
    destruct (String.eqb_spec y year_); [congruence|discriminate].
Qed.

(** C9: for a facility id and a year that hold no quote and no NUL
    character (they are pasted into the queries), when the
    facility has no row in the year asked for but has one in another
    year, the hover handler answers 200 with the descriptor of a row of
    the facility's latest year -- the id as an integer, the name, the
    address, the city, the state, the county, the ZIP code and the parent
    company of that row, and its coordinates as numbers, or none where
    the row has none -- and with the per-gas emissions of the year asked
    for; it answers 404 'Facility not found' exactly when the facility
    has no row at all.  (The id is an integer literal, as [int(...)] of
    it is part of the descriptor.) *)
Theorem facility_hover_falls_back_to_latest_year
    (db : database) (year_ : string) (query_params : gmap string string)
    (F : string) (n : Z)
    (Hparam : query_params !! "id" = Some F) (HF : F <> "")
    (Hint : py_int_str F = Some n)
    (Hplain : pastable F = true /\ pastable year_ = true)
    (Hnone : forall f, In f (FACILITIES db) -> facility_id f = Some F ->
                       year f <> Some year_)
    (Hsome : exists f, In f (FACILITIES db) /\ facility_id f = Some F) :
  let number (o : option numtext) :=
    match o with Some (Num q) => CNum q | _ => CNone end in
  (exists f emissions_result,
      In f (FACILITIES db) /\ facility_id f = Some F
      /\ (forall f', In f' (FACILITIES db) -> facility_id f' = Some F ->
            key_leb true (txt (year f)) (txt (year f')) = true)
      /\ execute db (plan_emissions_query F year_) = Some emissions_result
      /\ (forall row, In row emissions_result ->
            exists s, In s (SECTOR db) /\ sec_facility_id s = Some F
                      /\ sec_year s = Some year_
                      /\ ge_type (shape_gas_emission row) = to_cell (txt (gas_name s)))
      /\ handle_facility_hover (inl db) year_ query_params
         = {| statusCode := 200;
              resp_body :=
                JsonBody
                  (Some (FacilityHover
                           {| facilityId := CInt n;
                              facilityName := to_cell (txt (facility_name f));
                              dto_address1 := to_cell (txt (address1 f));
                              dto_address2 := to_cell (txt (address2 f));
                              dto_city := to_cell (txt (city f));
                              dto_state := to_cell (txt (state f));
                              dto_county := to_cell (txt (county f));
                              dto_zip := to_cell (txt (zip_code f));
                              dto_latitude := number (latitude f);
                              dto_longitude := number (longitude f);
                              parentCompany := to_cell (txt (parent_company f)) |}
                           (List.map shape_gas_emission emissions_result)))
                  [] |})
  /\ (forall db' : database,
        handle_facility_hover (inl db') year_ query_params
        = error_response 404 (Text "Facility not found")
        <-> forall f, In f (FACILITIES db') -> facility_id f <> Some F).
Proof.
  intros number.
  assert (forall d, handle_facility_hover (inl d) year_ query_params
          = match facility_result d F year_ with
            | None => error_response 500 (StrOf EngineError)
            | Some None => error_response 404 (Text "Facility not found")
            | Some (Some row) =>
                match execute d (plan_emissions_query F year_) with
                | None => error_response 500 (StrOf EngineError)
                | Some emissions_result =>
                    match shape_facility_dto row with
                    | None => error_response 500 (StrOf ValueError)
                    | Some dto =>
                        ok_response
                          (FacilityHover dto
                             (List.map shape_gas_emission emissions_result))
                    end
                end
            end) as Hhandle.
  { intros d. unfold handle_facility_hover. rewrite Hparam.
    destruct F; [contradiction | reflexivity]. }
  split.
  - destruct (fallback_query_result db F) as [_ Hfb].
    destruct (Hfb Hsome) as (f & Hf & Hid & Hlatest & Hfetch).
    pose proof (hover_dto_exists f F n Hid HF Hint) as Hdto. cbn zeta in Hdto.
    exists f, (projected db (plan_emissions_query F year_)).
    split; [exact Hf|]. split; [exact Hid|]. split; [exact Hlatest|].
    split; [reflexivity|]. split.
    { intros row Hrow.
      destruct (emissions_query_rows db F year_ _ row eq_refl Hrow)
        as (s & Hs & Hsid & Hsy & Hgas).
      exists s. unfold shape_gas_emission. cbn [ge_type]. rewrite Hgas. auto. }
    rewrite Hhandle. unfold facility_result.
    rewrite facility_query_result.
    assert (List.filter
              (fun f0 => bool_decide (facility_id f0 = Some F)
                         && bool_decide (year f0 = Some year_))
              (FACILITIES db) = []) as ->.
    { apply filter_nil_iff. intros f0 Hf0.
      apply andb_false_iff.
      destruct (decide (facility_id f0 = Some F)) as [Hid0|Hid0].
      - right. apply bool_decide_eq_false. exact (Hnone f0 Hf0 Hid0).
      - left. apply bool_decide_eq_false. exact Hid0. }
    cbn [List.map head]. rewrite Hfetch.
    change (execute db (plan_emissions_query F year_))
      with (Some (projected db (plan_emissions_query F year_))).
    cbn iota. rewrite Hdto. reflexivity.
  - intros db'. rewrite Hhandle. unfold facility_result.
    rewrite facility_query_result.
    destruct (fallback_query_result db' F) as [Hno Hyes].
    split.
    + intros H404 f Hf Hid.
      destruct (Hyes (ex_intro _ f (conj Hf Hid))) as (f1 & _ & _ & _ & Hfetch).
      rewrite Hfetch in H404.
      destruct (head _);
        change (execute db' (plan_emissions_query F year_))
          with (Some (projected db' (plan_emissions_query F year_))) in H404;
        cbn iota in H404;
        destruct (shape_facility_dto _); discriminate.
    + intros Hnof.
      assert (List.filter
                (fun f0 => bool_decide (facility_id f0 = Some F)
                           && bool_decide (year f0 = Some year_))
                (FACILITIES db') = []) as ->.
      { apply filter_nil_iff. intros f0 Hf0. apply andb_false_iff. left.
        apply bool_decide_eq_false. exact (Hnof f0 Hf0). }
      cbn [List.map head]. rewrite (Hno Hnof). reflexivity.
Qed.

Lemma facility_hover_falls_back_to_latest_year_witness :
  handle_facility_hover (inl sample_db) "2021" {[ "id" := "1001" ]}
  = ok_response
      (FacilityHover
         {| facilityId := CInt 1001;
            facilityName := CStr "Plant 1001";
            dto_address1 := CNone;
            dto_address2 := CNone;
            dto_city := CStr "Houston";
            dto_state := CStr "TX";
            dto_county := CNone;
            dto_zip := CNone;
            dto_latitude := CNum (59 # 2);
            dto_longitude := CNum (-95 # 1);
            parentCompany := CNone |}
         [])
  /\ handle_facility_hover (inl sample_db) "2021" {[ "id" := "4004" ]}
     = error_response 404 (Text "Facility not found").
Proof.
  destruct (facility_hover_falls_back_to_latest_year
              sample_db "2021" {[ "id" := "1001" ]} "1001" 1001)
    as [(f & er & Hf & Hid & Hlatest & Hex & _ & ->) _].
  - reflexivity.
  - discriminate.
  - vm_compute. reflexivity.
  - split; vm_compute; reflexivity.
  - intros f Hf _. simpl in Hf.
    destruct Hf as [<-|[<-|[<-|[<-|[]]]]]; discriminate.
  - exists (sample_facility "1001" "2023" "TX"). split; [simpl; auto | reflexivity].
  - vm_compute in Hex. injection Hex as <-.
    pose proof (Hlatest (sample_facility "1001" "2023" "TX")
                  ltac:(simpl; auto) eq_refl) as Hle.
    split.
    + simpl in Hf.
      destruct Hf as [<-|[<-|[<-|[<-|[]]]]];
        try discriminate Hle; try discriminate Hid; reflexivity.
    + vm_compute. reflexivity.
Defined.

(** *** Biogenic CO2 *)

Lemma execute_of_filtered (db1 db2 : database) (p : plan) :
  filtered db1 p = filtered db2 p -> execute db1 p = execute db2 p.
Proof.
  intros H. unfold execute, projected, ordered, grouped. rewrite H. reflexivity.
Qed.

Lemma not_biogenic_free (r : env) :
  holds [r] not_biogenic = true -> free_of_biogenic r = true.
Proof.
  unfold holds, free_of_biogenic, is_biogenic. cbn.
  destruct (es r) as [s|]; cbn; [|discriminate].
  destruct (gas_name s) as [g|]; cbn; [|discriminate].
  unfold sql_eq. cbn. destruct (String.eqb g "Biogenic CO2"); [discriminate|reflexivity].
Qed.

Lemma conjuncts_free (ps : list pred) (r : env) :
  In not_biogenic ps -> all_hold ps [r] = true -> free_of_biogenic r = true.
Proof.
  intros Hin Hall. unfold all_hold in Hall. rewrite forallb_forall in Hall.
  apply not_biogenic_free, Hall, Hin.
Qed.

Lemma conjuncts_need_emission (ps : list pred) (r : env) :
  In not_biogenic ps -> es r = None -> all_hold ps [r] = false.
Proof.
  intros Hin Hes. apply not_true_iff_false. intros Hall.
  unfold all_hold in Hall. rewrite forallb_forall in Hall.
  specialize (Hall _ Hin). unfold holds in Hall. cbn in Hall.
  rewrite Hes in Hall. discriminate.
Qed.

Lemma filter_filter_implied {A} (f g : A -> bool) (l : list A) :
  (forall x, f x = true -> g x = true) ->
  List.filter f (List.filter g l) = List.filter f l.
Proof.
  intros H. induction l as [|x l IH]; simpl; [reflexivity|].
  destruct (g x) eqn:Hg; simpl.
  - destruct (f x); congruence.
  - destruct (f x) eqn:Hf; [|exact IH]. rewrite (H x Hf) in Hg. discriminate.
Qed.

Lemma filter_same_on {A} (f : A -> bool) (l : list A) :
  (forall x, In x l -> f x = true) -> List.filter f l = l.
Proof.
  induction l as [|x l IH]; simpl; intros H; [reflexivity|].
  rewrite (H x (or_introl eq_refl)). f_equal. apply IH. auto.
Qed.

Lemma filter_none_on {A} (f : A -> bool) (l : list A) :
  (forall x, In x l -> f x = false) -> List.filter f l = [].
Proof. apply filter_nil_iff. Qed.

Lemma filter_map_swap {A B} (f : B -> bool) (h : A -> B) (l : list A) :
  List.filter f (List.map h l) = List.map h (List.filter (fun x => f (h x)) l).
Proof.
  induction l as [|x l IH]; simpl; [reflexivity|].
  destruct (f (h x)); simpl; congruence.
Qed.

Lemma filter_flat_map {A B} (f : B -> bool) (h : A -> list B) (l : list A) :
  List.filter f (flat_map h l) = flat_map (fun x => List.filter f (h x)) l.
Proof.
  induction l as [|x l IH]; simpl; [reflexivity|].
  rewrite List.filter_app, IH. reflexivity.
Qed.

(** A join against another table than the sector facts keeps the emission
    row of each joined row, and reads the same rows with or without the
    biogenic ones. *)
Lemma join_keeps_emission (db : database) (j : join) (r r' : env) :
  j_table j <> T_SECTOR ->
  In r' (match List.filter (fun x => all_hold (j_on j) [x])
                           (table_rows db (j_table j) r) with
         | [] => match j_kind j with LeftJoin => [r] | InnerJoin => [] end
         | ms => ms
         end) ->
  es r' = es r.
Proof.
  intros Ht Hin.
  destruct (List.filter _ _) eqn:Hm.
  - destruct (j_kind j); [destruct Hin as [<-|[]]; reflexivity | destruct Hin].
  - rewrite <- Hm in Hin. apply filter_In in Hin as [Hin _].
    destruct (j_table j); try congruence; cbn in Hin;
      apply in_map_iff in Hin as (x & <- & _); reflexivity.
Qed.

Lemma join_other_table (db : database) (rows : list env) (j : join) :
  j_table j <> T_SECTOR ->
  apply_join (without_biogenic db) (List.filter free_of_biogenic rows) j
  = List.filter free_of_biogenic (apply_join db rows j).
Proof.
  intros Ht. unfold apply_join. rewrite filter_flat_map.
  induction rows as [|r rows IH]; [reflexivity|].
  assert (table_rows (without_biogenic db) (j_table j) r
          = table_rows db (j_table j) r) as Hsame
      by (destruct (j_table j); try congruence; reflexivity).
  cbn [List.filter flat_map].
  destruct (free_of_biogenic r) eqn:Hr.
  - cbn [flat_map]. rewrite IH, Hsame. f_equal.
    symmetry. apply filter_same_on. intros r' Hr'.
    unfold free_of_biogenic in *. rewrite (join_keeps_emission db j r r' Ht Hr').
    exact Hr.
  - rewrite IH.
    rewrite (filter_none_on free_of_biogenic
               (match List.filter _ (table_rows db (j_table j) r) with
                | [] => _ | ms => ms end)); [reflexivity|].
    intros r' Hr'.
    unfold free_of_biogenic in *. rewrite (join_keeps_emission db j r r' Ht Hr').
    exact Hr.
Qed.

(** Queries over the sector facts whose WHERE has the conjunct
    [gas_name != 'Biogenic CO2']. *)
Lemma filtered_over_sector (db : database) (p : plan) :
  from p = T_SECTOR ->
  Forall (fun j => j_table j <> T_SECTOR) (joins p) ->
  In not_biogenic (where_ p) ->
  filtered (without_biogenic db) p = filtered db p.
Proof.
  intros Hfrom Hjoins Hwhere. unfold filtered, joined. rewrite Hfrom.
  assert (table_rows (without_biogenic db) T_SECTOR empty_env
          = List.filter free_of_biogenic (table_rows db T_SECTOR empty_env)) as ->.
  { cbn [table_rows without_biogenic SECTOR]. rewrite filter_map_swap. reflexivity. }
  generalize (table_rows db T_SECTOR empty_env). intros rows.
  assert (fold_left (apply_join (without_biogenic db)) (joins p)
                    (List.filter free_of_biogenic rows)
          = List.filter free_of_biogenic (fold_left (apply_join db) (joins p) rows))
    as ->.
  { revert rows. induction Hjoins as [|j js Hj Hjs IH]; intros rows; [reflexivity|].
    cbn [fold_left]. rewrite join_other_table by exact Hj. apply IH. }
  apply filter_filter_implied. intros r. apply conjuncts_free, Hwhere.
Qed.

Lemma filter_comm {A} (f g : A -> bool) (l : list A) :
  List.filter f (List.filter g l) = List.filter g (List.filter f l).
Proof.
  induction l as [|x l IH]; [reflexivity|]. cbn [List.filter].
  destruct (g x) eqn:Hg, (f x) eqn:Hf; cbn [List.filter];
    rewrite ?Hg, ?Hf, IH; reflexivity.
Qed.

Lemma flat_map_ext_in {A B} (f g : A -> list B) (l : list A) :
  (forall x, In x l -> f x = g x) -> flat_map f l = flat_map g l.
Proof.
  induction l as [|x l IH]; intros H; simpl; [reflexivity|].
  rewrite (H x (or_introl eq_refl)), IH; [reflexivity|].
  intros y Hy. apply H. right. exact Hy.
Qed.

(** Queries over the facilities with one LEFT JOIN of the sector facts,
    whose ON or WHERE has the conjunct. *)
Lemma filtered_over_facilities (db : database) (p : plan) (j : join) :
  from p = T_FACILITIES -> joins p = [j] ->
  j_table j = T_SECTOR -> j_kind j = LeftJoin ->
  In not_biogenic (j_on j) \/ In not_biogenic (where_ p) ->
  filtered (without_biogenic db) p = filtered db p.
Proof.
  intros Hfrom Hjoins Ht Hk Hbio. unfold filtered, joined.
  rewrite Hfrom, Hjoins. cbn [fold_left].
  change (table_rows (without_biogenic db) T_FACILITIES empty_env)
    with (table_rows db T_FACILITIES empty_env).
  unfold apply_join. rewrite !filter_flat_map. apply flat_map_ext_in.
  intros r Hr.
  assert (es r = None) as Hes.
  { cbn in Hr. apply in_map_iff in Hr as (x & <- & _). reflexivity. }
  rewrite Ht, Hk. cbn [table_rows without_biogenic SECTOR].
  set (attach := fun x => {| ef := ef r; es := Some x; ed := ed r; ea := ea r |}).
  set (on := fun x => all_hold (j_on j) [x]).
  set (W := fun x => all_hold (where_ p) [x]).
  assert (List.filter on (List.map attach
                            (List.filter (fun s => negb (is_biogenic s)) (SECTOR db)))
          = List.filter free_of_biogenic (List.filter on (List.map attach (SECTOR db))))
    as ->.
  { change (fun s => negb (is_biogenic s))
      with (fun s => free_of_biogenic (attach s)).
    rewrite <- (filter_map_swap free_of_biogenic attach).
    apply filter_comm. }
  set (M := List.filter on (List.map attach (SECTOR db))).
  destruct Hbio as [Hon|Hw].
  - rewrite (filter_same_on free_of_biogenic M); [reflexivity|].
    intros x Hx. apply filter_In in Hx as [_ Hx]. eapply conjuncts_free; eauto.
  - assert (List.filter W (List.filter free_of_biogenic M) = List.filter W M) as HWM.
    { apply filter_filter_implied. intros x. apply conjuncts_free, Hw. }
    assert (W r = false) as HWr by (apply conjuncts_need_emission; assumption).
    assert (forall l : list env,
               List.filter W (match l with [] => [r] | e :: l' => e :: l' end)
               = List.filter W l) as Hout.
    { intros [|? ?]; [|reflexivity]. cbn. rewrite HWr. reflexivity. }
    rewrite !Hout. exact HWM.
Qed.

Lemma lookup_ignores_emissions (db : database) (sector_id : string) :
  trend_sector_name (without_biogenic db) sector_id
  = trend_sector_name db sector_id.
Proof. reflexivity. Qed.

(** C1, as the code has it in [lambda_function.py], for request values
    that hold no quote and no NUL character: the rows of biogenic CO2 change nothing in what
    any query but the per-gas breakdown of the facility hover returns:
    sector totals, bar, pie, list sectors, sector trend, map overlay and
    both exports return the same rows with these rows removed from the
    sector facts, whatever the other parameters.  (The breakdown groups
    by gas and reports biogenic CO2 as a gas of its own.)  The trend is
    taken with the sector name that the handler looks up, for a sector id
    in ASCII and a name without a quote or NUL character; the sector ids of the dimension
    table are within the engine's INTEGER, to which the queries cast
    them. *)
Theorem biogenic_rows_never_counted
    (op : operation) (body : gmap string pyval) (db : database)
    (sector_id : string)
    (Hop : forall F y, op <> OpFacilityHoverEmissions F y)
    (Hplain : well_quoted (plan_of op body) = true)
    (Hascii : ascii_only sector_id = true)
    (Hids : int32_ids db = true)
    (Hname : forall name,
        trend_sector_name db sector_id = Some name ->
        well_quoted (plan_sector_trend (state_param body) name) = true) :
  execute (without_biogenic db) (plan_of op body) = execute db (plan_of op body)
  /\ sector_trend_rows (without_biogenic db) body sector_id
     = sector_trend_rows db body sector_id.
Proof.
  assert (forall name,
             execute (without_biogenic db) (plan_sector_trend (state_param body) name)
             = execute db (plan_sector_trend (state_param body) name)) as Htrend.
  { intros name. apply execute_of_filtered, filtered_over_sector.
    - reflexivity.
    - cbn [joins plan_sector_trend]. unfold state_join.
      destruct (state_given _); repeat constructor; discriminate.
    - cbn [where_ plan_sector_trend]. right. left. reflexivity. }
  split.
  - destruct op as [| | | |page|name| |level|all|F y].
    + reflexivity.
    + apply execute_of_filtered.
      eapply filtered_over_facilities; try reflexivity.
      right. cbn [where_ plan_of plan_map_overlay has_coordinates app].
      do 6 right. left. reflexivity.
    + apply execute_of_filtered, filtered_over_sector.
      * reflexivity.
      * cbn [joins plan_of plan_sectors_total_emissions]. unfold state_join.
        destruct (state_given _); repeat constructor; discriminate.
      * cbn [where_ plan_of plan_sectors_total_emissions app]. do 2 right. left. reflexivity.
    + apply execute_of_filtered, filtered_over_sector.
      * reflexivity.
      * repeat constructor; discriminate.
      * do 2 right. left. reflexivity.
    + reflexivity.
    + apply Htrend.
    + apply execute_of_filtered, filtered_over_sector.
      * reflexivity.
      * cbn [joins plan_of plan_bar_sector plan_sectors_total_emissions].
        unfold state_join.
        destruct (state_given _); repeat constructor; discriminate.
      * do 2 right. left. reflexivity.
    + apply execute_of_filtered, filtered_over_sector.
      * reflexivity.
      * cbn [joins plan_of plan_pie_sectors_emissions]. unfold state_join.
        destruct (state_given _); repeat constructor; discriminate.
      * do 2 right. left. reflexivity.
    + apply execute_of_filtered.
      destruct all; eapply filtered_over_facilities; try reflexivity;
        left; do 3 right; left; reflexivity.
    + destruct (Hop F y eq_refl).
  - unfold sector_trend_rows. rewrite lookup_ignores_emissions.
    destruct (trend_sector_name db sector_id) as [name|]; [|reflexivity].
    apply Htrend.
Qed.

Lemma biogenic_rows_never_counted_witness :
  execute (without_biogenic sample_db) (plan_of OpSectorsTotal ∅)
  = Some [[VStr "Waste"; VDbl (2500000 # 1); VInt 1; VNull];
          [VStr "Power Plants"; VDbl (1500000 # 1); VInt 1; VInt 3]]
  /\ execute sample_db (plan_of OpSectorsTotal ∅)
     = execute (without_biogenic sample_db) (plan_of OpSectorsTotal ∅)
  /\ sector_trend_rows sample_db ∅ "3"
     = sector_trend_rows (without_biogenic sample_db) ∅ "3".
Proof.
  destruct (biogenic_rows_never_counted OpSectorsTotal ∅ sample_db "3")
    as [Hsame Htrend].
  - intros F y. discriminate.
  - vm_compute. reflexivity.
  - reflexivity.
  - reflexivity.
  - intros name Hname.
    assert (name = Some "Power Plants") as ->
        by (vm_compute in Hname; congruence).
    vm_compute. reflexivity.
  - split; [vm_compute; reflexivity|]. split; symmetry; assumption.
Defined.

(** C1, as stated, fails twice.  On the facility hover: its per-gas
    breakdown sums the rows of biogenic CO2 and reports them.  And on the
    sector totals of [handler.py], whose query has no condition on the
    gas: the total of a sector counts its rows of biogenic CO2. *)
Lemma hover_breakdown_counts_biogenic :
  let p := plan_of (OpFacilityHoverEmissions "1001" "2023") ∅ in
  execute sample_db p
  = Some [[VStr "CO2"; VDbl (1500000 # 1)]; [VStr "Biogenic CO2"; VDbl (700 # 1)]]
  /\ execute (without_biogenic sample_db) p = Some [[VStr "CO2"; VDbl (1500000 # 1)]]
  /\ execute (without_biogenic sample_db) p <> execute sample_db p
  /\ (exists dto,
       handle_facility_hover (inl sample_db) "2023" {[ "id" := "1001" ]}
       = ok_response
           (FacilityHover dto
              [ {| ge_type := CStr "CO2"; ge_quantity := 1500000 |};
                {| ge_type := CStr "Biogenic CO2"; ge_quantity := 700 |} ]))
  /\ execute sample_db (plan_local_sectors_total (PInt 2023))
     = Some [[VStr "Waste"; VDbl (2500000 # 1); VInt 1];
             [VStr "Power Plants"; VDbl (1500700 # 1); VInt 1]]
  /\ execute (without_biogenic sample_db) (plan_local_sectors_total (PInt 2023))
     = Some [[VStr "Waste"; VDbl (2500000 # 1); VInt 1];
             [VStr "Power Plants"; VDbl (1500000 # 1); VInt 1]].
Proof.
  vm_compute. repeat split; try discriminate. eexists. reflexivity.
Qed.

(** *** Splitting paths *)

Lemma split_on_cons (c a : ascii) (s : string) :
  exists x xs, split_on c (String a s) = x :: xs.
Proof.
  simpl. destruct (Ascii.eqb a c); [eauto|].
  destruct (split_on c s); eauto.
Qed.

Lemma split_on_nonempty (c : ascii) (s : string) : split_on c s <> [].
Proof.
  destruct s as [|a s]; [discriminate|].
  destruct (split_on_cons c a s) as (x & xs & ->). discriminate.
Qed.

Lemma split_on_sep (c : ascii) (s : string) :
  split_on c (String c s) = EmptyString :: split_on c s.
Proof. simpl. rewrite Ascii.eqb_refl. reflexivity. Qed.

Lemma split_on_other (c a : ascii) (s : string) :
  Ascii.eqb a c = false ->
  exists x xs, split_on c s = x :: xs /\ split_on c (String a s) = String a x :: xs.
Proof.
  intros Ha. simpl. rewrite Ha.
  destruct (split_on c s) as [|x xs] eqn:Hs; [destruct (split_on_nonempty c s Hs)|].
  eauto.
Qed.

(** No segment of a split path holds the separator. *)
Lemma split_on_segments (s : string) :
  forall x, In x (split_on "/" s) -> str_contains "/" x = false.
Proof.
  induction s as [|a s IH]; intros x Hx.
  - destruct Hx as [<-|[]]. reflexivity.
  - destruct (Ascii.eqb a "/") eqn:Ha.
    + apply Ascii.eqb_eq in Ha as ->. rewrite split_on_sep in Hx.
      destruct Hx as [<-|Hx]; [reflexivity | auto].
    + destruct (split_on_other "/" a s Ha) as (y & ys & Hs & Hs').
      rewrite Hs' in Hx. rewrite Hs in IH.
      destruct Hx as [<-|Hx]; [|apply IH; right; exact Hx].
      cbn [str_contains String.prefix].
      rewrite (IH y (or_introl eq_refl)).
      destruct (Ascii.ascii_dec "/" a) as [<-|_]; [discriminate Ha | reflexivity].
Qed.

Lemma last_In {A} (l : list A) (d : A) : l <> [] -> In (List.last l d) l.
Proof.
  induction l as [|x [|y l] IH]; intros H; [contradiction | left; reflexivity |].
  right. apply IH. discriminate.
Qed.

Lemma last_segment_no_slash (path : string) :
  str_contains "/" (last_segment path) = false.
Proof.
  apply (split_on_segments path), last_In, split_on_nonempty.
Qed.

Lemma routes_get_values (method path : string) (r : route) :
  routes_get method path = Some r ->
  In r [ToVersion; ToMapMarkers; ToSectorsTotal; ToListSectors; ToListFacilities;
        ToBarSector None; ToPieSectors None None; ToMapOverlay].
Proof.
  unfold routes_get. destruct (List.find _ ROUTES) as [e|] eqn:Hfind; [|discriminate].
  intros [= <-]. apply find_some in Hfind as [Hin _].
  unfold ROUTES in Hin. cbn [In] in Hin.
  repeat (destruct Hin as [<-|Hin]; [cbn; tauto|]). destruct Hin.
Qed.

(** X1: whatever the method and the path, a state code, year or file name
    that the router takes from the path holds no slash. *)
Theorem routed_parameters_have_no_slash (method path : string) :
  match route_of method path with
  | ToStateBounds s | ToStateCounties s | ToFacilityHover s | ToDataDownload s =>
      s = last_segment path /\ str_contains "/" s = false
  | _ => True
  end.
Proof.
  unfold route_of.
  destruct (String.eqb method "OPTIONS"); [exact I|].
  destruct (routes_get method path) as [r|] eqn:Hr.
  { apply routes_get_values in Hr. cbn [In] in Hr.
    repeat (destruct Hr as [<-|Hr]; [exact I|]). destruct Hr. }
  pose proof (last_segment_no_slash path).
  repeat match goal with
         | |- context [if ?b then _ else _] => destruct b
         end; auto.
Qed.

(** *** The mount prefix *)

Lemma append_assoc (a b c : string) : (a +:+ b) +:+ c = a +:+ (b +:+ c).
Proof.
  induction a as [|x a IH]; [reflexivity|].
  rewrite !append_cons, IH. reflexivity.
Qed.

(** A pattern that starts with [/a] occurs in ["/ghgp" +:+ s] where it
    occurs in [s]. *)
Lemma contains_after_mount (t s : string) :
  str_contains (String "/" (String "a" t)) ("/ghgp" +:+ s)
  = str_contains (String "/" (String "a" t)) s.
Proof.
  change ("/ghgp" +:+ s)
    with (String "/" (String "g" (String "h" (String "g" (String "p" s))))).
  cbn [str_contains String.prefix].
  repeat match goal with
         | |- context [Ascii.ascii_dec ?a ?b] =>
             destruct (Ascii.ascii_dec a b) as [Heq|Hne];
             [try discriminate Heq | try (exfalso; apply Hne; reflexivity)]
         end.
  reflexivity.
Qed.

Lemma contains_mounted_pattern (pat s : string) :
  str_contains pat s || str_contains ("/ghgp" +:+ pat) s = str_contains pat s.
Proof.
  destruct (str_contains pat s) eqn:Hp; [reflexivity|].
  cbn [orb]. apply not_true_iff_false. intros Hg.
  apply str_contains_spec in Hg as (a & b & ->).
  apply not_true_iff_false in Hp. apply Hp.
  apply str_contains_spec. exists (a +:+ "/ghgp"), b.
  rewrite !append_assoc. reflexivity.
Qed.

Lemma rstrip_slash_other (a : ascii) (s : string) :
  Ascii.eqb a "/" = false -> rstrip_slash (String a s) = String a (rstrip_slash s).
Proof.
  intros Ha. cbn [rstrip_slash]. rewrite Ha.
  destruct (rstrip_slash s); reflexivity.
Qed.

Lemma rstrip_slash_all (q : string) :
  rstrip_slash q = EmptyString ->
  q = EmptyString \/ exists q', q = String "/" q' /\ rstrip_slash q' = EmptyString.
Proof.
  destruct q as [|a q]; [auto|]. cbn [rstrip_slash].
  destruct (rstrip_slash q) eqn:Hq; [|discriminate].
  destruct (Ascii.eqb a "/") eqn:Ha; [|discriminate].
  apply Ascii.eqb_eq in Ha as ->. eauto.
Qed.

(** A path of slashes only holds no pattern that goes on after a slash
    with another character. *)
Lemma slashes_hold_no_pattern (c : ascii) (t q : string) :
  c <> "/"%char -> rstrip_slash q = EmptyString ->
  str_contains (String "/" (String c t)) q = false.
Proof.
  intros Hc. induction q as [|a q IH]; intros Hq; [reflexivity|].
  apply rstrip_slash_all in Hq as [Hq|(q' & [= -> <-] & Hq')]; [discriminate|].
  cbn [str_contains String.prefix]. rewrite (IH Hq'), orb_false_r.
  destruct (Ascii.ascii_dec "/" "/"); [|contradiction].
  clear IH. destruct q as [|b q]; [reflexivity|].
  apply rstrip_slash_all in Hq' as [Hq'|(q'' & [= -> <-] & _)]; [discriminate|].
  cbn [String.prefix].
  destruct (Ascii.ascii_dec c "/"); [contradiction | reflexivity].
Qed.

Lemma eqb_api_mount (r x : string) :
  String.eqb (String "/" (String "a" r)) ("/ghgp" +:+ x) = false.
Proof. reflexivity. Qed.

Lemma eqb_mount_api (r x : string) :
  String.eqb (String "/" (String "g" r)) (String "/" (String "a" x)) = false.
Proof. reflexivity. Qed.

Lemma eqb_mount_mount (a b : string) :
  String.eqb (String "/" (String "g" (String "h" (String "g" (String "p" a)))))
             ("/ghgp" +:+ b)
  = String.eqb a b.
Proof. reflexivity. Qed.

Lemma last_after_mount (x y : string) (l : list string) (d : string) :
  l <> [] -> List.last (x :: y :: l) d = List.last (x :: l) d.
Proof. destruct l; [contradiction | reflexivity]. Qed.

(** X2: for a path under [/api/], the path with the mount prefix [/ghgp]
    in front is routed to the same handler with the same parameters; when
    neither is routed, each gets the 404 that names its own path. *)
Theorem mount_prefix_is_optional (method path : string)
    (Hapi : String.prefix "/api/" path = true) :
  route_of method ("/ghgp" +:+ path) = route_of method path
  \/ (route_of method ("/ghgp" +:+ path) = RouteNotFound method ("/ghgp" +:+ path)
      /\ route_of method path = RouteNotFound method path).
Proof.
  destruct (proj1 (prefix_app _ _) Hapi) as [q Hq]. subst path. clear Hapi.
  set (P := "/api/" +:+ q). set (P' := "/ghgp" +:+ P).
  assert (routes_get method P' = routes_get method P) as Htable.
  { unfold routes_get, ROUTES, P', P.
    change ("/api/" +:+ q) with (String "/" (String "a" ("pi/" +:+ q))).
    cbn [List.find fst snd].
    rewrite !eqb_api_mount, !eqb_mount_mount, !eqb_mount_api, !andb_false_r.
    cbv beta iota.
    change ("/api/" +:+ q) with (String "/" (String "a" ("pi/" +:+ q))).
    repeat match goal with
           | |- context [if ?c && ?d then _ else _] => destruct (c && d); [reflexivity|]
           end.
    reflexivity. }
  assert (forall t, str_contains (String "/" (String "a" t)) P'
                    || str_contains ("/ghgp" +:+ String "/" (String "a" t)) P'
                    = str_contains (String "/" (String "a" t)) P) as Hpat'.
  { intros t. rewrite contains_mounted_pattern. apply contains_after_mount. }
  assert (forall t, str_contains (String "/" (String "a" t)) P
                    || str_contains ("/ghgp" +:+ String "/" (String "a" t)) P
                    = str_contains (String "/" (String "a" t)) P) as Hpat
      by (intros t; apply contains_mounted_pattern).
  assert (forall t : string,
             str_in P' [String "/" (String "a" t); "/ghgp" +:+ String "/" (String "a" t)]
             = str_in P [String "/" (String "a" t); "/ghgp" +:+ String "/" (String "a" t)])
    as Hin.
  { intros t. unfold str_in, P', P.
    change ("/api/" +:+ q) with (String "/" (String "a" ("pi/" +:+ q))).
    change ("/ghgp" +:+ String "/" (String "a" t))
      with (String "/" (String "g" (String "h" (String "g" (String "p"
             (String "/" (String "a" t))))))).
    cbn [existsb].
    rewrite (String.eqb_sym _ (String "/" (String "a" t))).
    rewrite (String.eqb_sym ("/ghgp" +:+ _)
               (String "/" (String "g" (String "h" (String "g" (String "p"
                  (String "/" (String "a" t)))))))).
    rewrite (String.eqb_sym (String "/" (String "a" ("pi/" +:+ q)))
               (String "/" (String "g" (String "h" (String "g" (String "p"
                  (String "/" (String "a" t)))))))).
    rewrite (String.eqb_sym (String "/" (String "a" ("pi/" +:+ q)))
               (String "/" (String "a" t))).
    rewrite eqb_api_mount, eqb_mount_mount, eqb_mount_api.
    rewrite !orb_false_r. reflexivity. }
  assert (String.prefix "/api/export" P' || String.prefix "/ghgp/api/export" P'
          = String.prefix "/api/export" P || String.prefix "/ghgp/api/export" P)
    as Hexport.
  { unfold P', P.
    change ("/ghgp" +:+ "/api/" +:+ q)
      with (String "/" (String "g" (String "h" (String "g" (String "p"
             (String "/" (String "a" (String "p" (String "i" (String "/" q)))))))))).
    change ("/api/" +:+ q)
      with (String "/" (String "a" (String "p" (String "i" (String "/" q))))).
    cbn [String.prefix].
    repeat match goal with
           | |- context [Ascii.ascii_dec ?a ?b] =>
               destruct (Ascii.ascii_dec a b) as [Heq|Hne];
               [try discriminate Heq | try (exfalso; apply Hne; reflexivity)]
           end.
    rewrite orb_false_r. reflexivity. }
  assert (exists t, P = String "/" t /\ P' = "/ghgp" +:+ String "/" t) as (t & HP & HP')
      by (eexists; split; reflexivity).
  assert (last_segment P' = last_segment P) as Hlast.
  { unfold last_segment. rewrite HP', HP.
    change (split_on "/" ("/ghgp" +:+ String "/" t))
      with (split_on "/" (String "/" (String "g" (String "h" (String "g"
              (String "p" (String "/" t))))))).
    cbn [split_on Ascii.eqb Bool.eqb].
    destruct (split_on "/" t) as [|x xs] eqn:Ht; [destruct (split_on_nonempty _ _ Ht)|].
    reflexivity. }
  unfold route_of.
  destruct (String.eqb method "OPTIONS"); [left; reflexivity|].
  rewrite Htable. destruct (routes_get method P); [left; reflexivity|].
  change "/ghgp/api/state/bounds/" with ("/ghgp" +:+ "/api/state/bounds/").
  change "/ghgp/api/state/counties/" with ("/ghgp" +:+ "/api/state/counties/").
  change "/ghgp/api/facility/hover/" with ("/ghgp" +:+ "/api/facility/hover/").
  change "/ghgp/api/sector/trend/" with ("/ghgp" +:+ "/api/sector/trend/").
  change "/ghgp/api/pie/level2/sector/emissions"
    with ("/ghgp" +:+ "/api/pie/level2/sector/emissions").
  change "/ghgp/api/pie/level3/subsector/emissions"
    with ("/ghgp" +:+ "/api/pie/level3/subsector/emissions").
  change "/ghgp/api/data/download/" with ("/ghgp" +:+ "/api/data/download/").
  fold P'. rewrite !Hpat', !Hpat, Hexport, Hlast.
  change ["/api/basin/geo"; "/ghgp/api/basin/geo"]
    with ["/api/basin/geo"; "/ghgp" +:+ "/api/basin/geo"].
  change ["/api/bar/sector/level2"; "/ghgp/api/bar/sector/level2"]
    with ["/api/bar/sector/level2"; "/ghgp" +:+ "/api/bar/sector/level2"].
  change ["/api/data/files"; "/ghgp/api/data/files"]
    with ["/api/data/files"; "/ghgp" +:+ "/api/data/files"].
  rewrite !Hin.
  destruct (str_contains "/api/state/bounds/" P); [left; reflexivity|].
  destruct (str_contains "/api/state/counties/" P); [left; reflexivity|].
  destruct (str_in P _); [left; reflexivity|].
  destruct (str_contains "/api/facility/hover/" P); [left; reflexivity|].
  destruct (str_contains "/api/sector/trend/" P) eqn:Htrend.
  { left.
    (* the path goes on after /api/ with more than slashes *)
    assert (rstrip_slash (String "/" q) <> EmptyString) as Hq.
    { intros Hq. apply rstrip_slash_all in Hq as [?|(q' & [= <-] & Hq')]; [discriminate|].
      unfold P in Htrend.
      change ("/api/" +:+ q)
        with (String "/" (String "a" (String "p" (String "i" (String "/" q))))) in Htrend.
      cbn [str_contains String.prefix] in Htrend.
      rewrite (slashes_hold_no_pattern "a" "pi/sector/trend/" q) in Htrend
        by (discriminate || exact Hq').
      repeat match type of Htrend with
             | context [Ascii.ascii_dec ?a ?b] =>
                 destruct (Ascii.ascii_dec a b) as [Heq|Hne];
                 [try discriminate Heq | try (exfalso; apply Hne; reflexivity)]
             end.
      destruct q as [|b q]; [discriminate|].
      apply rstrip_slash_all in Hq' as [?|(q'' & [= -> <-] & _)]; [discriminate|].
      cbn [String.prefix] in Htrend.
      destruct (Ascii.ascii_dec "s" "/"); discriminate. }
    assert (exists r, rstrip_slash (String "/" q) = String "/" r) as [r Hr].
    { cbn [rstrip_slash] in Hq |- *. destruct (rstrip_slash q); [|eauto].
      cbn in Hq. contradiction. }
    assert (rstrip_slash P = String "/" (String "a" (String "p" (String "i" (String "/" r)))))
      as HrP.
    { unfold P.
      change ("/api/" +:+ q)
        with (String "/" (String "a" (String "p" (String "i" (String "/" q))))).
      rewrite <- Hr.
      assert (rstrip_slash (String "a" (String "p" (String "i" (String "/" q))))
              = String "a" (String "p" (String "i" (rstrip_slash (String "/" q))))) as Hapi
          by (rewrite !rstrip_slash_other by reflexivity; reflexivity).
      change (rstrip_slash (String "/" (String "a" (String "p" (String "i" (String "/" q))))))
        with (match rstrip_slash (String "a" (String "p" (String "i" (String "/" q)))) with
              | EmptyString => EmptyString
              | String c r0 => String "/" (String c r0)
              end).
      rewrite Hapi. reflexivity. }
    assert (rstrip_slash P'
            = String "/" (String "g" (String "h" (String "g" (String "p"
                (String "/" (String "a" (String "p" (String "i" (String "/" r))))))))))
      as HrP'.
    { unfold P'.
      change ("/ghgp" +:+ P)
        with (String "/" (String "g" (String "h" (String "g" (String "p" P))))).
      assert (rstrip_slash (String "g" (String "h" (String "g" (String "p" P))))
              = String "g" (String "h" (String "g" (String "p" (rstrip_slash P))))) as Hg
          by (rewrite !rstrip_slash_other by reflexivity; reflexivity).
      change (rstrip_slash (String "/" (String "g" (String "h" (String "g" (String "p" P))))))
        with (match rstrip_slash (String "g" (String "h" (String "g" (String "p" P)))) with
              | EmptyString => EmptyString
              | String c r0 => String "/" (String c r0)
              end).
      rewrite Hg, HrP. reflexivity. }
    rewrite HrP', HrP.
    cbn [split_on Ascii.eqb Bool.eqb].
    destruct (split_on "/" r) as [|x xs] eqn:Hsr; [destruct (split_on_nonempty _ _ Hsr)|].
    cbn [length Nat.ltb Nat.leb].
    reflexivity. }
  destruct (str_in P _); [left; reflexivity|].
  destruct (str_contains "/api/pie/level2/sector/emissions" P); [left; reflexivity|].
  destruct (str_contains "/api/pie/level3/subsector/emissions" P); [left; reflexivity|].
  rewrite ?Hexport.
  destruct (String.prefix "/api/export" P || String.prefix "/ghgp/api/export" P);
    [left; reflexivity|].
  destruct (str_in P _); [left; reflexivity|].
  destruct (str_contains "/api/data/download/" P); [left; reflexivity|].
  right. split; reflexivity.
Qed.

Lemma mount_prefix_is_optional_witness :
  route_of "GET" "/ghgp/api/state/bounds/TX" = route_of "GET" "/api/state/bounds/TX"
  \/ (route_of "GET" "/ghgp/api/state/bounds/TX"
        = RouteNotFound "GET" "/ghgp/api/state/bounds/TX"
      /\ route_of "GET" "/api/state/bounds/TX"
        = RouteNotFound "GET" "/api/state/bounds/TX").
Proof.
  exact (mount_prefix_is_optional "GET" "/api/state/bounds/TX" eq_refl).
Defined.

(** *** Methods of the table routes *)

Lemma routes_get_In (method path : string) (r : route) :
  routes_get method path = Some r -> In (method, path, r) ROUTES.
Proof.
  unfold routes_get. destruct (List.find _ ROUTES) as [[[m p] r']|] eqn:Hfind; [|discriminate].
  intros [= <-]. apply find_some in Hfind as [Hin Heq].
  cbn [fst snd] in Heq. apply andb_true_iff in Heq as [Hm Hp].
  apply String.eqb_eq in Hm, Hp. subst. exact Hin.
Qed.

(** X3: a path of the route table is served for the one method it is
    registered with; under any other method, the preflight apart, the
    request gets the 404. *)
Theorem table_routes_need_their_method (m0 path method : string) (r : route)
    (Hroute : In (m0, path, r) ROUTES)
    (Hother : method <> m0)
    (Hpreflight : method <> "OPTIONS") :
  route_of method path = RouteNotFound method path.
Proof.
  assert (routes_get method path = None) as Hnone.
  { destruct (routes_get method path) as [r'|] eqn:Hr; [|reflexivity].
    apply routes_get_In in Hr. exfalso.
    unfold ROUTES in Hroute, Hr. cbn [In] in Hroute, Hr.
    repeat (destruct Hroute as [Hroute|Hroute];
            [ injection Hroute as <- <- <-;
              repeat (destruct Hr as [Hr|Hr]; [congruence|]); destruct Hr |]).
    destruct Hroute. }
  unfold route_of.
  destruct (String.eqb_spec method "OPTIONS") as [->|_]; [congruence|].
  rewrite Hnone.
  unfold ROUTES in Hroute. cbn [In] in Hroute.
  repeat (destruct Hroute as [Hroute|Hroute];
          [injection Hroute as <- <- <-; vm_compute; reflexivity|]).
  destruct Hroute.
Qed.

Lemma table_routes_need_their_method_witness :
  route_of "GET" "/api/list/sectors" = RouteNotFound "GET" "/api/list/sectors".
Proof.
  apply (table_routes_need_their_method "POST" "/api/list/sectors" "GET" ToListSectors).
  - unfold ROUTES. cbn [In]. do 6 right. left. reflexivity.
  - discriminate.
  - discriminate.
Defined.

(** *** The router of [handler.py] *)

Lemma substring_all (s : string) : substring 0 (String.length s) s = s.
Proof. induction s as [|c s IH]; [reflexivity|]. cbn [String.length substring]. by rewrite IH. Qed.

Lemma drop5_mounted (p : string) : drop5 ("/ghgp" +:+ p) = p.
Proof.
  unfold drop5.
  change ("/ghgp" +:+ p)
    with (String "/" (String "g" (String "h" (String "g" (String "p" p))))).
  cbn [String.length Nat.sub substring]. rewrite Nat.sub_0_r. apply substring_all.
Qed.

(** X4: the router of [handler.py] takes the mount prefix [/ghgp] off the
    path once and then routes what is left: a path that does not itself
    start with the prefix is routed the same with and without it. *)
Theorem local_mount_prefix_stripped (method : option string) (p : string)
    (Hp : String.prefix "/ghgp" p = false) :
  local_route_of method (Some ("/ghgp" +:+ p)) = local_route_of method (Some p).
Proof.
  unfold local_route_of. cbn [default from_option id].
  assert (String.prefix "/ghgp" ("/ghgp" +:+ p) = true) as ->
    by (apply prefix_app; eauto).
  rewrite Hp, drop5_mounted. reflexivity.
Qed.

Lemma local_mount_prefix_stripped_witness :
  local_route_of (Some "GET") (Some "/ghgp/api/state/bounds/TX")
  = local_route_of (Some "GET") (Some "/api/state/bounds/TX").
Proof.
  exact (local_mount_prefix_stripped (Some "GET") "/api/state/bounds/TX" eq_refl).
Defined.

(** *** Cached paths *)

Section CachedPaths.

Variables S3_BUCKET S3_PREFIX : string.

Lemma acquire_sound (s3 : s3_client) (w : world) (name : string) :
  cache_sound w ->
  let run := get_local_parquet S3_BUCKET S3_PREFIX s3 w name in
  cache_sound run.2
  /\ local_files w ⊆ local_files run.2
  /\ forall p, run.1 = inl p -> p = local_path_of name /\ p ∈ local_files run.2.
Proof.
  intros Hw. unfold get_local_parquet.
  destruct (file_cache w !! name) as [p0|] eqn:Hn.
  { cbn. split; [exact Hw|]. split; [done|]. intros p [= <-]. by apply Hw. }
  destruct (decide _) as [Hin|Hout].
  { cbn. split; [|split; [done|by intros p [= <-]]].
    intros k p. cbn. destruct (decide (k = name)) as [->|Hk].
    - rewrite lookup_insert_eq. by intros [= <-].
    - rewrite lookup_insert_ne by done. apply Hw. }
  destruct (download_file _ _ _ _) as [[]|e]; cbn.
  - split; [|split; [set_solver|intros p [= <-]; split; [done|set_solver]]].
    intros k p. cbn. destruct (decide (k = name)) as [->|Hk].
    + rewrite lookup_insert_eq. intros [= <-]. split; [done|set_solver].
    + rewrite lookup_insert_ne by done. intros Hp.
      destruct (Hw _ _ Hp). split; [done|set_solver].
  - split; [exact Hw|]. split; [done|]. intros p [=].
Qed.

(** X5: in any series of calls, against any store, every path that
    [get_local_parquet] returns is /tmp/ghg.<table>.parquet for the table
    asked for, and a file exists at it when the series ends; the entries of
    the cache keep naming existing files, and no file disappears. *)
Theorem cached_paths_exist (calls : list (s3_client * string)) (w : world)
    (Hw : cache_sound w) :
  let run := get_local_parquet_seq S3_BUCKET S3_PREFIX w calls in
  cache_sound run.2
  /\ local_files w ⊆ local_files run.2
  /\ Forall2 (fun call r => forall p, r = inl p ->
                p = local_path_of call.2 /\ p ∈ local_files run.2)
             calls run.1.
Proof.
  revert w Hw. induction calls as [|[s3 name] calls IH]; intros w Hw.
  { cbn. split; [exact Hw|]. split; [done|constructor]. }
  cbn [get_local_parquet_seq].
  destruct (acquire_sound s3 w name Hw) as (Hw1 & Hsub1 & Hret).
  destruct (get_local_parquet S3_BUCKET S3_PREFIX s3 w name) as [r w1].
  cbn [fst snd] in Hw1, Hsub1, Hret.
  destruct (IH w1 Hw1) as (Hw2 & Hsub2 & Hrest).
  destruct (get_local_parquet_seq S3_BUCKET S3_PREFIX w1 calls) as [rs w2].
  cbn [fst snd] in *.
  split; [exact Hw2|]. split; [set_solver|].
  constructor; [|exact Hrest].
  intros p Hp. destruct (Hret p Hp). split; [done|set_solver].
Qed.

End CachedPaths.

Lemma cold_world_sound : cache_sound cold_world.
Proof. intros name p. cbn. by rewrite lookup_empty. Qed.

Lemma cached_paths_exist_witness :
  let run := get_local_parquet_seq "epa-backups-eia" "epa_ghg_tables_parquet" cold_world
               [(never_serving, "PUB_DIM_SECTOR"); (always_serving, "PUB_DIM_SECTOR")] in
  cache_sound run.2
  /\ local_files cold_world ⊆ local_files run.2
  /\ Forall2 (fun call r => forall p, r = inl p ->
                p = local_path_of call.2 /\ p ∈ local_files run.2)
             [(never_serving, "PUB_DIM_SECTOR"); (always_serving, "PUB_DIM_SECTOR")]
             run.1.
Proof.
  exact (cached_paths_exist "epa-backups-eia" "epa_ghg_tables_parquet"
           [(never_serving, "PUB_DIM_SECTOR"); (always_serving, "PUB_DIM_SECTOR")]
           cold_world cold_world_sound).
Defined.

(** *** One row per group *)

(** The groups of a GROUP BY on one column differ in that column. *)
Lemma group_rows_distinct (c : column) (rows : list env) :
  NoDup (List.map (fun g => eval g (Col c)) (group_rows [Col c] rows)).
Proof.
  unfold group_rows.
  pose proof (fold_distinct [Col c] rows [] I) as Hd.
  destruct (fold_groups_ok [Col c] rows [] (fun _ => False)) as [_ Hgrp].
  { split; [tauto | intros ? ? []]. }
  revert Hd Hgrp.
  generalize (fold_left (fun gs r => group_insert (List.map (eval [r]) [Col c]) r gs)
                        rows []).
  induction l as [|[k g] gs IH]; cbn [List.map fst snd pairwise]; intros Hd Hgrp.
  { apply NoDup_nil_2. }
  destruct Hd as [H0 Hd]. apply NoDup_cons. split.
  - intros Hin. apply list_elem_of_In in Hin.
    apply in_map_iff in Hin as (g' & Heq & Hin).
    apply in_map_iff in Hin as ([k' g''] & Hs & Hin). cbn [snd] in Hs. subst g''.
    destruct (Hgrp k g (or_introl eq_refl)) as (r0 & rest & -> & -> & _).
    destruct (Hgrp k' g' (or_intror Hin)) as (r1 & rest1 & -> & -> & _).
    rewrite List.Forall_forall in H0.
    specialize (H0 _ (in_map fst _ _ Hin)). cbn [fst] in H0.
    unfold key_of in H0. cbn [List.map eval] in H0, Heq.
    rewrite Heq in H0. rewrite keys_eqb_refl in H0. discriminate.
  - apply IH; [exact Hd|]. intros k1 g1 Hin. apply Hgrp. right. exact Hin.
Qed.

Lemma insert_by_Permutation {A} (leb : A -> A -> bool) (x : A) (l : list A) :
  Permutation (insert_by leb x l) (x :: l).
Proof.
  induction l as [|y l IH]; cbn [insert_by]; [reflexivity|].
  destruct (leb x y); [reflexivity|].
  rewrite IH. apply perm_swap.
Qed.

Lemma sort_by_Permutation {A} (leb : A -> A -> bool) (l : list A) :
  Permutation (sort_by leb l) l.
Proof.
  unfold sort_by. induction l as [|x l IH]; cbn [fold_right]; [reflexivity|].
  rewrite insert_by_Permutation. by constructor.
Qed.

Lemma NoDup_map_filter {A B} (f : A -> B) (h : A -> bool) (l : list A) :
  NoDup (List.map f l) -> NoDup (List.map f (List.filter h l)).
Proof.
  induction l as [|x l IH]; cbn [List.map List.filter]; [auto|].
  intros Hnd. apply NoDup_cons in Hnd as [Hx Hnd].
  destruct (h x); cbn [List.map]; [|auto].
  apply NoDup_cons. split; [|auto]. intros Hin. apply Hx.
  apply list_elem_of_In in Hin. apply list_elem_of_In.
  apply in_map_iff in Hin as (y & Hy & Hin). apply filter_In in Hin as [Hin _].
  rewrite <- Hy. by apply in_map.
Qed.

(** The rows a query returns are those of its projection, less the ones
    OFFSET and LIMIT cut off. *)
Lemma execute_sublist (db : database) (p : plan) (rows : list (list sqlval)) :
  execute db p = Some rows -> rows `sublist_of` projected db p.
Proof.
  unfold execute. destruct (_ || _); [discriminate|]. intros [= <-].
  destruct (limit p).
  - etrans; [apply sublist_take | apply sublist_drop].
  - apply sublist_drop.
Qed.

Lemma sublist_map {A B} (f : A -> B) (l k : list A) :
  l `sublist_of` k -> List.map f l `sublist_of` List.map f k.
Proof. induction 1; cbn [List.map]; by constructor. Qed.

Lemma one_row_per_key (db : database) (p : plan) (c : column) (rest : list expr)
    (rows : list (list sqlval)) :
  distinct p = false -> group_by p = Some [Col c] -> select p = Col c :: rest ->
  execute db p = Some rows ->
  NoDup (List.map (fun row => at_ row 0) rows).
Proof.
  intros Hd Hg Hs Hex.
  refine (sublist_NoDup _ _ _ (sublist_map (fun row => at_ row 0) _ _
                                 (execute_sublist _ _ _ Hex))).
  unfold projected. rewrite Hd, List.map_map, Hs.
  cbn [List.map at_ nth].
  unfold ordered.
  rewrite sort_by_Permutation.
  apply NoDup_map_filter. unfold grouped. rewrite Hg.
  apply group_rows_distinct.
Qed.

(** X6: the queries grouped by sector name, by year (the trend) or by gas
    name (the hover breakdown) return each sector, year or gas in one row
    only, whatever the tables hold, for request values that hold no
    quote and no NUL character. *)
Theorem one_row_per_group (db : database) (body : gmap string pyval)
    (op : operation) (rows : list (list sqlval))
    (Hop : grouped_on_first_column op = true)
    (Hplain : well_quoted (plan_of op body) = true)
    (Hrows : execute db (plan_of op body) = Some rows) :
  NoDup (List.map (fun row => at_ row 0) rows).
Proof.
  destruct op; try discriminate Hop;
    (eapply one_row_per_key; [| | |exact Hrows]; reflexivity).
Qed.

Lemma one_row_per_group_witness :
  NoDup (List.map (fun row => at_ row 0)
                  [[VStr "Waste"; VDbl (2500000 # 1); VInt 1; VNull];
                   [VStr "Power Plants"; VDbl (1500000 # 1); VInt 1; VInt 3]]).
Proof.
  apply (one_row_per_group sample_db ∅ OpSectorsTotal);
    [reflexivity| |]; vm_compute; reflexivity.
Defined.

(** *** Geometry files *)

Lemma upper_lower_ascii (c : ascii) : upper_ascii (lower_ascii c) = upper_ascii c.
Proof. destruct c as [[] [] [] [] [] [] [] []]; reflexivity. Qed.

Lemma str_upper_lower (s : string) : str_upper (str_lower s) = str_upper s.
Proof.
  induction s as [|c s IH]; [reflexivity|].
  cbn [str_lower str_upper]. by rewrite upper_lower_ascii, IH.
Qed.

Lemma py_in_member (key : string) (members : list (string * json)) :
  py_in key (JObj members) = Some (bool_decide (member key members <> None)).
Proof.
  unfold py_in, member. f_equal.
  induction members as [|[k v] ms IH]; cbn [existsb List.find fst]; [reflexivity|].
  destruct (String.eqb k key); [reflexivity|]. exact IH.
Qed.

Section GeometryFacts.

Variable S3_BUCKET : string.

Abbreviation load := (get_geo_json S3_BUCKET).
Abbreviation geo_fetch filename :=
  (DownloadFile S3_BUCKET ("epa_ghg_geo/" +:+ filename) ("/tmp/" +:+ filename)).

(** X7: what the first download of a geometry file brings is final.  The
    call that downloads returns the decoded value, or raises 'Failed to
    download ...' with the decoder's complaint when the file does not
    decode; the file stays under /tmp either way, so every later call, with
    the store in whatever state, returns that value or raises that
    complaint again, and never goes to the store. *)
Theorem first_download_is_final
    (s3 : s3_client) (stored : string -> json + string) (w : geo_world)
    (filename : string)
    (Hcold : geo_cache w !! filename = None)
    (Hnofile : geo_files w !! ("/tmp/" +:+ filename) = None)
    (Hserved : download_file s3 S3_BUCKET ("epa_ghg_geo/" +:+ filename)
                             ("/tmp/" +:+ filename) = inl tt) :
  let run := load s3 stored w filename in
  geo_log run.2 = geo_log w ++ [geo_fetch filename]
  /\ match stored ("epa_ghg_geo/" +:+ filename) with
     | inl data =>
         run.1 = inl data
         /\ forall s3' stored', load s3' stored' run.2 filename = (inl data, run.2)
     | inr e =>
         run.1 = inr ("Failed to download " +:+ ("epa_ghg_geo/" +:+ filename)
                      +:+ ": " +:+ e)
         /\ forall s3' stored', load s3' stored' run.2 filename = (inr e, run.2)
     end.
Proof.
  unfold get_geo_json. rewrite Hcold, Hnofile, Hserved.
  destruct (stored _) as [data|e]; cbn [fst snd geo_log geo_cache geo_files].
  - split; [reflexivity|]. split; [reflexivity|]. intros s3' stored'.
    by rewrite lookup_insert_eq.
  - split; [reflexivity|]. split; [reflexivity|]. intros s3' stored'.
    by rewrite Hcold, lookup_insert_eq.
Qed.

(** X8: the country-wide codes, in any letter case, are answered with an
    empty list and without a look at the geometry data: nothing is read,
    cached or fetched. *)
Theorem country_wide_bounds_need_no_data
    (s3 : s3_client) (stored : string -> json + string) (w : geo_world)
    (state_code : string)
    (Hcode : str_lower state_code = "us" \/ str_lower state_code = "local") :
  handle_state_bounds S3_BUCKET s3 stored w state_code = (cors_result (JArr []), w).
Proof.
  unfold handle_state_bounds.
  rewrite <- (str_upper_lower state_code).
  destruct Hcode as [-> | ->]; reflexivity.
Qed.

(** X9: a state code in ASCII, read in upper case, that the loaded data
    has no member for is an error for the bounds, 404 with the code in
    the text, and an empty list of counties with status 200. *)
Theorem unknown_state_code
    (s3 : s3_client) (stored : string -> json + string) (w w' : geo_world)
    (state_code : string) (members : list (string * json))
    (Hascii : ascii_only state_code = true)
    (Hunknown : member (str_upper state_code) members = None) :
  (str_in (str_upper state_code) ["US"; "LOCAL"] = false ->
   load s3 stored w "state_geometries.json" = (inl (JObj members), w') ->
   handle_state_bounds S3_BUCKET s3 stored w state_code
   = (cors_error 404 [Text ("State not found: " +:+ str_upper state_code)], w'))
  /\ (load s3 stored w "counties_by_state.json" = (inl (JObj members), w') ->
      handle_state_counties S3_BUCKET s3 stored w state_code
      = (cors_result (JArr []), w')).
Proof.
  split.
  - intros Hcode Hload. unfold handle_state_bounds. rewrite Hcode, Hload.
    rewrite py_in_member, Hunknown. reflexivity.
  - intros Hload. unfold handle_state_counties. rewrite Hload.
    rewrite py_in_member, Hunknown. reflexivity.
Qed.

End GeometryFacts.

Lemma first_download_is_final_witness :
  let run := get_geo_json "epa-backups-eia" always_serving garbage_stored cold_geo
                          "state_geometries.json" in
  run.1 = inr ("Failed to download epa_ghg_geo/state_geometries.json"
               +:+ ": Expecting value: line 1 column 1 (char 0)")
  /\ get_geo_json "epa-backups-eia" never_serving states_stored run.2
                  "state_geometries.json"
     = (inr "Expecting value: line 1 column 1 (char 0)", run.2).
Proof.
  destruct (first_download_is_final "epa-backups-eia" always_serving garbage_stored
              cold_geo "state_geometries.json" eq_refl eq_refl eq_refl)
    as [_ [Hfirst Hlater]].
  split; [exact Hfirst | exact (Hlater never_serving states_stored)].
Defined.

Lemma country_wide_bounds_need_no_data_witness :
  handle_state_bounds "epa-backups-eia" never_serving garbage_stored cold_geo "Us"
  = (cors_result (JArr []), cold_geo).
Proof.
  exact (country_wide_bounds_need_no_data "epa-backups-eia" never_serving
           garbage_stored cold_geo "Us" (or_introl eq_refl)).
Defined.

Lemma unknown_state_code_witness :
  handle_state_bounds "epa-backups-eia" always_serving states_stored cold_geo "zz"
  = (cors_error 404 [Text "State not found: ZZ"],
     (get_geo_json "epa-backups-eia" always_serving states_stored cold_geo
                   "state_geometries.json").2)
  /\ handle_state_counties "epa-backups-eia" always_serving states_stored cold_geo "zz"
     = (cors_result (JArr []),
        (get_geo_json "epa-backups-eia" always_serving states_stored cold_geo
                      "counties_by_state.json").2).
Proof.
  destruct (unknown_state_code "epa-backups-eia" always_serving states_stored
              cold_geo
              (get_geo_json "epa-backups-eia" always_serving states_stored cold_geo
                            "state_geometries.json").2
              "zz" _ eq_refl
              (eq_refl : member (str_upper "zz")
                                  [("TX", JObj [("name", JStr "Texas");
                                                ("bounds", JArr [JNum (-1066 # 10); JNum (258 # 10);
                                                                 JNum (-935 # 10); JNum (365 # 10)]);
                                                ("geometry", JNull)])] = None))
    as [Hbounds _].
  destruct (unknown_state_code "epa-backups-eia" always_serving states_stored
              cold_geo
              (get_geo_json "epa-backups-eia" always_serving states_stored cold_geo
                            "counties_by_state.json").2
              "zz" _ eq_refl
              (eq_refl : member (str_upper "zz")
                                  [("TX", JObj [("name", JStr "Texas");
                                                ("bounds", JArr [JNum (-1066 # 10); JNum (258 # 10);
                                                                 JNum (-935 # 10); JNum (365 # 10)]);
                                                ("geometry", JNull)])] = None))
    as [_ Hcounties].
  split; [apply Hbounds | apply Hcounties]; reflexivity.
Defined.

(** *** The trend *)

Lemma sector_lookup_total (db : database) (n : Z) :
  exists r, fetchone db (plan_sector_lookup n) = Some r.
Proof. unfold fetchone, execute. cbn. eauto. Qed.

Lemma trend_sector_name_total (db : database) (requested : string) :
  exists name, trend_sector_name db requested = Some name.
Proof.
  unfold trend_sector_name. destruct (_ && _); [|eauto].
  destruct (py_int_str requested) as [n|]; [|eauto].
  destruct (sector_lookup_total db n) as [[r|] ->]; eauto.
Qed.

Lemma trend_series_name_total (db : database) (requested : string) :
  exists name, trend_series_name db requested = Some name.
Proof.
  unfold trend_series_name. destruct (_ && _); [|eauto].
  destruct (py_int_str requested) as [n|]; [|eauto].
  destruct (sector_lookup_total db n) as [[r|] ->]; eauto.
Qed.

Lemma trend_rows (db : database) (st : pyval) (name : option string) :
  execute db (plan_sector_trend st name)
  = Some (projected db (plan_sector_trend st name)).
Proof. reflexivity. Qed.

(** X10: once the tables are there, the trend handler answers 200 for a
    sector id in ASCII, whatever it is, when the values its queries paste
    -- the state, and the sector name it has looked up -- hold no quote or NUL character
    and the sector ids of the dimension table are within the engine's
    INTEGER (an integer id being within its BIGINT); the years of its
    chart are those of the rows of the trend query, which stand in
    ascending order (a NULL year last), each year in one row. *)
Theorem trend_chart_years_ascend (db : database) (body : gmap string pyval)
    (requested level : string)
    (Hascii : ascii_only requested = true)
    (Hint : forall n, py_int_str requested = Some n -> in_int64 n = true)
    (Hids : int32_ids db = true)
    (Hplain : forall name,
        trend_sector_name db requested = Some name ->
        well_quoted (plan_sector_trend (state_param body) name) = true) :
  exists series_name rows,
    handle_sector_trend (inl db) body requested level
    = cors_result (trend_chart series_name rows)
    /\ sector_trend_rows db body requested = Some rows
    /\ StronglySorted (fun r1 r2 => key_leb false (at_ r1 0) (at_ r2 0) = true) rows
    /\ NoDup (List.map (fun row => at_ row 0) rows).
Proof.
  destruct (trend_series_name_total db requested) as [series Hseries].
  destruct (trend_sector_name_total db requested) as [name Hname].
  set (p := plan_sector_trend (state_param body) name).
  assert (sector_trend_rows db body requested = Some (projected db p)) as Hrows.
  { unfold sector_trend_rows. rewrite Hname. reflexivity. }
  exists series, (projected db p).
  split; [unfold handle_sector_trend; by rewrite Hseries, Hrows|].
  split; [exact Hrows|]. split.
  - unfold projected. cbn [distinct p plan_sector_trend].
    eapply StronglySorted_map_In; [|apply ordered_sorted].
    intros g1 g2 _ _ H. apply order_leb_single in H. exact H.
  - apply (one_row_per_key db p S_year [total_emissions]); reflexivity.
Qed.

Lemma trend_chart_years_ascend_witness :
  let body : gmap string pyval := {[ "state" := PStr "TX" ]} in
  let rows := [[VStr "2022"; VDbl (10 # 1)]; [VStr "2023"; VDbl (1500000 # 1)]] in
  sector_trend_rows sample_db body "3" = Some rows
  /\ StronglySorted (fun r1 r2 => key_leb false (at_ r1 0) (at_ r2 0) = true) rows
  /\ exists series_name,
       handle_sector_trend (inl sample_db) body "3" "1"
       = cors_result (trend_chart series_name rows).
Proof.
  destruct (trend_chart_years_ascend sample_db {[ "state" := PStr "TX" ]} "3" "1")
    as (series & rows & Hreply & Hrows & Hsorted & _).
  - reflexivity.
  - intros n Hn. vm_compute in Hn. injection Hn as <-. reflexivity.
  - reflexivity.
  - intros name Hname.
    assert (name = Some "Power Plants") as ->
        by (vm_compute in Hname; congruence).
    vm_compute. reflexivity.
  - cbn zeta. rewrite Hreply.
    assert (rows = [[VStr "2022"; VDbl (10 # 1)]; [VStr "2023"; VDbl (1500000 # 1)]])
      as <- by (vm_compute in Hrows; congruence).
    split; [exact Hrows|]. split; [exact Hsorted|]. exists series. reflexivity.
Defined.

Lemma sector_lookup_none (db : database) (n : Z) :
  Forall (fun d => sector_id d <> Some n) (DIM_SECTOR db) ->
  fetchone db (plan_sector_lookup n) = Some None.
Proof.
  intros Hnone.
  assert (filtered db (plan_sector_lookup n) = []) as Hf.
  { unfold filtered, joined.
    cbn [joins plan_sector_lookup fold_left from table_rows where_].
    induction Hnone as [|d l Hd _ IH]; [reflexivity|].
    cbn [List.map List.filter]. rewrite IH.
    unfold all_hold, holds, eval_pred, sql_eq.
    cbn [forallb eval col_val ed of_slot int cast_integer].
    destruct (sector_id d) as [m|]; cbn [int cast_integer is_null orb val_eqb];
      [|reflexivity].
    destruct (Z.eqb_spec m n); [congruence|reflexivity]. }
  unfold fetchone, execute.
  cbn [offset limit plan_sector_lookup default from_option id Z.ltb Z.compare orb
       fmap option_fmap option_map].
  unfold projected, ordered, grouped.
  cbn [group_by plan_sector_lookup distinct]. rewrite Hf. reflexivity.
Qed.

(** X11: a sector id in ASCII that is empty, is not an integer, or is the
    id of no row of the sector table does not give an error or an empty
    chart: the trend handler answers as it does for the id '0' of all
    sectors together, series name included.  (The sector ids of the
    dimension table are within the engine's INTEGER, to which the lookup
    casts them, and the state holds no quote or NUL character.) *)
Theorem unknown_sector_means_all_sectors (db : database) (body : gmap string pyval)
    (requested level : string)
    (Hascii : ascii_only requested = true)
    (Hids : int32_ids db = true)
    (Hplain : well_quoted (plan_sector_trend (state_param body) None) = true)
    (Hid : requested = ""
           \/ py_int_str requested = None
           \/ exists n, py_int_str requested = Some n /\ in_int64 n = true
                        /\ Forall (fun d => sector_id d <> Some n) (DIM_SECTOR db)) :
  handle_sector_trend (inl db) body requested level
  = handle_sector_trend (inl db) body "0" "1".
Proof.
  assert (trend_series_name db requested = Some "Total GHG Emissions"
          /\ trend_sector_name db requested = Some None) as [Hs Hn].
  { unfold trend_series_name, trend_sector_name.
    destruct (_ && _) eqn:Hc; [|auto].
    destruct Hid as [->|[->|(n & -> & _ & Hnone)]]; [discriminate Hc|auto|].
    rewrite (sector_lookup_none db n Hnone). auto. }
  unfold handle_sector_trend, sector_trend_rows. rewrite Hs, Hn. reflexivity.
Qed.

Lemma unknown_sector_means_all_sectors_witness :
  handle_sector_trend (inl sample_db) ∅ "77" "1"
  = handle_sector_trend (inl sample_db) ∅ "0" "1".
Proof.
  apply unknown_sector_means_all_sectors; try reflexivity.
  right. right. exists 77.
  split; [reflexivity|]. split; [reflexivity|]. repeat constructor; discriminate.
Defined.

(** *** Markers *)

Lemma collect_inl {A} (f : A -> json + exn) (l : list A) (ys : list json) :
  collect f l = inl ys -> Forall2 (fun x y => f x = inl y) l ys.
Proof.
  revert ys. induction l as [|x l IH]; cbn [collect]; intros ys.
  - intros [= <-]. constructor.
  - destruct (f x) as [y|e] eqn:Hx; [|discriminate].
    destruct (collect f l) as [ys'|e]; [|discriminate].
    intros [= <-]. constructor; auto.
Qed.

Lemma collect_In {A} (f : A -> json + exn) (l : list A) (ys : list json) (y : json) :
  collect f l = inl ys -> In y ys -> exists x, In x l /\ f x = inl y.
Proof.
  intros Hc. apply collect_inl in Hc.
  induction Hc as [|x y' l ys' Hx _ IH]; [intros []|].
  intros [<-|Hin]; [exists x; split; [left; reflexivity|exact Hx]|].
  destruct (IH Hin) as (x' & Hx' & Hf). exists x'. split; [right|]; assumption.
Qed.

Lemma In_dedupe_rows (rows : list (list sqlval)) (r : list sqlval) :
  In r (dedupe_rows rows) -> In r rows.
Proof.
  induction rows as [|r0 rows IH]; cbn [dedupe_rows]; [tauto|].
  intros [<-|Hin]; [left; reflexivity|].
  apply filter_In in Hin as [Hin _]. right. auto.
Qed.

(** A returned row is the projection of a group that passed HAVING, with
    or without DISTINCT. *)
Lemma execute_row_of_some_group (db : database) (p : plan)
    (rows : list (list sqlval)) (r : list sqlval) :
  execute db p = Some rows -> In r rows ->
  exists g, In g (grouped db p) /\ all_hold (having p) g = true
            /\ r = List.map (eval g) (select p).
Proof.
  intros Hex Hr. unfold execute in Hex.
  destruct (_ || _); [discriminate|]. injection Hex as <-.
  assert (In r (projected db p)) as Hin.
  { destruct (limit p); [apply In_take in Hr|]; eapply In_drop, Hr. }
  unfold projected in Hin.
  assert (In r (List.map (fun g => List.map (eval g) (select p)) (ordered db p))) as Hin'.
  { destruct (distinct p); [apply In_dedupe_rows|]; exact Hin. }
  apply in_map_iff in Hin' as (g & <- & Hg).
  unfold ordered in Hg. apply sort_by_In, filter_In in Hg as [Hg Hh].
  eauto.
Qed.

Lemma cast_double_truthy (v : sqlval) :
  sql_truthy (cast_double v) = true ->
  exists q, cast_double v = VDbl q /\ ~ (q == 0)%Q.
Proof.
  unfold cast_double. destruct (as_Q v) as [q|]; cbn [sql_truthy]; [|discriminate].
  intros H. exists q. split; [reflexivity|].
  intros Hq. apply Qeq_bool_iff in Hq. rewrite Hq in H. discriminate.
Qed.

(** X12: for request values that hold no quote or NUL character, every marker of the
    overlay has numbers other than 0 for both coordinates: a row whose
    latitude or longitude is 0 is left out along with those without
    coordinates.  The id is an integer or null, the emissions a whole
    number. *)
Theorem overlay_markers_have_a_position (acquired : database + string)
    (body : gmap string pyval) (markers : list json)
    (Hplain : well_quoted (plan_of OpMapOverlay body) = true)
    (Hreply : reply_result (handle_map_overlay acquired body) = Some (JArr markers)) :
  Forall (fun m => exists id_ lt ln e,
            m = JObj [("id", id_); ("lt", JNum lt); ("ln", JNum ln);
                      ("emissions", JInt e)]
            /\ ~ (lt == 0)%Q /\ ~ (ln == 0)%Q
            /\ (id_ = JNull \/ exists n, id_ = JInt n))
         markers.
Proof.
  unfold handle_map_overlay in Hreply.
  destruct acquired as [db|e]; [|discriminate].
  destruct (execute db _) as [result|] eqn:Hex; [|discriminate].
  destruct (collect overlay_marker _) as [ms|e] eqn:Hc; [|discriminate].
  injection Hreply as <-.
  apply List.Forall_forall. intros m Hm.
  destruct (collect_In _ _ _ _ Hc Hm) as (row & Hrow & Hmk).
  apply filter_In in Hrow as [Hrow Hpos].
  destruct (execute_row_of_some_group _ _ _ _ Hex Hrow) as (g & _ & _ & ->).
  unfold has_position in Hpos. apply andb_true_iff in Hpos as [Hlt Hln].
  unfold overlay_marker in Hmk.
  cbn [select plan_map_overlay List.map at_ nth] in Hlt, Hln, Hmk.
  cbn [eval] in Hlt, Hln.
  destruct (cast_double_truthy _ Hlt) as (lt & Elt & Hlt0).
  destruct (cast_double_truthy _ Hln) as (ln & Eln & Hln0).
  cbn [eval] in Hmk. rewrite Elt, Eln in Hmk. cbn [json_of_sqlval] in Hmk.
  destruct (sql_truthy _).
  - destruct (py_int_of _) as [n|]; [|discriminate]. injection Hmk as <-.
    do 4 eexists. split; [reflexivity|]. eauto.
  - injection Hmk as <-. do 4 eexists. split; [reflexivity|]. eauto.
Qed.

Lemma overlay_markers_have_a_position_witness :
  Forall (fun m => exists id_ lt ln e,
            m = JObj [("id", id_); ("lt", JNum lt); ("ln", JNum ln);
                      ("emissions", JInt e)]
            /\ ~ (lt == 0)%Q /\ ~ (ln == 0)%Q
            /\ (id_ = JNull \/ exists n, id_ = JInt n))
         [JObj [("id", JInt 1001); ("lt", JNum (59 # 2)); ("ln", JNum (-95 # 1));
                ("emissions", JInt 1500000)];
          JObj [("id", JInt 1002); ("lt", JNum (59 # 2)); ("ln", JNum (-95 # 1));
                ("emissions", JInt 2500000)]].
Proof.
  apply (overlay_markers_have_a_position (inl sample_db) ∅);
    vm_compute; reflexivity.
Defined.

(** The rows of a LEFT JOIN of facility rows with the sector facts. *)
Lemma sector_join_rows (db : database) (j : join) (rows : list env) (r : env) :
  j_table j = T_SECTOR ->
  In r (apply_join db rows j) ->
  exists r0, In r0 rows /\ ef r = ef r0
    /\ (r = r0
        \/ exists s, In s (SECTOR db) /\ es r = Some s
                     /\ all_hold (j_on j) [r] = true).
Proof.
  intros Ht Hr. unfold apply_join in Hr.
  apply in_flat_map in Hr as (r0 & Hr0 & Hr). exists r0. split; [exact Hr0|].
  destruct (List.filter _ _) eqn:Hm.
  - destruct (j_kind j); cbn [In] in Hr; [|tauto].
    destruct Hr as [<-|[]]. auto.
  - rewrite <- Hm in Hr. apply filter_In in Hr as [Hr Hon].
    rewrite Ht in Hr. cbn [table_rows] in Hr.
    apply in_map_iff in Hr as (s & <- & Hs). cbn [ef es].
    split; [reflexivity|]. right. exists s. auto.
Qed.

Lemma text_eq_holds (a b : option string) :
  sql_eq (txt a) (txt b) = Some true -> exists t, a = Some t /\ b = Some t.
Proof.
  destruct a as [x|], b as [y|]; cbn; try discriminate.
  unfold sql_eq. cbn. intros [= H]. apply String.eqb_eq in H. subst. eauto.
Qed.

(** X13: the overlay query joins the sector facts with LEFT JOIN, but its
    WHERE reads their columns: for request values that hold no quote or NUL character, a
    facility is on the overlay only when it has, for the year asked for,
    a row of the sector facts with the data source asked for and a gas
    other than biogenic CO2. *)
Theorem overlay_needs_an_emission_row (db : database) (body : gmap string pyval)
    (rows : list (list sqlval)) (row : list sqlval)
    (Hplain : well_quoted (plan_of OpMapOverlay body) = true)
    (Hrows : execute db (plan_of OpMapOverlay body) = Some rows)
    (Hrow : In row rows) :
  exists f s,
    In f (FACILITIES db) /\ In s (SECTOR db)
    /\ at_ row 0 = txt (facility_id f)
    /\ year f = Some (py_str (reportingYear body))
    /\ sec_facility_id s = facility_id f
    /\ sec_year s = year f
    /\ sector_type s = Some (py_str (dataSource body))
    /\ is_biogenic s = false.
Proof.
  cbn [plan_of] in Hrows.
  set (p := plan_map_overlay _ _ _) in Hrows.
  destruct (execute_row_of_some_group _ _ _ _ Hrows Hrow) as (g & Hg & _ & ->).
  unfold grouped in Hg. cbn [group_by p plan_map_overlay] in Hg.
  apply group_rows_members in Hg as (r0 & rest & -> & Hall).
  destruct (Hall r0 (or_introl eq_refl)) as [Hr0 _]. clear Hall.
  unfold filtered in Hr0. apply filter_In in Hr0 as [Hj Hw].
  unfold joined in Hj. cbn [joins p plan_map_overlay fold_left from] in Hj.
  apply sector_join_rows in Hj as (r00 & Hr00 & Hef & Hcase); [|reflexivity].
  cbn [table_rows] in Hr00. apply in_map_iff in Hr00 as (f & <- & Hf).
  cbn [ef es empty_env] in Hef, Hcase.
  unfold all_hold in Hw. rewrite forallb_forall in Hw.
  assert (holds [r0] (PEq (Col F_year) (Lit (py_str (reportingYear body)))) = true)
    as Hyear by (apply Hw; cbn; auto).
  assert (holds [r0] (PEq (Col S_sector_type) (Lit (py_str (dataSource body)))) = true)
    as Htype.
  { apply Hw. cbn [where_ p plan_map_overlay]. right.
    apply in_or_app. right. apply in_or_app. left. left. reflexivity. }
  assert (holds [r0] not_biogenic = true) as Hbio.
  { apply Hw. cbn [where_ p plan_map_overlay]. right.
    apply in_or_app. right. apply in_or_app. left. right. left. reflexivity. }
  apply (where_year _ f r0 Hef) in Hyear.
  destruct Hcase as [->|(s & Hs & Hes & Hon)].
  { unfold holds in Htype. cbn in Htype. discriminate. }
  exists f, s. split; [exact Hf|]. split; [exact Hs|].
  split; [cbn; by rewrite Hef|]. split; [exact Hyear|].
  cbn [j_on all_hold forallb] in Hon.
  apply andb_true_iff in Hon as [Hid Hon].
  apply andb_true_iff in Hon as [Hy _].
  unfold holds in Hid, Hy, Htype. cbn in Hid, Hy, Htype.
  rewrite Hef, Hes in Hid, Hy. rewrite Hes in Htype. cbn in Hid, Hy, Htype.
  destruct (sql_eq (txt (facility_id f)) _) as [[]|] eqn:Eid; try discriminate.
  destruct (sql_eq (txt (year f)) _) as [[]|] eqn:Ey; try discriminate.
  apply text_eq_holds in Eid as (i & Hi1 & Hi2).
  apply text_eq_holds in Ey as (y & Hy1 & Hy2).
  split; [congruence|]. split; [congruence|]. split.
  - destruct (sector_type s) as [t|]; cbn in Htype; [|discriminate].
    unfold sql_eq in Htype. cbn in Htype.
    destruct (String.eqb_spec t (py_str (dataSource body))); [congruence|discriminate].
  - apply not_biogenic_free in Hbio. unfold free_of_biogenic in Hbio.
    rewrite Hes in Hbio. by destruct (is_biogenic s).
Qed.

Lemma overlay_needs_an_emission_row_witness :
  exists f s,
    In f (FACILITIES sample_db) /\ In s (SECTOR sample_db)
    /\ at_ [VStr "1002"; VDbl (59 # 2); VDbl (-95 # 1); VDbl (2500000 # 1)] 0
       = txt (facility_id f)
    /\ year f = Some (py_str (reportingYear ∅))
    /\ sec_facility_id s = facility_id f
    /\ sec_year s = year f
    /\ sector_type s = Some (py_str (dataSource ∅))
    /\ is_biogenic s = false.
Proof.
  apply (overlay_needs_an_emission_row sample_db ∅
           [[VStr "1001"; VDbl (59 # 2); VDbl (-95 # 1); VDbl (1500000 # 1)];
            [VStr "1002"; VDbl (59 # 2); VDbl (-95 # 1); VDbl (2500000 # 1)]]).
  - vm_compute. reflexivity.
  - vm_compute. reflexivity.
  - right. left. reflexivity.
Defined.

Lemma coordinate_present (r : env) (c : column) :
  c = F_latitude \/ c = F_longitude ->
  holds [r] (PIsNotNull (Col c)) = true ->
  holds [r] (PNe (Col c) (Lit "")) = true ->
  exists q, cast_double (col_val r c) = VDbl q.
Proof.
  intros Hc Hnn Hne. unfold holds in Hnn, Hne. cbn [eval_pred eval] in Hnn, Hne.
  destruct Hc as [-> | ->]; cbn [col_val] in *;
    (destruct (ef r) as [f|]; cbn [of_slot] in *; [|discriminate]).
  - destruct (latitude f) as [[|q]|]; cbn in Hnn, Hne; try discriminate. cbn. eauto.
  - destruct (longitude f) as [[|q]|]; cbn in Hnn, Hne; try discriminate. cbn. eauto.
Qed.

(** X14: for request values that hold no quote or NUL character, when the map-markers
    handler answers 200, every marker has an integer id and numbers for
    both coordinates: the query leaves out the rows with a NULL or blank
    coordinate, and one id that is not an integer turns the whole answer
    into an error. *)
Theorem map_markers_are_complete (acquired : database + string)
    (body : gmap string pyval) (markers : list json)
    (Hplain : well_quoted (plan_of OpMapMarkers body) = true)
    (Hreply : reply_result (handle_facilities_map_markers acquired body)
              = Some (JArr markers)) :
  Forall (fun m => exists n lt ln,
            m = JObj [("id", JInt n); ("lt", JNum lt); ("ln", JNum ln)])
         markers.
Proof.
  unfold handle_facilities_map_markers in Hreply.
  destruct acquired as [db|e]; [|discriminate].
  destruct (execute db _) as [result|] eqn:Hex; [|discriminate].
  destruct (collect map_marker _) as [ms|e] eqn:Hc; [|discriminate].
  injection Hreply as <-.
  apply List.Forall_forall. intros m Hm.
  destruct (collect_In _ _ _ _ Hc Hm) as (row & Hrow & Hmk).
  destruct (execute_row_of_some_group _ _ _ _ Hex Hrow) as (g & Hg & _ & ->).
  unfold grouped in Hg. cbn [group_by plan_map_markers] in Hg.
  apply in_map_iff in Hg as (r & <- & Hr).
  unfold filtered in Hr. apply filter_In in Hr as [_ Hw].
  unfold all_hold in Hw. rewrite forallb_forall in Hw.
  cbn [where_ plan_map_markers has_coordinates] in Hw.
  destruct (coordinate_present r F_latitude) as [lt Hlt];
    [auto | apply Hw; cbn; auto | apply Hw; cbn; auto |].
  destruct (coordinate_present r F_longitude) as [ln Hln];
    [auto | apply Hw; cbn; auto | apply Hw; cbn; auto 6 |].
  unfold map_marker in Hmk.
  cbn [select plan_map_markers List.map at_ nth eval] in Hmk.
  rewrite Hlt, Hln in Hmk. cbn [json_of_sqlval] in Hmk.
  destruct (col_val r F_facility_id); try discriminate;
    (destruct (py_int_of _) as [k|]; [|discriminate]);
    injection Hmk as <-; eauto.
Qed.

Lemma map_markers_are_complete_witness :
  Forall (fun m => exists n lt ln,
            m = JObj [("id", JInt n); ("lt", JNum lt); ("ln", JNum ln)])
         [JObj [("id", JInt 1001); ("lt", JNum (59 # 2)); ("ln", JNum (-95 # 1))];
          JObj [("id", JInt 1003); ("lt", JNum (59 # 2)); ("ln", JNum (-95 # 1))]].
Proof.
  apply (map_markers_are_complete (inl sample_db) {["state" := PStr "TX"]});
    vm_compute; reflexivity.
Defined.

(** *** Lines of the exports *)

Lemma execute_row_length (db : database) (p : plan) (rows : list (list sqlval))
    (r : list sqlval) :
  execute db p = Some rows -> In r rows -> length r = length (select p).
Proof.
  intros Hex Hr.
  destruct (execute_row_of_some_group _ _ _ _ Hex Hr) as (g & _ & _ & ->).
  apply length_map.
Qed.

(** X15: every line of an export has as many fields as its header: twelve
    in the export of all years, eleven in the export of one year. *)
Theorem export_lines_as_wide_as_header (acquired : database + string)
    (body : gmap string pyval) (query_params : gmap string string)
    (filename : string) (lines : list (list cell))
    (Hcsv : resp_body (handle_export acquired body query_params)
            = CsvBody filename lines) :
  let width := if query_flag query_params "allReportingYears" then 12%nat else 11%nat in
  exists header, head lines = Some header /\ Forall (fun l => length l = width) lines.
Proof.
  unfold handle_export in Hcsv.
  destruct acquired as [db|e]; [|discriminate].
  destruct (execute db _) as [result|] eqn:Hex; [|discriminate].
  cbn [resp_body] in Hcsv. injection Hcsv as _ <-.
  cbn zeta. eexists. split; [reflexivity|].
  constructor; [by destruct (query_flag _ _)|].
  apply List.Forall_forall. intros l Hl.
  apply in_map_iff in Hl as (row & <- & Hrow).
  pose proof (execute_row_length _ _ _ _ Hex Hrow) as Hlen.
  unfold csv_line. rewrite length_app, length_map, length_take. cbn [length].
  destruct (query_flag _ _); cbn in Hlen; lia.
Qed.

Lemma export_lines_as_wide_as_header_witness :
  exists header,
    head [csv_header false;
          [CStr "1002"; CStr "Plant 1002"; CStr "Houston"; CStr "CA"; CNone; CNone;
           CNone; CNum (59 # 2); CNum (-95 # 1); CNone; CInt 2500000];
          [CStr "1001"; CStr "Plant 1001"; CStr "Houston"; CStr "TX"; CNone; CNone;
           CNone; CNum (59 # 2); CNum (-95 # 1); CNone; CInt 1500000];
          [CStr "1003"; CStr "Plant 1003"; CStr "Houston"; CStr "TX"; CNone; CNone;
           CNone; CNum (59 # 2); CNum (-95 # 1); CNone; CInt 0]] = Some header
    /\ Forall (fun l => length l = 11%nat)
         [csv_header false;
          [CStr "1002"; CStr "Plant 1002"; CStr "Houston"; CStr "CA"; CNone; CNone;
           CNone; CNum (59 # 2); CNum (-95 # 1); CNone; CInt 2500000];
          [CStr "1001"; CStr "Plant 1001"; CStr "Houston"; CStr "TX"; CNone; CNone;
           CNone; CNum (59 # 2); CNum (-95 # 1); CNone; CInt 1500000];
          [CStr "1003"; CStr "Plant 1003"; CStr "Houston"; CStr "TX"; CNone; CNone;
           CNone; CNum (59 # 2); CNum (-95 # 1); CNone; CInt 0]].
Proof.
  assert (query_flag ∅ "allReportingYears" = false) as Hone
    by (vm_compute; reflexivity).
  pose proof (export_lines_as_wide_as_header (inl sample_db) ∅ ∅
                "ghg_emissions_2023.csv") as W.
  cbn zeta in W. rewrite Hone in W. apply W.
  vm_compute. reflexivity.
Defined.

(** *** Download links *)

Section DownloadLinks.

Variable S3_BUCKET : string.

(** X16: the download handler asks the store for a link only for a key
    right under epa_ghg_tables_csvs/: the file name it appends ends in
    .csv and holds no slash and no two dots in a row, and the store has
    answered the existence check for that key just before. *)
Theorem links_only_for_checked_files (s3 : s3_client) (filename bucket key : string)
    (Hlink : In (GeneratePresignedUrl bucket key)
                (handle_data_download S3_BUCKET s3 filename).2) :
  bucket = S3_BUCKET
  /\ key = "epa_ghg_tables_csvs/" +:+ filename
  /\ endswith filename ".csv" = true
  /\ str_contains "/" filename = false
  /\ str_contains ".." filename = false
  /\ head_object s3 bucket key = inl tt
  /\ (handle_data_download S3_BUCKET s3 filename).2
     = [HeadObject bucket key; GeneratePresignedUrl bucket key].
Proof.
  unfold handle_data_download in *.
  destruct (endswith filename ".csv"); cbn [negb orb] in *; [|destruct Hlink].
  destruct (str_contains "/" filename); cbn [orb] in *; [destruct Hlink|].
  destruct (str_contains ".." filename); [destruct Hlink|].
  destruct (head_object s3 _ _) as [[]|e] eqn:Hhead; cbn [snd] in Hlink.
  - assert (GeneratePresignedUrl bucket key
            = GeneratePresignedUrl S3_BUCKET ("epa_ghg_tables_csvs/" +:+ filename)) as Heq.
    { destruct (generate_presigned_url s3 _ _); cbn [snd In] in Hlink;
        destruct Hlink as [H|[H|[]]]; congruence. }
    injection Heq as -> ->.
    repeat split; [exact Hhead|].
    by destruct (generate_presigned_url s3 _ _).
  - destruct Hlink as [H|[]]. discriminate.
Qed.

End DownloadLinks.

Lemma links_only_for_checked_files_witness :
  "epa-backups-eia" = "epa-backups-eia"
  /\ "epa_ghg_tables_csvs/ghg.PUB_DIM_SECTOR.csv"
     = "epa_ghg_tables_csvs/" +:+ "ghg.PUB_DIM_SECTOR.csv"
  /\ endswith "ghg.PUB_DIM_SECTOR.csv" ".csv" = true
  /\ str_contains "/" "ghg.PUB_DIM_SECTOR.csv" = false
  /\ str_contains ".." "ghg.PUB_DIM_SECTOR.csv" = false
  /\ head_object always_serving "epa-backups-eia"
                 "epa_ghg_tables_csvs/ghg.PUB_DIM_SECTOR.csv" = inl tt
  /\ (handle_data_download "epa-backups-eia" always_serving "ghg.PUB_DIM_SECTOR.csv").2
     = [HeadObject "epa-backups-eia" "epa_ghg_tables_csvs/ghg.PUB_DIM_SECTOR.csv";
        GeneratePresignedUrl "epa-backups-eia"
                             "epa_ghg_tables_csvs/ghg.PUB_DIM_SECTOR.csv"].
Proof.
  apply (links_only_for_checked_files "epa-backups-eia" always_serving
           "ghg.PUB_DIM_SECTOR.csv").
  vm_compute. right. left. reflexivity.
Defined.

(** *** Characters a string lacks *)

Lemma lacks_app (c : ascii) (a b : string) :
  lacks c (a +:+ b) = lacks c a && lacks c b.
Proof.
  induction a as [|x a IH]; [reflexivity|].
  rewrite append_cons. cbn [lacks]. rewrite IH. apply andb_assoc.
Qed.

Lemma append_nil_r (s : string) : s +:+ "" = s.
Proof. induction s as [|c s IH]; [reflexivity|]. by rewrite append_cons, IH. Qed.

Lemma split_on_lacks (c : ascii) (s : string) :
  lacks c s = true -> split_on c s = [s].
Proof.
  induction s as [|a s IH]; [reflexivity|]. cbn [lacks split_on].
  intros H. apply andb_true_iff in H as [Ha Hs].
  apply negb_true_iff in Ha. rewrite Ha, (IH Hs). reflexivity.
Qed.

Lemma split_on_app (c : ascii) (a b : string) :
  lacks c a = true -> split_on c (a +:+ String c b) = a :: split_on c b.
Proof.
  induction a as [|x a IH]; intros H.
  - rewrite append_nil. apply split_on_sep.
  - cbn [lacks] in H. apply andb_true_iff in H as [Hx Ha].
    apply negb_true_iff in Hx. rewrite append_cons. cbn [split_on].
    rewrite Hx, (IH Ha). reflexivity.
Qed.

(** *** Replacing *)

Lemma replace_from_skip (old new a s : string) :
  replace_from old new (String.length a) (a +:+ s) = replace_from old new 0 s.
Proof.
  induction a as [|x a IH]; [by rewrite append_nil|].
  rewrite append_cons. cbn [String.length replace_from]. exact IH.
Qed.

Lemma replace_nothing (o : ascii) (old new s : string) :
  lacks o s = true -> str_replace (String o old) new s = s.
Proof.
  unfold str_replace. induction s as [|c s IH]; [reflexivity|].
  cbn [lacks]. intros H. apply andb_true_iff in H as [Hc Hs].
  apply negb_true_iff in Hc. cbn [replace_from String.prefix].
  destruct (Ascii.ascii_dec o c) as [->|_]; [by rewrite Ascii.eqb_refl in Hc|].
  by rewrite (IH Hs).
Qed.

Lemma replace_first (o : ascii) (old new a s : string) :
  lacks o a = true ->
  str_replace (String o old) new (a +:+ String o old +:+ s)
  = a +:+ new +:+ str_replace (String o old) new s.
Proof.
  unfold str_replace. induction a as [|c a IH]; intros H.
  - rewrite !append_nil, append_cons. cbn [replace_from].
    assert (String.prefix (String o old) (String o (old +:+ s)) = true) as ->.
    { apply prefix_app. exists s. by rewrite append_cons. }
    cbn [String.length]. rewrite Nat.sub_1_r. cbn [Nat.pred].
    by rewrite replace_from_skip.
  - cbn [lacks] in H. apply andb_true_iff in H as [Hc Ha].
    apply negb_true_iff in Hc. rewrite !(append_cons c).
    cbn [replace_from String.prefix].
    destruct (Ascii.ascii_dec o c) as [->|_]; [by rewrite Ascii.eqb_refl in Hc|].
    by rewrite (IH Ha).
Qed.

(** *** The converter *)

(** X19: the converter and the API agree on where a table lives.  For a
    table name without dot, slash or the letter g, the object
    epa_ghg_tables_csvs/ghg.<name>.csv is listed under that very name, and
    the key its Parquet file is uploaded to is the key [get_local_parquet]
    downloads when S3_PREFIX is the converter's prefix without its final
    slash, as the converter tells its user to set it. *)
Theorem converted_table_is_found (table_name : string) (size : Z) (stamp : string)
    (Hplain : lacks "." table_name && lacks "g" table_name && lacks "/" table_name
              = true) :
  let key := CSV_PREFIX +:+ "ghg." +:+ table_name +:+ ".csv" in
  list_csv_files [[ {| Key := key; Size := size; LastModified := stamp |} ]]
  = [ {| cf_key := key; cf_table_name := table_name; cf_size := size |} ]
  /\ parquet_key table_name = s3_key_of (rstrip_slash PARQUET_PREFIX) table_name.
Proof.
  apply andb_true_iff in Hplain as [Hplain Hslash].
  apply andb_true_iff in Hplain as [Hdot Hg].
  cbn zeta. split; [|reflexivity].
  unfold list_csv_files. cbn [flat_map Key Size]. rewrite !app_nil_r.
  assert (endswith (CSV_PREFIX +:+ "ghg." +:+ table_name +:+ ".csv") ".csv" = true) as ->.
  { apply endswith_spec. exists (CSV_PREFIX +:+ "ghg." +:+ table_name).
    by rewrite !append_assoc. }
  assert (last_segment (CSV_PREFIX +:+ "ghg." +:+ table_name +:+ ".csv")
          = "ghg." +:+ table_name +:+ ".csv") as ->.
  { unfold last_segment.
    change (CSV_PREFIX +:+ "ghg." +:+ table_name +:+ ".csv")
      with ("epa_ghg_tables_csvs" +:+ String "/" ("ghg." +:+ table_name +:+ ".csv")).
    rewrite split_on_app by reflexivity.
    rewrite split_on_lacks; [reflexivity|].
    by rewrite !lacks_app, Hslash. }
  assert (str_replace "ghg." "" ("ghg." +:+ table_name +:+ ".csv")
          = table_name +:+ ".csv") as ->.
  { pose proof (replace_first "g" "hg." "" "" (table_name +:+ ".csv") eq_refl) as H.
    rewrite !append_nil in H. rewrite H.
    apply replace_nothing. by rewrite lacks_app, Hg. }
  assert (str_replace ".csv" "" (table_name +:+ ".csv") = table_name) as ->.
  { rewrite <- (append_nil_r (table_name +:+ ".csv")), append_assoc.
    rewrite (replace_first "." "csv" "" table_name "" Hdot).
    by rewrite append_nil, append_nil_r. }
  reflexivity.
Qed.

Lemma converted_table_is_found_witness :
  list_csv_files
    [[ {| Key := CSV_PREFIX +:+ "ghg." +:+ "PUB_DIM_SECTOR" +:+ ".csv";
          Size := 4096; LastModified := "2024-05-01T00:00:00+00:00" |} ]]
  = [ {| cf_key := CSV_PREFIX +:+ "ghg." +:+ "PUB_DIM_SECTOR" +:+ ".csv";
         cf_table_name := "PUB_DIM_SECTOR"; cf_size := 4096 |} ]
  /\ parquet_key "PUB_DIM_SECTOR"
     = s3_key_of (rstrip_slash PARQUET_PREFIX) "PUB_DIM_SECTOR".
Proof.
  exact (converted_table_is_found "PUB_DIM_SECTOR" 4096 "2024-05-01T00:00:00+00:00"
           eq_refl).
Defined.

Lemma tuple_leb_total (a b : Z * Z) : tuple_leb a b = true \/ tuple_leb b a = true.
Proof.
  unfold tuple_leb.
  destruct (Z.ltb_spec (fst a) (fst b)), (Z.ltb_spec (fst b) (fst a)),
           (Z.eqb_spec (fst a) (fst b)), (Z.eqb_spec (fst b) (fst a)),
           (Z.leb_spec (snd a) (snd b)), (Z.leb_spec (snd b) (snd a));
    cbn; auto; lia.
Qed.

Lemma tuple_leb_trans (a b c : Z * Z) :
  tuple_leb a b = true -> tuple_leb b c = true -> tuple_leb a c = true.
Proof.
  unfold tuple_leb.
  destruct (Z.ltb_spec (fst a) (fst b)), (Z.ltb_spec (fst b) (fst c)),
           (Z.ltb_spec (fst a) (fst c)),
           (Z.eqb_spec (fst a) (fst b)), (Z.eqb_spec (fst b) (fst c)),
           (Z.eqb_spec (fst a) (fst c)),
           (Z.leb_spec (snd a) (snd b)), (Z.leb_spec (snd b) (snd c)),
           (Z.leb_spec (snd a) (snd c));
    cbn; auto; lia.
Qed.

(** X20: the converter takes the files in this order: first the priority
    tables, in the order of PRIORITY_TABLES, then the other tables, a
    larger one never after a smaller one; and it keeps every file it was
    given. *)
Theorem priority_tables_come_first (csv_files : list csv_file) :
  Permutation (conversion_order csv_files) csv_files
  /\ StronglySorted
       (fun a b =>
          match index_of (cf_table_name a) PRIORITY_TABLES,
                index_of (cf_table_name b) PRIORITY_TABLES with
          | Some i, Some j => (i <= j)%nat
          | Some _, None => True
          | None, Some _ => False
          | None, None => cf_size b <= cf_size a
          end)
       (conversion_order csv_files).
Proof.
  split; [apply sort_by_Permutation|].
  unfold conversion_order.
  pose proof (sort_by_sorted (fun a b => tuple_leb (sort_key a) (sort_key b))
                (fun a b => tuple_leb_total _ _)
                (fun a b c => tuple_leb_trans _ _ _) csv_files) as Hs.
  induction Hs as [|x l Hl IH Hx]; constructor; [exact IH|].
  eapply List.Forall_impl; [|exact Hx].
  intros y Hxy. cbv beta in Hxy. unfold sort_key, tuple_leb in Hxy.
  destruct (index_of (cf_table_name x) PRIORITY_TABLES),
           (index_of (cf_table_name y) PRIORITY_TABLES); cbn in Hxy; try lia;
    try exact I; discriminate.
Qed.

(** *** Query strings of the development server *)

Lemma split_once_app (c : ascii) (k v : string) :
  lacks c k = true -> split_once c (k +:+ String c v) = Some (k, v).
Proof.
  induction k as [|x k IH]; intros H.
  - rewrite append_nil. cbn [split_once]. by rewrite Ascii.eqb_refl.
  - cbn [lacks] in H. apply andb_true_iff in H as [Hx Hk].
    apply negb_true_iff in Hx. rewrite append_cons. cbn [split_once].
    rewrite Hx, (IH Hk). reflexivity.
Qed.

Lemma contains_char (c : ascii) (a b : string) :
  str_contains (String c "") (a +:+ String c b) = true.
Proof. apply str_contains_spec. exists a, b. reflexivity. Qed.

(** What a well-formed parameter is made of: a key without '=', '&' and
    '?', a value without '&' and '?'. *)
Abbreviation well_formed kv :=
  (lacks "=" (fst kv) && lacks "&" (fst kv) && lacks "?" (fst kv)
   && lacks "&" (snd kv) && lacks "?" (snd kv) = true).

Lemma well_formed_parts (k v : string) :
  well_formed (k, v) ->
  lacks "=" k = true /\ lacks "&" k = true /\ lacks "?" k = true
  /\ lacks "&" v = true /\ lacks "?" v = true.
Proof. cbn [fst snd]. rewrite !andb_true_iff. tauto. Qed.

Lemma query_of_one (k v : string) : query_of [(k, v)] = k +:+ String "=" v.
Proof.
  transitivity (k +:+ String "=" (v +:+ "")); [reflexivity|]. by rewrite append_nil_r.
Qed.

Lemma query_of_more (k v : string) (kv : string * string)
    (rest : list (string * string)) :
  query_of ((k, v) :: kv :: rest)
  = (k +:+ String "=" v) +:+ String "&" (query_of (kv :: rest)).
Proof.
  transitivity (k +:+ String "=" (v +:+ String "&" (query_of (kv :: rest))));
    [reflexivity|].
  by rewrite append_assoc, append_cons.
Qed.

Lemma pair_lacks (c : ascii) (k v : string) :
  c <> "="%char -> lacks c k = true -> lacks c v = true ->
  lacks c (k +:+ String "=" v) = true.
Proof.
  intros Hc Hk Hv. rewrite lacks_app, Hk. cbn [lacks andb]. rewrite Hv, andb_true_r.
  apply negb_true_iff, Ascii.eqb_neq. congruence.
Qed.

Lemma query_of_lacks (pairs : list (string * string)) :
  Forall (fun kv => well_formed kv) pairs -> lacks "?" (query_of pairs) = true.
Proof.
  induction 1 as [|[k v] rest Hkv _ IH]; [reflexivity|].
  apply well_formed_parts in Hkv as (_ & _ & Hk & _ & Hv).
  destruct rest as [|kv rest].
  - rewrite query_of_one. by apply pair_lacks.
  - rewrite query_of_more, lacks_app, pair_lacks by (done || discriminate).
    cbn [lacks andb negb]. exact IH.
Qed.

Lemma query_of_params (pairs : list (string * string)) (m : gmap string string) :
  Forall (fun kv => well_formed kv) pairs ->
  fold_left
    (fun params param =>
       match split_once "=" param with
       | Some (key, value) => <[key := value]> params
       | None => params
       end)
    (split_on "&" (query_of pairs)) m
  = fold_left (fun params kv => <[fst kv := snd kv]> params) pairs m.
Proof.
  intros H. revert m. induction H as [|[k v] rest Hkv _ IH]; intros m; [reflexivity|].
  apply well_formed_parts in Hkv as (Hk1 & Hk2 & _ & Hv & _).
  destruct rest as [|kv rest].
  - rewrite query_of_one, split_on_lacks by (by apply pair_lacks).
    cbn [fold_left fst snd]. by rewrite (split_once_app "=" k v Hk1).
  - rewrite query_of_more, split_on_app by (by apply pair_lacks).
    cbn [fold_left fst snd]. rewrite (split_once_app "=" k v Hk1). apply IH.
Qed.

(** X21: the development server takes a request target apart into the
    path it routes and the parameters it passes on: for a path without '?'
    followed by '?' and parameters key=value joined by '&', the path is
    what is routed, whatever the parameters, and the parameters come out
    as written, a later one replacing an earlier one of the same key. *)
Theorem request_target_round_trip (path : string) (pairs : list (string * string))
    (Hpath : lacks "?" path = true)
    (Hpairs : Forall (fun kv => well_formed kv) pairs) :
  let target := path +:+ "?" +:+ query_of pairs in
  request_path target = path
  /\ do_GET_route target = local_route_of (Some "GET") (Some path)
  /\ _parse_query_string target
     = fold_left (fun params kv => <[fst kv := snd kv]> params) pairs ∅.
Proof.
  cbn zeta. change ("?" +:+ query_of pairs) with (String "?" (query_of pairs)).
  assert (split_on "?" (path +:+ String "?" (query_of pairs))
          = [path; query_of pairs]) as Hsplit.
  { rewrite split_on_app by exact Hpath.
    by rewrite split_on_lacks by (apply query_of_lacks, Hpairs). }
  assert (request_path (path +:+ String "?" (query_of pairs)) = path) as Hreq
    by (unfold request_path; by rewrite Hsplit).
  split; [exact Hreq|]. split; [unfold do_GET_route; by rewrite Hreq|].
  unfold _parse_query_string. rewrite contains_char, Hsplit. cbn [negb nth].
  apply query_of_params, Hpairs.
Qed.

Lemma request_target_round_trip_witness :
  let target := "/ghgp/api/version" +:+ "?" +:+ query_of [("id", "1001"); ("v", "a=b")] in
  request_path target = "/ghgp/api/version"
  /\ do_GET_route target = local_route_of (Some "GET") (Some "/ghgp/api/version")
  /\ _parse_query_string target
     = fold_left (fun params kv => <[fst kv := snd kv]> params)
                 [("id", "1001"); ("v", "a=b")] ∅.
Proof.
  apply (request_target_round_trip "/ghgp/api/version" [("id", "1001"); ("v", "a=b")]).
  - reflexivity.
  - repeat constructor.
Defined.

(** *** The list of files *)

Lemma file_entries_csv (response : listing) (f : file_info) :
  In f (file_entries response) ->
  endswith (fi_filename f) ".csv" = true /\ fi_size f = size_str (fi_sizeBytes f).
Proof.
  unfold file_entries. destruct (Contents response) as [objects|]; [|intros []].
  intros Hf. apply in_flat_map in Hf as (obj & _ & Hf).
  destruct (negb _ && _) eqn:Hc; [|destruct Hf].
  destruct Hf as [<-|[]]. cbn [fi_filename fi_size fi_sizeBytes].
  apply andb_true_iff in Hc as [_ Hc]. auto.
Qed.

Section DataFilesFacts.

Variable S3_BUCKET : string.
Variable list_objects_v2 : string -> string -> option string -> listing + string.

Lemma served_head (response : listing) (pages : list listing) :
  served S3_BUCKET list_objects_v2 response pages ->
  exists rest, pages = response :: rest.
Proof. destruct 1; eauto. Qed.

Lemma more_files_served (response : listing) (pages : list listing)
    (files : list file_info) :
  served S3_BUCKET list_objects_v2 response pages ->
  more_files S3_BUCKET list_objects_v2 (length pages) response files
  = Some (inl (files ++ flat_map file_entries (tl pages))).
Proof.
  intros Hs. revert files.
  induction Hs as [response Hlast|response next token rest Htr Htok Hnext Hs IH];
    intros files; cbn [length more_files tl flat_map].
  - rewrite Hlast. by rewrite app_nil_r.
  - rewrite Htr, Htok, Hnext, IH.
    destruct (served_head _ _ Hs) as [rest' ->]. cbn [tl flat_map].
    by rewrite app_assoc.
Qed.

(** X22: when the store serves the listing of the CSV files to its end,
    in however many pages, the handler answers 200 after one call per
    page; its list holds the objects of all pages whose name, the key with
    the prefix taken out, is not empty and ends in .csv, and no other; the
    list is in the order of the file names, and its count is its
    length. *)
Theorem data_files_lists_every_page (first : listing) (pages : list listing)
    (Hfirst : list_objects_v2 S3_BUCKET "epa_ghg_tables_csvs/" None = inl first)
    (Hserved : served S3_BUCKET list_objects_v2 first pages) :
  exists files,
    handle_data_files S3_BUCKET list_objects_v2 (length pages)
    = Some (cors_result
              (JObj [("files", JArr (List.map json_of_file files));
                     ("count", JInt (Z.of_nat (length files)))]))
    /\ Permutation files (flat_map file_entries pages)
    /\ StronglySorted (fun a b => String.leb (fi_filename a) (fi_filename b) = true)
                      files
    /\ Forall (fun f => endswith (fi_filename f) ".csv" = true
                        /\ fi_size f = size_str (fi_sizeBytes f))
              files.
Proof.
  set (leb := fun a b => String.leb (fi_filename a) (fi_filename b)).
  exists (sort_by leb (flat_map file_entries pages)).
  assert (file_entries first ++ flat_map file_entries (tl pages)
          = flat_map file_entries pages) as Hall.
  { destruct (served_head _ _ Hserved) as [rest ->]. reflexivity. }
  split.
  { unfold handle_data_files. rewrite Hfirst, (more_files_served _ _ _ Hserved), Hall.
    reflexivity. }
  split; [apply sort_by_Permutation|]. split.
  - apply sort_by_sorted.
    + intros a b. apply String.leb_total.
    + intros a b c. apply string_leb_trans.
  - apply List.Forall_forall. intros f Hf. apply sort_by_In in Hf.
    apply in_flat_map in Hf as (response & _ & Hf).
    eapply file_entries_csv, Hf.
Qed.

End DataFilesFacts.

Lemma data_files_lists_every_page_witness :
  exists files,
    handle_data_files "epa-backups-eia" two_pages 2
    = Some (cors_result
              (JObj [("files", JArr (List.map json_of_file files));
                     ("count", JInt (Z.of_nat (length files)))]))
    /\ Permutation files (flat_map file_entries [page_one; page_two])
    /\ StronglySorted (fun a b => String.leb (fi_filename a) (fi_filename b) = true)
                      files
    /\ Forall (fun f => endswith (fi_filename f) ".csv" = true
                        /\ fi_size f = size_str (fi_sizeBytes f))
              files.
Proof.
  apply (data_files_lists_every_page "epa-backups-eia" two_pages page_one
           [page_one; page_two]).
  - reflexivity.
  - eapply served_next; [reflexivity | reflexivity | reflexivity |].
    apply served_last. reflexivity.
Defined.

(** *** Interleaved callers *)

Section Interleaved.

Variables S3_BUCKET S3_PREFIX : string.

Lemma caller_sound_mono (w w' : world) (c : caller) :
  local_files w ⊆ local_files w' -> caller_sound w c -> caller_sound w' c.
Proof.
  unfold caller_sound. intros Hsub.
  destruct (c_pc c) as [| | | | |[p|e]]; try done; [set_solver..|].
  intros [-> Hin]. split; [done|set_solver].
Qed.

Lemma step_sound (s3 : s3_client) (w : world) (c : caller) :
  cache_sound w -> caller_sound w c ->
  let next := step S3_BUCKET S3_PREFIX s3 w c in
  cache_sound next.2 /\ local_files w ⊆ local_files next.2
  /\ caller_sound next.2 next.1.
Proof.
  intros Hw Hc. unfold step. unfold caller_sound in Hc.
  assert (forall w', local_files w ⊆ local_files w' ->
            local_path_of (c_table c) ∈ local_files w' ->
            cache_sound
              {| file_cache := <[c_table c := local_path_of (c_table c)]> (file_cache w);
                 local_files := local_files w';
                 s3_log := s3_log w |}) as Hrecord.
  { intros w' Hsub Hin k p. cbn. destruct (decide (k = c_table c)) as [->|Hk].
    - rewrite lookup_insert_eq. by intros [= <-].
    - rewrite lookup_insert_ne by done. intros Hp.
      destruct (Hw _ _ Hp). split; [done|set_solver]. }
  destruct (c_pc c) as [| | | | |r] eqn:Hpc; cbn zeta.
  - destruct (file_cache w !! c_table c) as [p|] eqn:Hhit; cbn.
    + split; [exact Hw|]. split; [done|]. unfold caller_sound. cbn. by apply Hw.
    + split; [exact Hw|]. split; [done|]. exact I.
  - destruct (decide _) as [Hin|Hout]; cbn.
    + split; [exact Hw|]. split; [done|]. exact Hin.
    + split; [exact Hw|]. split; [done|]. exact I.
  - cbn. split; [by apply (Hrecord w)|]. split; [done|].
    unfold caller_sound. cbn. done.
  - destruct (download_file _ _ _ _) as [[]|e]; cbn.
    + split; [|split; [set_solver|unfold caller_sound; cbn; set_solver]].
      intros k p Hp. cbn in Hp. destruct (Hw _ _ Hp). split; [done|set_solver].
    + split; [exact Hw|]. split; [done|]. exact I.
  - cbn. split; [by apply (Hrecord w)|]. split; [done|].
    unfold caller_sound. cbn. done.
  - cbn. split; [exact Hw|]. split; [done|].
    unfold caller_sound. by rewrite Hpc.
Qed.

Lemma run_schedule_sound (s3 : s3_client) (schedule : list nat) (w : world)
    (cs : list caller) :
  cache_sound w -> Forall (caller_sound w) cs ->
  let run := run_schedule S3_BUCKET S3_PREFIX s3 w cs schedule in
  cache_sound run.2 /\ Forall (caller_sound run.2) run.1.
Proof.
  revert w cs. induction schedule as [|i schedule IH]; intros w cs Hw Hcs.
  { cbn. auto. }
  cbn [run_schedule]. destruct (cs !! i) as [c|] eqn:Hi; [|by apply IH].
  assert (caller_sound w c) as Hc.
  { rewrite Forall_forall in Hcs. apply Hcs. by eapply list_elem_of_lookup_2. }
  destruct (step_sound s3 w c Hw Hc) as (Hw' & Hsub & Hc').
  destruct (step S3_BUCKET S3_PREFIX s3 w c) as [c' w']. cbn [fst snd] in *.
  apply IH; [exact Hw'|].
  apply Forall_insert; [|exact Hc'].
  eapply Forall_impl; [exact Hcs|]. intros x. by apply caller_sound_mono.
Qed.

(** X23: callers of [get_local_parquet] that interleave may download a
    table more than once, but none of them is handed a wrong path: under
    every schedule, each caller that has returned a path holds the local
    path of its own table, a file exists at it, and the entries of the
    cache name existing files. *)
Theorem interleaved_callers_get_their_files (s3 : s3_client) (w : world)
    (names : list string) (schedule : list nat)
    (Hw : cache_sound w) :
  let callers := List.map (fun n => {| c_table := n; c_pc := AtCacheLookup |}) names in
  let run := run_schedule S3_BUCKET S3_PREFIX s3 w callers schedule in
  cache_sound run.2
  /\ Forall (fun c => forall p, c_pc c = Returned (inl p) ->
               p = local_path_of (c_table c) /\ p ∈ local_files run.2)
            run.1.
Proof.
  cbn zeta.
  destruct (run_schedule_sound s3 schedule w
              (List.map (fun n => {| c_table := n; c_pc := AtCacheLookup |}) names) Hw)
    as [Hw' Hcs].
  { apply List.Forall_forall. intros c Hc.
    apply in_map_iff in Hc as (n & <- & _). exact I. }
  split; [exact Hw'|].
  eapply Forall_impl; [exact Hcs|]. intros c Hc p Hp.
  unfold caller_sound in Hc. by rewrite Hp in Hc.
Qed.

End Interleaved.

Lemma interleaved_callers_get_their_files_witness :
  let callers := List.map (fun n => {| c_table := n; c_pc := AtCacheLookup |})
                          ["PUB_DIM_SECTOR"; "PUB_DIM_SECTOR"] in
  let run := run_schedule "epa-backups-eia" "epa_ghg_tables_parquet" always_serving
                          cold_world callers [0; 0; 1; 1; 0; 1; 0; 1]%nat in
  cache_sound run.2
  /\ Forall (fun c => forall p, c_pc c = Returned (inl p) ->
               p = local_path_of (c_table c) /\ p ∈ local_files run.2)
            run.1.
Proof.
  exact (interleaved_callers_get_their_files "epa-backups-eia" "epa_ghg_tables_parquet"
           always_serving cold_world ["PUB_DIM_SECTOR"; "PUB_DIM_SECTOR"]
           [0; 0; 1; 1; 0; 1; 0; 1]%nat cold_world_sound).
Defined.

(** *** The two routers *)

Lemma mounted_path (path : string) :
  String.prefix "/ghgp" path = true -> path = "/ghgp" +:+ drop5 path.
Proof.
  intros H. apply prefix_app in H as [b ->]. by rewrite drop5_mounted.
Qed.

Lemma local_routes_get_In (method path : string) (r : local_route) :
  snd <$> List.find (fun e => String.eqb (fst (fst e)) method
                              && String.eqb (snd (fst e)) path) LOCAL_ROUTES
  = Some r ->
  In (method, path, r) LOCAL_ROUTES.
Proof.
  destruct (List.find _ LOCAL_ROUTES) as [[[m p] r']|] eqn:Hfind; [|discriminate].
  intros [= <-]. apply find_some in Hfind as [Hin Heq].
  cbn [fst snd] in Heq. apply andb_true_iff in Heq as [Hm Hp].
  apply String.eqb_eq in Hm, Hp. subst. exact Hin.
Qed.

(** A path that goes on after [/api/state/bounds/], mounted or not, is
    none of the route table. *)
Lemma bounds_path_not_in_table (method path : string) :
  String.prefix "/api/state/bounds/" path = true
  \/ String.prefix "/ghgp/api/state/bounds/" path = true ->
  routes_get method path = None.
Proof.
  intros Hpre. destruct (routes_get method path) as [r|] eqn:Hr; [|reflexivity].
  apply routes_get_In in Hr. exfalso.
  unfold ROUTES in Hr. cbn [In] in Hr.
  repeat (destruct Hr as [Hr|Hr];
          [injection Hr as <- <- <-; destruct Hpre as [H|H]; discriminate H|]).
  destruct Hr.
Qed.

(** X24: what the router of [handler.py] routes, the router of
    [lambda_function.py] routes to the handler of the same name with the
    same state code: the preflight, the five routes of the table, with or
    without the mount prefix, and the state bounds. *)
Theorem deployed_router_covers_local (method path : string) (r : route)
    (Hlocal : deployed_route (local_route_of (Some method) (Some path)) = Some r) :
  route_of method path = r.
Proof.
  unfold local_route_of in Hlocal. cbn [default from_option id] in Hlocal.
  destruct (bool_decide (Some method = Some "OPTIONS")) eqn:Hopt.
  { apply bool_decide_eq_true in Hopt as [= ->]. injection Hlocal as <-. reflexivity. }
  apply bool_decide_eq_false in Hopt.
  assert (String.eqb method "OPTIONS" = false) as Hm
    by (apply String.eqb_neq; congruence).
  set (path' := if String.prefix "/ghgp" path then drop5 path else path) in Hlocal.
  assert (path = path' \/ path = "/ghgp" +:+ path') as Hpath.
  { unfold path'. destruct (String.prefix "/ghgp" path) eqn:Hp; [|auto].
    right. by apply mounted_path. }
  clearbody path'.
  destruct (snd <$> List.find _ LOCAL_ROUTES) as [lr|] eqn:Hfind.
  - apply local_routes_get_In in Hfind.
    unfold LOCAL_ROUTES in Hfind. cbn [In] in Hfind.
    repeat (destruct Hfind as [Hfind|Hfind];
            [injection Hfind as <- <- <-; injection Hlocal as <-;
             destruct Hpath as [-> | ->]; reflexivity|]).
    destruct Hfind.
  - destruct (String.prefix "/api/state/bounds/" path') eqn:Hb; [|discriminate].
    injection Hlocal as <-.
    apply prefix_app in Hb as [b ->].
    unfold route_of. rewrite Hm.
    destruct Hpath as [-> | ->].
    + rewrite bounds_path_not_in_table by (left; apply prefix_app; eauto).
      assert (str_contains "/api/state/bounds/" ("/api/state/bounds/" +:+ b) = true)
        as -> by (apply str_contains_spec; exists "", b; reflexivity).
      reflexivity.
    + rewrite bounds_path_not_in_table
        by (right; apply prefix_app; exists b; by rewrite <- append_assoc).
      assert (str_contains "/api/state/bounds/"
                           ("/ghgp" +:+ "/api/state/bounds/" +:+ b) = true)
        as -> by (apply str_contains_spec; exists "/ghgp", b; reflexivity).
      cbn [orb]. f_equal.
Qed.

Lemma deployed_router_covers_local_witness :
  route_of "GET" "/ghgp/api/state/bounds/TX" = ToStateBounds "TX".
Proof.
  apply deployed_router_covers_local. reflexivity.
Defined.

(** *** The order of the sector figures *)

Lemma joined_emission_rows (db : database) (p : plan) (r : env) :
  from p = T_SECTOR ->
  Forall (fun j => j_table j <> T_SECTOR) (joins p) ->
  In r (joined db p) ->
  exists s, es r = Some s /\ In s (SECTOR db).
Proof.
  intros Hfrom Hjoins. unfold joined. rewrite Hfrom.
  assert (forall r0, In r0 (table_rows db T_SECTOR empty_env) ->
                     exists s, es r0 = Some s /\ In s (SECTOR db)) as Hbase.
  { intros r0 Hr0. cbn [table_rows] in Hr0.
    apply in_map_iff in Hr0 as (s & <- & Hs). eauto. }
  revert Hbase. generalize (table_rows db T_SECTOR empty_env). revert r.
  induction Hjoins as [|j js Hj _ IH]; intros r rows Hbase Hr; cbn [fold_left] in Hr.
  { auto. }
  apply (IH r (apply_join db rows j)); [|exact Hr].
  intros r1 Hr1. unfold apply_join in Hr1.
  apply in_flat_map in Hr1 as (r0 & Hr0 & Hr1).
  rewrite (join_keeps_emission db j r0 r1 Hj Hr1). auto.
Qed.

Lemma fold_Qplus_nonneg (qs : list Q) (q : Q) :
  (0 <= q)%Q -> Forall (fun x => (0 <= x)%Q) qs -> (0 <= fold_left Qplus qs q)%Q.
Proof.
  intros Hq Hqs. revert q Hq.
  induction Hqs as [|x qs Hx _ IH]; intros q Hq; cbn [fold_left]; [exact Hq|].
  apply IH. lra.
Qed.

(** The sum over a group whose emissions are not negative is NULL or not
    negative. *)
Lemma total_nonneg (g : list env) :
  (forall r s q, In r g -> es r = Some s -> co2e_emission s = Some q -> (0 <= q)%Q) ->
  eval g total_emissions = VNull
  \/ exists q, eval g total_emissions = VDbl q /\ (0 <= q)%Q.
Proof.
  intros Hg. unfold total_emissions. cbn [eval]. unfold sql_sum.
  assert (Forall (fun x => (0 <= x)%Q)
            (omap as_Q (List.map (fun r => cast_double (col_val r S_co2e_emission)) g)))
    as Hall.
  { induction g as [|r g IH]; [constructor|].
    cbn [List.map omap]. 
    assert (Forall (fun x => (0 <= x)%Q)
              (omap as_Q (List.map (fun r => cast_double (col_val r S_co2e_emission)) g)))
      as Hrest by (apply IH; intros; eapply Hg; eauto; by right).
    cbn [col_val]. destruct (es r) as [s|] eqn:Hs; cbn [of_slot]; [|exact Hrest].
    destruct (co2e_emission s) as [q|] eqn:Hq; cbn; [|exact Hrest].
    constructor; [|exact Hrest]. eapply Hg; eauto. by left. }
  destruct (omap _ _) as [|q qs]; [auto|]. right.
  apply List.Forall_cons_iff in Hall as [Hq Hqs].
  eexists. split; [reflexivity|]. by apply fold_Qplus_nonneg.
Qed.

Lemma mmt_or_zero_number (q : Q) :
  (0 <= q)%Q -> 0 <= mmt_or_zero (VDbl q) /\ mmt_or_zero (VDbl q) = toMMT q.
Proof.
  intros Hq. unfold mmt_or_zero. cbn [sql_truthy py_float_of].
  destruct (Qeq_bool q 0) eqn:Hz; cbn [negb].
  - apply Qeq_bool_iff in Hz. split; [lia|].
    apply Z.le_antisymm.
    + change 0 with (toMMT 0). apply toMMT_mono. lra.
    + change 0 with (toMMT 0). apply toMMT_mono. lra.
  - split; [|reflexivity]. change 0 with (toMMT 0). by apply toMMT_mono.
Qed.

(** X25: when no emission of the sector facts is negative, the figures of
    the sector totals stand in descending order: the query orders the
    sectors by their total, largest first, and rounding to MMT keeps that
    order.  (The reporting year and the state hold no quote or NUL character, and the
    sector ids of the dimension table, which the query casts, are within
    the engine's INTEGER.) *)
Theorem sector_figures_descend (db : database) (body : gmap string pyval)
    (Hplain : well_quoted (plan_of OpSectorsTotal body) = true)
    (Hids : int32_ids db = true)
    (Hpos : Forall (fun s => forall q, co2e_emission s = Some q -> (0 <= q)%Q)
                   (SECTOR db)) :
  exists totals details figures,
    reply_result (handle_sectors_total_emissions (inl db) body) = Some totals
    /\ jpath [Field "sectorEmissionDetails"] totals = Some (JArr details)
    /\ pluck "totalEmissions" details = List.map (fun n => Some (JInt n)) figures
    /\ StronglySorted (fun a b => b <= a) figures.
Proof.
  set (p := plan_sectors_total_emissions (reportingYear body) (state_param body)).
  exists (sectors_total (reportingYear body) (projected db p)),
         (List.map sector_detail (projected db p)),
         (List.map (fun row => mmt_or_zero (at_ row 1)) (projected db p)).
  split; [reflexivity|]. split; [reflexivity|]. split.
  { unfold pluck. rewrite !List.map_map. reflexivity. }
  unfold projected. cbn [distinct p plan_sectors_total_emissions]. rewrite List.map_map.
  eapply StronglySorted_map_In; [|apply ordered_sorted].
  intros g1 g2 Hg1 Hg2 Hle.
  change (mmt_or_zero (eval g2 total_emissions) <= mmt_or_zero (eval g1 total_emissions)).
  apply order_leb_single in Hle.
  assert (forall g, In g (ordered db p) ->
            eval g total_emissions = VNull
            \/ exists q, eval g total_emissions = VDbl q /\ (0 <= q)%Q) as Hsum.
  { intros g Hg. apply total_nonneg. intros r s q Hr Hs Hq.
    unfold ordered in Hg. apply sort_by_In, filter_In in Hg as [Hg _].
    unfold grouped in Hg. cbn [group_by p plan_sectors_total_emissions] in Hg.
    apply group_rows_members in Hg as (r0 & rest & -> & Hmem).
    destruct (Hmem r Hr) as [Hf _].
    unfold filtered in Hf. apply filter_In in Hf as [Hj _].
    apply joined_emission_rows in Hj as (s' & Hs' & Hin).
    - rewrite Forall_forall in Hpos. apply (Hpos s); [|exact Hq].
      apply list_elem_of_In. congruence.
    - reflexivity.
    - cbn [joins p plan_sectors_total_emissions]. unfold state_join.
      destruct (state_given _); repeat constructor; discriminate. }
  destruct (Hsum g1 Hg1) as [E1|(q1 & E1 & H1)],
           (Hsum g2 Hg2) as [E2|(q2 & E2 & H2)];
    rewrite E1, E2 in *; cbn in Hle.
  - reflexivity.
  - discriminate.
  - change (mmt_or_zero VNull) with 0. apply mmt_or_zero_number, H1.
  - destruct (mmt_or_zero_number q1 H1) as [_ ->],
             (mmt_or_zero_number q2 H2) as [_ ->].
    apply toMMT_mono. by apply Qle_bool_iff.
Qed.

Lemma sector_figures_descend_witness :
  exists totals details figures,
    reply_result (handle_sectors_total_emissions (inl sample_db) ∅) = Some totals
    /\ jpath [Field "sectorEmissionDetails"] totals = Some (JArr details)
    /\ pluck "totalEmissions" details = List.map (fun n => Some (JInt n)) figures
    /\ StronglySorted (fun a b => b <= a) figures.
Proof.
  apply sector_figures_descend; [vm_compute; reflexivity | reflexivity |].
  repeat constructor; intros q [= <-]; apply Qle_bool_iff; reflexivity.
Defined.
